(** * HistoricalFinanceSimulator: the retirement simulation engine

    A shallow embedding of [portfolioCalcServer/lib/simulations.js] (the
    server copy of the engine) and of the client copy of the same
    functions, with the properties of the specification proved or refuted
    on it.  The later parts embed runDcaMonthly, the request validators
    and the inflation calculators of [index.js], and the monthly
    aggregation of [lib/dataloader.js], with the properties their code
    shows.

    Numbers.  A JavaScript number is modelled by [jsnum]: an exact rational
    or one of the three IEEE special values (NaN, +Infinity, -Infinity).
    The arithmetic, the comparisons, [Math.max], [Math.min] and
    [Number.isFinite] follow IEEE-754 on the special values; on finite
    operands they are exact (binary64 rounding, overflow, underflow and the
    sign of zero are not modelled).  The properties of the runs and
    of the sweep are therefore stated on the order of the numbers, on NaN
    and on results as the operations of the code give them, one operation
    after the other; where a number is taken to be finite, a hypothesis
    says so.  Where rounding or overflow decides a property, the module
    [Binary64] has the functions of the server copy on primitive binary64
    numbers, and the property is settled by running them.

    Months.  A month string ["YYYY-MM"] is modelled by the pair of numbers
    the code reads out of it ([slice(0,4)] and [slice(5,7)]). *)

From Stdlib Require Import String.
From Stdlib Require Import QArith Qround ZArith List Bool Lia Lqa.
From Stdlib Require Import Permutation Sorted.
From Stdlib Require OrderedTypeEx.
From Stdlib Require PrimFloat.
Import ListNotations.

Open Scope Q_scope.

(* ================================================================== *)
(** ** JavaScript numbers *)
(* ================================================================== *)

Module JS.

Inductive jsnum : Type :=
| Fin (q : Q)
| NaN
| PInf
| NInf.

Definition Qltb (x y : Q) : bool := negb (Qle_bool y x).

(** [Number.isFinite] *)
Definition isFinite (x : jsnum) : bool :=
  match x with Fin _ => true | _ => false end.

Definition isNaN (x : jsnum) : bool :=
  match x with NaN => true | _ => false end.

(** unary minus *)
Definition jneg (x : jsnum) : jsnum :=
  match x with
  | Fin q => Fin (- q)
  | NaN => NaN
  | PInf => NInf
  | NInf => PInf
  end.

(** [x + y] *)
Definition jadd (x y : jsnum) : jsnum :=
  match x, y with
  | NaN, _ | _, NaN => NaN
  | Fin a, Fin b => Fin (a + b)
  | PInf, NInf | NInf, PInf => NaN
  | PInf, _ | _, PInf => PInf
  | NInf, _ | _, NInf => NInf
  end.

(** [x - y] *)
Definition jsub (x y : jsnum) : jsnum := jadd x (jneg y).

(** the product of an infinity of sign [pos] with the finite [q] *)
Definition inf_times (pos : bool) (q : Q) : jsnum :=
  match q ?= 0 with
  | Eq => NaN
  | Gt => if pos then PInf else NInf
  | Lt => if pos then NInf else PInf
  end.

(** [x * y] *)
Definition jmul (x y : jsnum) : jsnum :=
  match x, y with
  | NaN, _ | _, NaN => NaN
  | Fin a, Fin b => Fin (a * b)
  | PInf, Fin q | Fin q, PInf => inf_times true q
  | NInf, Fin q | Fin q, NInf => inf_times false q
  | PInf, PInf | NInf, NInf => PInf
  | PInf, NInf | NInf, PInf => NInf
  end.

(** [x / y]; a finite non-zero number over zero is an infinity, zero over
    zero is NaN *)
Definition jdiv (x y : jsnum) : jsnum :=
  match x, y with
  | NaN, _ | _, NaN => NaN
  | Fin a, Fin b =>
      if Qeq_bool b 0 then
        match a ?= 0 with Eq => NaN | Gt => PInf | Lt => NInf end
      else Fin (a / b)
  | Fin _, PInf | Fin _, NInf => Fin 0
  | PInf, Fin b => if Qltb b 0 then NInf else PInf
  | NInf, Fin b => if Qltb b 0 then PInf else NInf
  | _, _ => NaN
  end.

(** [x <= y]: false as soon as one side is NaN *)
Definition jle (x y : jsnum) : bool :=
  match x, y with
  | NaN, _ | _, NaN => false
  | Fin a, Fin b => Qle_bool a b
  | NInf, _ | _, PInf => true
  | _, _ => false
  end.

(** [x < y] *)
Definition jlt (x y : jsnum) : bool :=
  match x, y with
  | NaN, _ | _, NaN => false
  | Fin a, Fin b => Qltb a b
  | PInf, _ | _, NInf => false
  | _, _ => true
  end.

(** [x > y] *)
Definition jgt (x y : jsnum) : bool := jlt y x.

(** [x >= y] *)
Definition jge (x y : jsnum) : bool := jle y x.

(** [x === y] on numbers *)
Definition jeq (x y : jsnum) : bool :=
  match x, y with
  | Fin a, Fin b => Qeq_bool a b
  | PInf, PInf | NInf, NInf => true
  | _, _ => false
  end.

(** [Math.max(x, y)]: NaN as soon as one argument is NaN *)
Definition math_max (x y : jsnum) : jsnum :=
  match x, y with
  | NaN, _ | _, NaN => NaN
  | _, _ => if jlt x y then y else x
  end.

(** [Math.min(x, y)] *)
Definition math_min (x y : jsnum) : jsnum :=
  match x, y with
  | NaN, _ | _, NaN => NaN
  | _, _ => if jlt y x then y else x
  end.

(** the number a [null] is converted to in arithmetic *)
Definition num_of (o : option jsnum) : jsnum :=
  match o with Some x => x | None => Fin 0 end.

End JS.
Import JS.

(** numeric literals of the source *)
Definition lit (n : Z) (d : positive) : jsnum := Fin (n # d).

(* ================================================================== *)
(** ** Helpers of [simulations.js] *)
(* ================================================================== *)

(** function clamp(n, lo, hi) { return Math.max(lo, Math.min(hi, n)); } *)
Definition clamp (n lo hi : jsnum) : jsnum := math_max lo (math_min hi n).

(** ["YYYY-MM"] *)
Record Month : Type := mkMonth { year : Z; mon : Z }.

Definition Month_eqb (a b : Month) : bool :=
  (year a =? year b)%Z && (mon a =? mon b)%Z.

Record MonthlyPricePoint : Type := mkPoint { month : Month; close : jsnum }.

(** monthToIndex: [null] when the month number is not in 1..12 *)
Definition monthToIndex (m : Month) : option Z :=
  if ((mon m <? 1) || (mon m >? 12))%Z then None
  else Some (year m * 12 + (mon m - 1))%Z.

(** [Array.prototype.findIndex]: the first index whose element satisfies
    [p], or -1 *)
Fixpoint findIndexFrom {A : Type} (p : A -> bool) (l : list A) (i : Z) : Z :=
  match l with
  | [] => (-1)%Z
  | x :: t => if p x then i else findIndexFrom p t (i + 1)%Z
  end.

Definition findIndex {A : Type} (p : A -> bool) (l : list A) : Z :=
  findIndexFrom p l 0%Z.

Definition findMonthIndex (monthly : list MonthlyPricePoint) (monthStr : Month) : Z :=
  let idx := findIndex (fun m => Month_eqb (month m) monthStr) monthly in
  if (idx >=? 0)%Z then idx
  else
    match monthToIndex monthStr with
    | None => (-1)%Z
    | Some want =>
        findIndex
          (fun m => match monthToIndex (month m) with
                    | Some have => (have =? want)%Z
                    | None => false
                    end) monthly
    end.

(** [a[i] = v] on an array, for an index inside it *)
Fixpoint set_nth {A : Type} (l : list A) (i : nat) (v : A) : list A :=
  match l, i with
  | [], _ => []
  | _ :: t, O => v :: t
  | x :: t, S j => x :: set_nth t j v
  end.

(** the body of the loop of buildReturns *)
Definition returnAt (prev cur : jsnum) : jsnum :=
  if isFinite prev && jgt prev (Fin 0) && isFinite cur
  then jsub (jdiv cur prev) (Fin 1)
  else Fin 0.

(** [for (let i = start; i < start + count; i++) returns[i] = ...] *)
Fixpoint fillReturns (closes : list jsnum) (i count : nat) (returns : list jsnum)
  : list jsnum :=
  match count with
  | O => returns
  | S k =>
      let prev := nth (i - 1) closes NaN in
      let cur := nth i closes NaN in
      fillReturns closes (S i) k (set_nth returns i (returnAt prev cur))
  end.

Definition buildReturns (monthly : list MonthlyPricePoint) : list jsnum :=
  let closes := map close monthly in
  let returns := repeat (Fin 0) (length monthly) in
  fillReturns closes 1 (length monthly - 1) returns.

(* ================================================================== *)
(** ** Exceptions *)
(* ================================================================== *)

(** the errors the engine throws; [TypeError] is what reading a field of
    [monthly[i]] throws when [i] is outside the array *)
Inductive error : Type :=
| StartMonthNotFound
| NotEnoughData
| GuardrailsStartRate
| GuardrailsMinRate
| GuardrailsMaxRate
| GuardrailsMinAboveMax
| GuardrailsMinMaxInvalid
| WithdrawRateNotPositive
| UnknownWithdrawalMode
| TypeError.

Inductive result (A : Type) : Type :=
| Ok (a : A)
| Throw (e : error).

Arguments Ok {A} a.
Arguments Throw {A} e.

Definition bind {A B : Type} (r : result A) (k : A -> result B) : result B :=
  match r with
  | Ok a => k a
  | Throw e => Throw e
  end.

Notation "x <- r ;; k" := (bind r (fun x => k))
  (at level 61, r at next level, right associativity).
Notation "' pat <- r ;; k" := (bind r (fun pat => k))
  (at level 61, pat pattern, r at next level, right associativity).

(** [if (c) throw new Error(e)] *)
Definition throwIf (c : bool) (e : error) : result unit :=
  if c then Throw e else Ok tt.

(* ================================================================== *)
(** ** The data model *)
(* ================================================================== *)

Record GuardrailsConfig : Type := mkGuardrailsConfig {
  minRate : jsnum;
  maxRate : jsnum;
  step : jsnum;
  minDollarFloor : jsnum
}.

(** [{ currentRate: null | number }] *)
Record GuardrailsState : Type := mkGuardrailsState {
  currentRate : option jsnum
}.

(** what computeWithdrawal returns *)
Record WithdrawalResult : Type := mkWithdrawalResult {
  withdrawal : jsnum;
  guardrailsRate : option jsnum
}.

Module Snapshot.
Record t : Type := mk {
  month : Month;
  value : jsnum;
  withdrawal : jsnum;
  guardrailsRatePct : option jsnum;
  inflationFactor : option jsnum
}.
End Snapshot.

Module SimulationResult.
Record t : Type := mk {
  success : bool;
  totalWithdrawn : jsnum;
  endingValue : jsnum;
  maxDrawdown : jsnum;
  highestBalance : jsnum;
  lowestBalance : jsnum;
  series : list Snapshot.t
}.
End SimulationResult.

(** the argument object of runRetirementMonthly and of
    runRetirementSuccessByStartYear (which does not read [startMonth]); a
    missing numeric field is NaN *)
Record Params : Type := mkParams {
  monthly : list MonthlyPricePoint;
  initialBalance : jsnum;
  startMonth : Month;
  durationYears : Z;
  withdrawMode : string;
  withdrawValue : jsnum;
  withdrawFrequency : string;
  guardrailsMinPct : jsnum;
  guardrailsMaxPct : jsnum;
  guardrailsMinDollar : jsnum;
  percentOfCurrentAnnualInflationPct : jsnum
}.

(** the local variables of runRetirementMonthly that the loop updates *)
Record Locals : Type := mkLocals {
  balance : jsnum;
  success : bool;
  totalWithdrawn : jsnum;
  highestBalance : jsnum;
  lowestBalance : jsnum;
  peak : jsnum;
  maxDrawdown : jsnum;
  guardrailsState : GuardrailsState;
  currentYear : Z;
  yearStartBalance : jsnum;
  inflationFactor : jsnum;
  series : list Snapshot.t
}.

(** the constants of one run, fixed before the loop *)
Record Consts : Type := mkConsts {
  guardrailsConfig : GuardrailsConfig;
  baseRateDecimal : jsnum;
  monthlyInfl : jsnum;
  inflationBasePeriodWithdraw : jsnum
}.

(* ================================================================== *)
(** ** computeWithdrawal *)
(* ================================================================== *)

(** The guardrails state object is passed in and the updated one is
    returned with the result. *)
Definition computeWithdrawal
    (mode : string) (ratePerYear initialBalance balance : jsnum)
    (frequency : string)
    (guardrailsState : GuardrailsState) (guardrailsConfig : GuardrailsConfig)
    (ytdReturnAfterMarket : jsnum) (isWithdrawalMonth : bool)
    (inflationBasePeriodWithdraw inflationFactor : jsnum)
  : result (WithdrawalResult * GuardrailsState) :=
  if negb isWithdrawalMonth then
    Ok (mkWithdrawalResult (Fin 0) (currentRate guardrailsState), guardrailsState)
  else
  let freq := frequency in
  if (mode =? "percentOfInitial")%string then
    let annual := jmul initialBalance ratePerYear in
    let w := if (freq =? "monthly")%string then jdiv annual (Fin 12) else annual in
    Ok (mkWithdrawalResult w None, guardrailsState)
  else if (mode =? "percentOfCurrent")%string then
    let w := jmul inflationBasePeriodWithdraw inflationFactor in
    Ok (mkWithdrawalResult w None, guardrailsState)
  else if (mode =? "guardrails")%string then
    let step := step guardrailsConfig in
    let minRate := minRate guardrailsConfig in
    let maxRate := maxRate guardrailsConfig in
    let cur := num_of (currentRate guardrailsState) in
    let guardrailsState :=
      if isFinite ytdReturnAfterMarket then
        if jgt ytdReturnAfterMarket (lit 8 100) then
          mkGuardrailsState (Some (clamp (jadd cur step) minRate maxRate))
        else if jlt ytdReturnAfterMarket (lit 3 100) then
          mkGuardrailsState (Some (clamp (jsub cur step) minRate maxRate))
        else guardrailsState
      else guardrailsState in
    let annual := jmul balance (num_of (currentRate guardrailsState)) in
    let w := if (freq =? "monthly")%string then jdiv annual (Fin 12) else annual in
    let w := if jgt (minDollarFloor guardrailsConfig) (Fin 0)
             then math_max w (minDollarFloor guardrailsConfig) else w in
    Ok (mkWithdrawalResult w (currentRate guardrailsState), guardrailsState)
  else Throw UnknownWithdrawalMode.

(* ================================================================== *)
(** ** runRetirementMonthly (server copy) *)
(* ================================================================== *)

(** the guardrails set-up of runRetirementMonthly: the state and the
    configuration after the [if (withdrawMode === "guardrails")] block *)
Definition initGuardrails (p : Params) : result (GuardrailsState * GuardrailsConfig) :=
  let guardrailsState := mkGuardrailsState None in
  let guardrailsConfig := mkGuardrailsConfig (Fin 0) (Fin 1) (lit 25 10000) (Fin 0) in
  if (withdrawMode p =? "guardrails")%string then
    let startRate := jdiv (withdrawValue p) (Fin 100) in
    let minRate := jdiv (guardrailsMinPct p) (Fin 100) in
    let maxRate := jdiv (guardrailsMaxPct p) (Fin 100) in
    _ <- throwIf (negb (isFinite startRate) || jle startRate (Fin 0))
                      GuardrailsStartRate;;
    _ <- throwIf (negb (isFinite minRate) || jlt minRate (Fin 0))
                      GuardrailsMinRate;;
    _ <- throwIf (negb (isFinite maxRate) || jle maxRate (Fin 0))
                      GuardrailsMaxRate;;
    _ <- throwIf (jgt minRate maxRate) GuardrailsMinAboveMax;;
    Ok (mkGuardrailsState (Some (clamp startRate minRate maxRate)),
        mkGuardrailsConfig minRate maxRate (lit 25 10000)
          (if isFinite (guardrailsMinDollar p)
           then math_max (Fin 0) (guardrailsMinDollar p) else Fin 0))
  else Ok (guardrailsState, guardrailsConfig).

(** the part of one iteration from the market return to the end; [pt] is
    [monthly[i]] and [r] is [returns[i]] *)
Definition monthBody (p : Params) (k : Consts)
    (pt : MonthlyPricePoint) (r : jsnum) (st : Locals) : result Locals :=
  let monthStr := month pt in
  let y := year monthStr in
  let m := mon monthStr in
  let '(currentYear, yearStartBalance) :=
    if negb (y =? currentYear st)%Z then (y, balance st)
    else (currentYear st, yearStartBalance st) in
  let balance := jmul (balance st) (jadd (Fin 1) r) in
  let ytdReturnAfterMarket :=
    if jgt yearStartBalance (Fin 0)
    then jsub (jdiv balance yearStartBalance) (Fin 1) else Fin 0 in
  let isWithdrawalMonth :=
    if (withdrawFrequency p =? "monthly")%string then true else (m =? 1)%Z in
  let withdrawalRatePerYearDecimal := baseRateDecimal k in
  _ <- throwIf (negb (isFinite withdrawalRatePerYearDecimal)
                     || jle withdrawalRatePerYearDecimal (Fin 0))
                    WithdrawRateNotPositive;;
  '(res, guardrailsState) <-
    computeWithdrawal (withdrawMode p) withdrawalRatePerYearDecimal
      (initialBalance p) balance (withdrawFrequency p)
      (guardrailsState st) (guardrailsConfig k)
      ytdReturnAfterMarket isWithdrawalMonth
      (inflationBasePeriodWithdraw k) (inflationFactor st);;
  let w := math_min balance (math_max (Fin 0) (withdrawal res)) in
  let balance := jsub balance w in
  let totalWithdrawn := jadd (totalWithdrawn st) w in
  let '(balance, success) :=
    if jle balance (Fin 0) then (Fin 0, false) else (balance, success st) in
  let highestBalance := math_max (highestBalance st) balance in
  let lowestBalance := math_min (lowestBalance st) balance in
  let peak := math_max (peak st) balance in
  let dd := if jgt peak (Fin 0) then jdiv (jsub peak balance) peak else Fin 0 in
  let maxDrawdown := math_max (maxDrawdown st) dd in
  let isInfl := (withdrawMode p =? "percentOfCurrent")%string in
  let series :=
    series st ++
    [Snapshot.mk monthStr balance w
       (match guardrailsRate res with
        | Some g => Some (jmul g (Fin 100))
        | None => None
        end)
       (if isInfl then Some (inflationFactor st) else None)] in
  let inflationFactor :=
    if isInfl then jmul (inflationFactor st) (jadd (Fin 1) (monthlyInfl k))
    else inflationFactor st in
  Ok (mkLocals balance success totalWithdrawn highestBalance lowestBalance
        peak maxDrawdown guardrailsState currentYear yearStartBalance
        inflationFactor series).

(** [for (let i = i0; i < i0 + count; i++) { body; if (stopped) break; }]:
    the loop over the months of one run, left as soon as the state is no
    longer [alive] *)
Fixpoint monthLoop {St : Type} (alive : St -> bool)
    (body : MonthlyPricePoint -> jsnum -> St -> result St)
    (monthly : list MonthlyPricePoint) (returns : list jsnum)
    (i count : nat) (st : St) : result St :=
  match count with
  | O => Ok st
  | S n =>
      match nth_error monthly i with
      | None => Throw TypeError
      | Some pt =>
          st' <- body pt (nth i returns NaN) st;;
          if alive st' then monthLoop alive body monthly returns (S i) n st'
          else Ok st'
      end
  end.

Definition toResult (st : Locals) : SimulationResult.t :=
  SimulationResult.mk (success st) (totalWithdrawn st) (balance st)
    (maxDrawdown st) (highestBalance st) (lowestBalance st) (series st).

Section Engine.

(** [Math.pow(x, 1/12)] on a finite [x >= 0]: the twelfth root is left
    uninterpreted *)
Variable root12 : Q -> Q.

Definition pow_1_12 (x : jsnum) : jsnum :=
  match x with
  | Fin q => if Qltb q 0 then NaN else Fin (root12 q)
  | NaN => NaN
  | PInf | NInf => PInf
  end.

(** Convert annual inflation % to a monthly compounding rate. *)
Definition monthlyInflationRateFromAnnualPct (annualPct : jsnum) : jsnum :=
  let a := jdiv (if isFinite annualPct then annualPct else Fin 3) (Fin 100) in
  if jlt a (lit (-99) 100) then lit (-99) 100
  else jsub (pow_1_12 (jadd (Fin 1) a)) (Fin 1).

(** the constants computed before the loop, given the guardrails
    configuration *)
Definition consts (p : Params) (gc : GuardrailsConfig) : Consts :=
  let baseRateDecimal := jdiv (withdrawValue p) (Fin 100) in
  let annualInflPct :=
    if isFinite (percentOfCurrentAnnualInflationPct p)
    then percentOfCurrentAnnualInflationPct p else Fin 3 in
  let monthlyInfl := monthlyInflationRateFromAnnualPct annualInflPct in
  let inflationBasePeriodWithdraw :=
    if (withdrawMode p =? "percentOfCurrent")%string then
      if (withdrawFrequency p =? "monthly")%string
      then jdiv (jmul (initialBalance p) baseRateDecimal) (Fin 12)
      else jmul (initialBalance p) baseRateDecimal
    else Fin 0 in
  mkConsts gc baseRateDecimal monthlyInfl inflationBasePeriodWithdraw.

(** the locals when the loop is entered *)
Definition initLocals (p : Params) (gs : GuardrailsState) (yr : Z) : Locals :=
  let balance := initialBalance p in
  mkLocals balance true (Fin 0) balance balance balance (Fin 0) gs yr balance
    (Fin 1) [].

Definition runRetirementMonthly (p : Params) : result SimulationResult.t :=
  let startIdx := findMonthIndex (monthly p) (startMonth p) in
  _ <- throwIf (startIdx <? 0)%Z StartMonthNotFound;;
  let endIdxExclusive := (startIdx + durationYears p * 12)%Z in
  _ <- throwIf (endIdxExclusive >? Z.of_nat (length (monthly p)) - 1)%Z
                    NotEnoughData;;
  let returns := buildReturns (monthly p) in
  '(guardrailsState, guardrailsConfig) <- initGuardrails p;;
  match nth_error (monthly p) (Z.to_nat startIdx) with
  | None => Throw TypeError
  | Some pt0 =>
      let st0 := initLocals p guardrailsState (year (month pt0)) in
      let k := consts p guardrailsConfig in
      st <- monthLoop success (monthBody p k) (monthly p) returns
                   (Z.to_nat startIdx) (Z.to_nat (endIdxExclusive - startIdx)) st0;;
      Ok (toResult st)
  end.

End Engine.

(* ================================================================== *)
(** ** runRetirementSuccessByStartYear (server copy) *)
(* ================================================================== *)

Module YearOutcome.
Record t : Type := mk {
  startYear : Z;
  passed : bool;
  startingBalance : jsnum;
  highestBalance : jsnum;
  lowestBalance : jsnum;
  endingBalance : jsnum
}.
End YearOutcome.

Module Summary.
Record t : Type := mk {
  totalStartYearsTested : nat;
  successes : nat;
  successRate : jsnum;
  averageEndingBalance : option jsnum;
  medianEndingBalance : option jsnum;
  highestBalanceHit : option jsnum;
  lowestBalanceHit : option jsnum
}.
End Summary.

Module SweepResult.
Record t : Type := mk {
  summary : Summary.t;
  results : list YearOutcome.t
}.
End SweepResult.

(** a count as a number *)
Definition num_of_nat (n : nat) : jsnum := Fin (inject_Z (Z.of_nat n)).

(** [[...values].sort((a, b) => a - b)], ascending, by insertion: [x] goes
    after every leading [y] whose comparison [y - x] is negative *)
Fixpoint insertSorted (x : jsnum) (l : list jsnum) : list jsnum :=
  match l with
  | [] => [x]
  | y :: t => if jlt (jsub y x) (Fin 0) then y :: insertSorted x t else x :: l
  end.

Definition sortNumbers (l : list jsnum) : list jsnum :=
  fold_right insertSorted [] l.

Definition median (values : list jsnum) : option jsnum :=
  match values with
  | [] => None
  | _ =>
      let sorted := sortNumbers values in
      let mid := (length sorted / 2)%nat in
      if (length sorted mod 2 =? 1)%nat then Some (nth mid sorted NaN)
      else Some (jdiv (jadd (nth (mid - 1) sorted NaN) (nth mid sorted NaN)) (Fin 2))
  end.

Module Sweep.

(** the variables of one start year that its loop over the months updates *)
Record Locals : Type := mkLocals {
  balance : jsnum;
  success : bool;
  highest : jsnum;
  lowest : jsnum;
  currentYear : Z;
  yearStartBalance : jsnum;
  guardrailsState : GuardrailsState;
  inflationFactor : jsnum
}.

(** the variables of the sweep that the loop over the start months updates *)
Record Totals : Type := mkTotals {
  results : list YearOutcome.t;
  endingBalances : list jsnum;
  highestBalanceHit : jsnum;
  lowestBalanceHit : jsnum
}.

(** the guardrails set-up of one start year: nothing is checked *)
Definition initGuardrails (p : Params) : GuardrailsState * GuardrailsConfig :=
  if (withdrawMode p =? "guardrails")%string then
    let startRate := jdiv (withdrawValue p) (Fin 100) in
    let minRate := jdiv (guardrailsMinPct p) (Fin 100) in
    let maxRate := jdiv (guardrailsMaxPct p) (Fin 100) in
    (mkGuardrailsState (Some (clamp startRate minRate maxRate)),
     mkGuardrailsConfig minRate maxRate (lit 25 10000)
       (if isFinite (guardrailsMinDollar p)
        then math_max (Fin 0) (guardrailsMinDollar p) else Fin 0))
  else (mkGuardrailsState None,
        mkGuardrailsConfig (Fin 0) (Fin 1) (lit 25 10000) (Fin 0)).

(** one iteration of the loop over the months of a start year; on ruin the
    loop is left before the extrema are updated *)
Definition monthBody (p : Params) (k : Consts)
    (pt : MonthlyPricePoint) (r : jsnum) (st : Locals) : result Locals :=
  let ms := month pt in
  let y := year ms in
  let mon := mon ms in
  let '(currentYear, yearStartBalance) :=
    if negb (y =? currentYear st)%Z then (y, balance st)
    else (currentYear st, yearStartBalance st) in
  let balance := jmul (balance st) (jadd (Fin 1) r) in
  let ytdReturnAfterMarket :=
    if jgt yearStartBalance (Fin 0)
    then jsub (jdiv balance yearStartBalance) (Fin 1) else Fin 0 in
  let isWithdrawalMonth :=
    if (withdrawFrequency p =? "monthly")%string then true else (mon =? 1)%Z in
  '(res, guardrailsState) <-
    computeWithdrawal (withdrawMode p) (baseRateDecimal k)
      (initialBalance p) balance (withdrawFrequency p)
      (guardrailsState st) (guardrailsConfig k)
      ytdReturnAfterMarket isWithdrawalMonth
      (inflationBasePeriodWithdraw k) (inflationFactor st);;
  let w := math_min balance (math_max (Fin 0) (withdrawal res)) in
  let balance := jsub balance w in
  if jle balance (Fin 0) then
    Ok (mkLocals (Fin 0) false (highest st) (lowest st)
          currentYear yearStartBalance guardrailsState (inflationFactor st))
  else
    let highest := math_max (highest st) balance in
    let lowest := math_min (lowest st) balance in
    let inflationFactor :=
      if (withdrawMode p =? "percentOfCurrent")%string
      then jmul (inflationFactor st) (jadd (Fin 1) (monthlyInfl k))
      else inflationFactor st in
    Ok (mkLocals balance (success st) highest lowest
          currentYear yearStartBalance guardrailsState inflationFactor).

Section Engine.

Variable root12 : Q -> Q.

(** the simulation of the start year whose January is [monthly[i]] *)
Definition runStartYear (p : Params) (returns : list jsnum)
    (i : nat) (pt : MonthlyPricePoint) : result Locals :=
  let monthStr := month pt in
  let startIdx := i in
  let balance := initialBalance p in
  let '(guardrailsState, guardrailsConfig) := initGuardrails p in
  let k := consts root12 p guardrailsConfig in
  monthLoop success (monthBody p k) (monthly p) returns
    startIdx (Z.to_nat (durationYears p * 12))
    (mkLocals balance true balance balance (year monthStr) balance
       guardrailsState (Fin 1)).

(** [for (let i = i0; i < i0 + count; i++)] over the start months *)
Fixpoint startLoop (p : Params) (returns : list jsnum)
    (i count : nat) (acc : Totals) : result Totals :=
  match count with
  | O => Ok acc
  | S n =>
      match nth_error (monthly p) i with
      | None => Throw TypeError
      | Some pt =>
          let monthStr := month pt in
          if negb (mon monthStr =? 1)%Z then startLoop p returns (S i) n acc
          else
            let endIdxExclusive := (Z.of_nat i + durationYears p * 12)%Z in
            if (endIdxExclusive >? Z.of_nat (length (monthly p)) - 1)%Z
            then Ok acc
            else
              st <- runStartYear p returns i pt;;
              startLoop p returns (S i) n
                (mkTotals
                   (results acc ++
                    [YearOutcome.mk (year monthStr) (success st)
                       (initialBalance p) (highest st) (lowest st) (balance st)])
                   (endingBalances acc ++ [balance st])
                   (math_max (highestBalanceHit acc) (highest st))
                   (math_min (lowestBalanceHit acc) (lowest st)))
      end
  end.

Definition summarize (acc : Totals) : SweepResult.t :=
  let total := length (results acc) in
  let successes := length (filter YearOutcome.passed (results acc)) in
  let successRate :=
    if (total =? 0)%nat then Fin 0
    else jdiv (num_of_nat successes) (num_of_nat total) in
  let avgEnd :=
    if (total =? 0)%nat then None
    else Some (jdiv (fold_left jadd (endingBalances acc) (Fin 0)) (num_of_nat total)) in
  let medEnd :=
    if (total =? 0)%nat then None else median (endingBalances acc) in
  SweepResult.mk
    (Summary.mk total successes successRate avgEnd medEnd
       (if isFinite (highestBalanceHit acc) then Some (highestBalanceHit acc) else None)
       (if isFinite (lowestBalanceHit acc) then Some (lowestBalanceHit acc) else None))
    (results acc).

Definition runRetirementSuccessByStartYear (p : Params) : result SweepResult.t :=
  let returns := buildReturns (monthly p) in
  acc <- startLoop p returns 0 (length (monthly p)) (mkTotals [] [] NInf PInf);;
  Ok (summarize acc).

End Engine.

End Sweep.

(* ================================================================== *)
(** ** The client copy of the engine *)
(* ================================================================== *)

(** The browser script carries its own copy of the engine.  It differs
    from the server copy in where it validates: the withdraw rate is
    checked once before the loop, the guardrails bounds in one test, the
    data bound is [monthly.length], and the two threshold tests of the
    guardrails policy are two separate [if]s.  ([annualInflationPct ?? 3]
    adds nothing to the [Number.isFinite] default of
    monthlyInflRateFromAnnualPct, a missing field being NaN here.)  Its
    argument object names [withdrawPct] and [annualInflationPct] what the
    server copy names [withdrawValue] and
    [percentOfCurrentAnnualInflationPct]; the record [Params] serves both. *)
Module Client.

Definition buildMonthlyReturns (monthly : list MonthlyPricePoint) : list jsnum :=
  let r := repeat (Fin 0) (length monthly) in
  fillReturns (map close monthly) 1 (length monthly - 1) r.

Definition computeWithdrawal
    (mode : string) (initialBalance balanceAfterMarket withdrawRateDecimal : jsnum)
    (frequency : string) (isWithdrawalMonth : bool)
    (inflationBasePeriodWithdraw inflationFactor : jsnum)
    (guardrailsState : GuardrailsState) (guardrailsCfg : GuardrailsConfig)
    (ytdReturnAfterMarket : jsnum)
  : result (WithdrawalResult * GuardrailsState) :=
  if negb isWithdrawalMonth then
    Ok (mkWithdrawalResult (Fin 0) (currentRate guardrailsState), guardrailsState)
  else if (mode =? "percentOfInitial")%string then
    let annual := jmul initialBalance withdrawRateDecimal in
    Ok (mkWithdrawalResult
          (if (frequency =? "monthly")%string then jdiv annual (Fin 12) else annual)
          None, guardrailsState)
  else if (mode =? "percentOfCurrent")%string then
    Ok (mkWithdrawalResult (jmul inflationBasePeriodWithdraw inflationFactor) None,
        guardrailsState)
  else if (mode =? "guardrails")%string then
    let guardrailsState :=
      if isFinite ytdReturnAfterMarket then
        let guardrailsState :=
          if jgt ytdReturnAfterMarket (lit 8 100) then
            mkGuardrailsState
              (Some (clamp (jadd (num_of (currentRate guardrailsState))
                              (step guardrailsCfg))
                       (minRate guardrailsCfg) (maxRate guardrailsCfg)))
          else guardrailsState in
        if jlt ytdReturnAfterMarket (lit 3 100) then
          mkGuardrailsState
            (Some (clamp (jsub (num_of (currentRate guardrailsState))
                            (step guardrailsCfg))
                     (minRate guardrailsCfg) (maxRate guardrailsCfg)))
        else guardrailsState
      else guardrailsState in
    let annual := jmul balanceAfterMarket (num_of (currentRate guardrailsState)) in
    let w := if (frequency =? "monthly")%string then jdiv annual (Fin 12) else annual in
    let w := if jgt (minDollarFloor guardrailsCfg) (Fin 0)
             then math_max w (minDollarFloor guardrailsCfg) else w in
    Ok (mkWithdrawalResult w (currentRate guardrailsState), guardrailsState)
  else Throw UnknownWithdrawalMode.

(** the guardrails set-up of the client runRetirementMonthly *)
Definition initGuardrails (p : Params) (withdrawRateDecimal : jsnum)
  : result (GuardrailsState * GuardrailsConfig) :=
  if (withdrawMode p =? "guardrails")%string then
    let start := withdrawRateDecimal in
    let minR := jdiv (guardrailsMinPct p) (Fin 100) in
    let maxR := jdiv (guardrailsMaxPct p) (Fin 100) in
    _ <- throwIf (negb (isFinite minR) || negb (isFinite maxR) || jgt minR maxR)
                 GuardrailsMinMaxInvalid;;
    Ok (mkGuardrailsState (Some (clamp start minR maxR)),
        mkGuardrailsConfig minR maxR (lit 25 10000)
          (if isFinite (guardrailsMinDollar p)
           then math_max (Fin 0) (guardrailsMinDollar p) else Fin 0))
  else Ok (mkGuardrailsState None,
           mkGuardrailsConfig (Fin 0) (Fin 1) (lit 25 10000) (Fin 0)).

(** one iteration of the loop of the client runRetirementMonthly *)
Definition monthBody (p : Params) (k : Consts)
    (pt : MonthlyPricePoint) (r : jsnum) (st : Locals) : result Locals :=
  let monthStr := month pt in
  let y := year monthStr in
  let m := mon monthStr in
  let '(currentYear, yearStartBalance) :=
    if negb (y =? currentYear st)%Z then (y, balance st)
    else (currentYear st, yearStartBalance st) in
  let balance := jmul (balance st) (jadd (Fin 1) r) in
  let ytdReturnAfterMarket :=
    if jgt yearStartBalance (Fin 0)
    then jsub (jdiv balance yearStartBalance) (Fin 1) else Fin 0 in
  let isWithdrawalMonth :=
    if (withdrawFrequency p =? "monthly")%string then true else (m =? 1)%Z in
  '(res, guardrailsState) <-
    computeWithdrawal (withdrawMode p) (initialBalance p) balance
      (baseRateDecimal k) (withdrawFrequency p) isWithdrawalMonth
      (inflationBasePeriodWithdraw k) (inflationFactor st)
      (guardrailsState st) (guardrailsConfig k) ytdReturnAfterMarket;;
  let w := math_min balance (math_max (Fin 0) (withdrawal res)) in
  let balance := jsub balance w in
  let totalWithdrawn := jadd (totalWithdrawn st) w in
  let '(balance, success) :=
    if jle balance (Fin 0) then (Fin 0, false) else (balance, success st) in
  let highestBalance := math_max (highestBalance st) balance in
  let lowestBalance := math_min (lowestBalance st) balance in
  let peak := math_max (peak st) balance in
  let dd := if jgt peak (Fin 0) then jdiv (jsub peak balance) peak else Fin 0 in
  let maxDrawdown := math_max (maxDrawdown st) dd in
  let isInfl := (withdrawMode p =? "percentOfCurrent")%string in
  let series :=
    series st ++
    [Snapshot.mk monthStr balance w
       (match guardrailsRate res with
        | Some g => Some (jmul g (Fin 100))
        | None => None
        end)
       (if isInfl then Some (inflationFactor st) else None)] in
  let inflationFactor :=
    if isInfl then jmul (inflationFactor st) (jadd (Fin 1) (monthlyInfl k))
    else inflationFactor st in
  Ok (mkLocals balance success totalWithdrawn highestBalance lowestBalance
        peak maxDrawdown guardrailsState currentYear yearStartBalance
        inflationFactor series).

(** one iteration of the loop over the months of a start year of the
    client sweep *)
Definition sweepMonthBody (p : Params) (k : Consts)
    (pt : MonthlyPricePoint) (r : jsnum) (st : Sweep.Locals)
  : result Sweep.Locals :=
  let monthStr := month pt in
  let y := year monthStr in
  let mon := mon monthStr in
  let '(currentYear, yearStartBalance) :=
    if negb (y =? Sweep.currentYear st)%Z then (y, Sweep.balance st)
    else (Sweep.currentYear st, Sweep.yearStartBalance st) in
  let balance := jmul (Sweep.balance st) (jadd (Fin 1) r) in
  let ytdReturnAfterMarket :=
    if jgt yearStartBalance (Fin 0)
    then jsub (jdiv balance yearStartBalance) (Fin 1) else Fin 0 in
  let isWithdrawalMonth :=
    if (withdrawFrequency p =? "monthly")%string then true else (mon =? 1)%Z in
  '(res, guardrailsState) <-
    computeWithdrawal (withdrawMode p) (initialBalance p) balance
      (baseRateDecimal k) (withdrawFrequency p) isWithdrawalMonth
      (inflationBasePeriodWithdraw k) (Sweep.inflationFactor st)
      (Sweep.guardrailsState st) (guardrailsConfig k) ytdReturnAfterMarket;;
  let w := math_min balance (math_max (Fin 0) (withdrawal res)) in
  let balance := jsub balance w in
  if jle balance (Fin 0) then
    Ok (Sweep.mkLocals (Fin 0) false (Sweep.highest st) (Sweep.lowest st)
          currentYear yearStartBalance guardrailsState (Sweep.inflationFactor st))
  else
    let highest := math_max (Sweep.highest st) balance in
    let lowest := math_min (Sweep.lowest st) balance in
    let inflationFactor :=
      if (withdrawMode p =? "percentOfCurrent")%string
      then jmul (Sweep.inflationFactor st) (jadd (Fin 1) (monthlyInfl k))
      else Sweep.inflationFactor st in
    Ok (Sweep.mkLocals balance (Sweep.success st) highest lowest
          currentYear yearStartBalance guardrailsState inflationFactor).

Section Engine.

Variable root12 : Q -> Q.

Definition runRetirementMonthly (p : Params) : result SimulationResult.t :=
  let startIdx := findMonthIndex (monthly p) (startMonth p) in
  _ <- throwIf (startIdx <? 0)%Z StartMonthNotFound;;
  let endIdxExclusive := (startIdx + durationYears p * 12)%Z in
  _ <- throwIf (endIdxExclusive >? Z.of_nat (length (monthly p)))%Z NotEnoughData;;
  let returns := buildMonthlyReturns (monthly p) in
  let withdrawRateDecimal := jdiv (withdrawValue p) (Fin 100) in
  _ <- throwIf (negb (isFinite withdrawRateDecimal) || jle withdrawRateDecimal (Fin 0))
               WithdrawRateNotPositive;;
  '(guardrailsState, guardrailsCfg) <- initGuardrails p withdrawRateDecimal;;
  let k := consts root12 p guardrailsCfg in
  match nth_error (monthly p) (Z.to_nat startIdx) with
  | None => Throw TypeError
  | Some pt0 =>
      let st0 := initLocals p guardrailsState (year (month pt0)) in
      st <- monthLoop success (monthBody p k) (monthly p) returns
              (Z.to_nat startIdx) (Z.to_nat (endIdxExclusive - startIdx)) st0;;
      Ok (toResult st)
  end.

(** the simulation of one start year of the client sweep *)
Definition runStartYear (p : Params) (returns : list jsnum)
    (startIdx : nat) (pt : MonthlyPricePoint) : result Sweep.Locals :=
  let ms := month pt in
  let balance := initialBalance p in
  let '(guardrailsState, guardrailsCfg) := Sweep.initGuardrails p in
  let k := consts root12 p guardrailsCfg in
  monthLoop Sweep.success (sweepMonthBody p k) (monthly p) returns
    startIdx (Z.to_nat (durationYears p * 12))
    (Sweep.mkLocals balance true balance balance (year ms) balance
       guardrailsState (Fin 1)).

Fixpoint startLoop (p : Params) (returns : list jsnum)
    (startIdx count : nat) (acc : Sweep.Totals) : result Sweep.Totals :=
  match count with
  | O => Ok acc
  | S n =>
      match nth_error (monthly p) startIdx with
      | None => Throw TypeError
      | Some pt =>
          let ms := month pt in
          if negb (mon ms =? 1)%Z then startLoop p returns (S startIdx) n acc
          else
            let endIdxExclusive := (Z.of_nat startIdx + durationYears p * 12)%Z in
            if (endIdxExclusive >? Z.of_nat (length (monthly p)))%Z
            then Ok acc
            else
              st <- runStartYear p returns startIdx pt;;
              startLoop p returns (S startIdx) n
                (Sweep.mkTotals
                   (Sweep.results acc ++
                    [YearOutcome.mk (year ms) (Sweep.success st)
                       (initialBalance p) (Sweep.highest st) (Sweep.lowest st)
                       (Sweep.balance st)])
                   (Sweep.endingBalances acc ++ [Sweep.balance st])
                   (math_max (Sweep.highestBalanceHit acc) (Sweep.highest st))
                   (math_min (Sweep.lowestBalanceHit acc) (Sweep.lowest st)))
      end
  end.

Definition runRetirementSuccessByStartYear (p : Params) : result SweepResult.t :=
  let returns := buildMonthlyReturns (monthly p) in
  let withdrawRateDecimal := jdiv (withdrawValue p) (Fin 100) in
  _ <- throwIf (negb (isFinite withdrawRateDecimal) || jle withdrawRateDecimal (Fin 0))
               WithdrawRateNotPositive;;
  acc <- startLoop p returns 0 (length (monthly p))
           (Sweep.mkTotals [] [] NInf PInf);;
  Ok (Sweep.summarize acc).

End Engine.

End Client.

(* ================================================================== *)
(** * The engine on binary64 numbers *)
(* ================================================================== *)

(** The same functions of [simulations.js], with a JavaScript number as
    what it is, an IEEE-754 binary64 number with its rounding, overflow
    and underflow.  The arithmetic and the comparisons are the primitive
    ones; a number literal of the source is the literal here. *)
Module Binary64.

Import PrimFloat.
Local Set Warnings "-inexact-float".
Local Open Scope float_scope.

(** [Number.isFinite] *)
Definition isFinite (x : float) : bool := is_finite x.

(** [Math.max(x, y)]: NaN as soon as one argument is NaN; +0 is larger
    than -0 *)
Definition math_max (x y : float) : float :=
  if is_nan x || is_nan y then nan
  else if x <? y then y
  else if y <? x then x
  else if get_sign x then y else x.

(** [Math.min(x, y)] *)
Definition math_min (x y : float) : float :=
  if is_nan x || is_nan y then nan
  else if y <? x then y
  else if x <? y then x
  else if get_sign x then x else y.

(** the number a [null] is converted to in arithmetic *)
Definition num_of (o : option float) : float :=
  match o with Some x => x | None => 0 end.

(** function clamp(n, lo, hi) { return Math.max(lo, Math.min(hi, n)); } *)
Definition clamp (n lo hi : float) : float := math_max lo (math_min hi n).

Record MonthlyPricePoint : Type := mkPoint { month : Month; close : float }.

Definition findMonthIndex (monthly : list MonthlyPricePoint) (monthStr : Month) : Z :=
  let idx := findIndex (fun m => Month_eqb (month m) monthStr) monthly in
  if (idx >=? 0)%Z then idx
  else
    match monthToIndex monthStr with
    | None => (-1)%Z
    | Some want =>
        findIndex
          (fun m => match monthToIndex (month m) with
                    | Some have => (have =? want)%Z
                    | None => false
                    end) monthly
    end.

(** the body of the loop of buildReturns *)
Definition returnAt (prev cur : float) : float :=
  if isFinite prev && (0 <? prev) && isFinite cur
  then cur / prev - 1
  else 0.

(** [for (let i = start; i < start + count; i++) returns[i] = ...] *)
Fixpoint fillReturns (closes : list float) (i count : nat) (returns : list float)
  : list float :=
  match count with
  | O => returns
  | S k =>
      let prev := nth (i - 1) closes nan in
      let cur := nth i closes nan in
      fillReturns closes (S i) k (set_nth returns i (returnAt prev cur))
  end.

Definition buildReturns (monthly : list MonthlyPricePoint) : list float :=
  let closes := map close monthly in
  let returns := repeat 0 (length monthly) in
  fillReturns closes 1 (length monthly - 1) returns.

Record GuardrailsConfig : Type := mkGuardrailsConfig {
  minRate : float;
  maxRate : float;
  step : float;
  minDollarFloor : float
}.

Record GuardrailsState : Type := mkGuardrailsState {
  currentRate : option float
}.

Record WithdrawalResult : Type := mkWithdrawalResult {
  withdrawal : float;
  guardrailsRate : option float
}.

Module Snapshot.
Record t : Type := mk {
  month : Month;
  value : float;
  withdrawal : float;
  guardrailsRatePct : option float;
  inflationFactor : option float
}.
End Snapshot.

Module SimulationResult.
Record t : Type := mk {
  success : bool;
  totalWithdrawn : float;
  endingValue : float;
  maxDrawdown : float;
  highestBalance : float;
  lowestBalance : float;
  series : list Snapshot.t
}.
End SimulationResult.

Record Params : Type := mkParams {
  monthly : list MonthlyPricePoint;
  initialBalance : float;
  startMonth : Month;
  durationYears : Z;
  withdrawMode : string;
  withdrawValue : float;
  withdrawFrequency : string;
  guardrailsMinPct : float;
  guardrailsMaxPct : float;
  guardrailsMinDollar : float;
  percentOfCurrentAnnualInflationPct : float
}.

Record Locals : Type := mkLocals {
  balance : float;
  success : bool;
  totalWithdrawn : float;
  highestBalance : float;
  lowestBalance : float;
  peak : float;
  maxDrawdown : float;
  guardrailsState : GuardrailsState;
  currentYear : Z;
  yearStartBalance : float;
  inflationFactor : float;
  series : list Snapshot.t
}.

Record Consts : Type := mkConsts {
  guardrailsConfig : GuardrailsConfig;
  baseRateDecimal : float;
  monthlyInfl : float;
  inflationBasePeriodWithdraw : float
}.

Definition computeWithdrawal
    (mode : string) (ratePerYear initialBalance balance : float)
    (frequency : string)
    (guardrailsState : GuardrailsState) (guardrailsConfig : GuardrailsConfig)
    (ytdReturnAfterMarket : float) (isWithdrawalMonth : bool)
    (inflationBasePeriodWithdraw inflationFactor : float)
  : result (WithdrawalResult * GuardrailsState) :=
  if negb isWithdrawalMonth then
    Ok (mkWithdrawalResult 0 (currentRate guardrailsState), guardrailsState)
  else
  let freq := frequency in
  if (mode =? "percentOfInitial")%string then
    let annual := initialBalance * ratePerYear in
    let w := if (freq =? "monthly")%string then annual / 12 else annual in
    Ok (mkWithdrawalResult w None, guardrailsState)
  else if (mode =? "percentOfCurrent")%string then
    let w := inflationBasePeriodWithdraw * inflationFactor in
    Ok (mkWithdrawalResult w None, guardrailsState)
  else if (mode =? "guardrails")%string then
    let step := step guardrailsConfig in
    let minRate := minRate guardrailsConfig in
    let maxRate := maxRate guardrailsConfig in
    let cur := num_of (currentRate guardrailsState) in
    let guardrailsState :=
      if isFinite ytdReturnAfterMarket then
        if 0.08 <? ytdReturnAfterMarket then
          mkGuardrailsState (Some (clamp (cur + step) minRate maxRate))
        else if ytdReturnAfterMarket <? 0.03 then
          mkGuardrailsState (Some (clamp (cur - step) minRate maxRate))
        else guardrailsState
      else guardrailsState in
    let annual := balance * num_of (currentRate guardrailsState) in
    let w := if (freq =? "monthly")%string then annual / 12 else annual in
    let w := if 0 <? minDollarFloor guardrailsConfig
             then math_max w (minDollarFloor guardrailsConfig) else w in
    Ok (mkWithdrawalResult w (currentRate guardrailsState), guardrailsState)
  else Throw UnknownWithdrawalMode.

Definition initGuardrails (p : Params) : result (GuardrailsState * GuardrailsConfig) :=
  let guardrailsState := mkGuardrailsState None in
  let guardrailsConfig := mkGuardrailsConfig 0 1 0.0025 0 in
  if (withdrawMode p =? "guardrails")%string then
    let startRate := withdrawValue p / 100 in
    let minRate := guardrailsMinPct p / 100 in
    let maxRate := guardrailsMaxPct p / 100 in
    _ <- throwIf (negb (isFinite startRate) || (startRate <=? 0))
                 GuardrailsStartRate;;
    _ <- throwIf (negb (isFinite minRate) || (minRate <? 0))
                 GuardrailsMinRate;;
    _ <- throwIf (negb (isFinite maxRate) || (maxRate <=? 0))
                 GuardrailsMaxRate;;
    _ <- throwIf (maxRate <? minRate) GuardrailsMinAboveMax;;
    Ok (mkGuardrailsState (Some (clamp startRate minRate maxRate)),
        mkGuardrailsConfig minRate maxRate 0.0025
          (if isFinite (guardrailsMinDollar p)
           then math_max 0 (guardrailsMinDollar p) else 0))
  else Ok (guardrailsState, guardrailsConfig).

Definition monthBody (p : Params) (k : Consts)
    (pt : MonthlyPricePoint) (r : float) (st : Locals) : result Locals :=
  let monthStr := month pt in
  let y := year monthStr in
  let m := mon monthStr in
  let '(currentYear, yearStartBalance) :=
    if negb (y =? currentYear st)%Z then (y, balance st)
    else (currentYear st, yearStartBalance st) in
  let balance := balance st * (1 + r) in
  let ytdReturnAfterMarket :=
    if 0 <? yearStartBalance
    then balance / yearStartBalance - 1 else 0 in
  let isWithdrawalMonth :=
    if (withdrawFrequency p =? "monthly")%string then true else (m =? 1)%Z in
  let withdrawalRatePerYearDecimal := baseRateDecimal k in
  _ <- throwIf (negb (isFinite withdrawalRatePerYearDecimal)
                || (withdrawalRatePerYearDecimal <=? 0))
               WithdrawRateNotPositive;;
  '(res, guardrailsState) <-
    computeWithdrawal (withdrawMode p) withdrawalRatePerYearDecimal
      (initialBalance p) balance (withdrawFrequency p)
      (guardrailsState st) (guardrailsConfig k)
      ytdReturnAfterMarket isWithdrawalMonth
      (inflationBasePeriodWithdraw k) (inflationFactor st);;
  let w := math_min balance (math_max 0 (withdrawal res)) in
  let balance := balance - w in
  let totalWithdrawn := totalWithdrawn st + w in
  let '(balance, success) :=
    if balance <=? 0 then (0, false) else (balance, success st) in
  let highestBalance := math_max (highestBalance st) balance in
  let lowestBalance := math_min (lowestBalance st) balance in
  let peak := math_max (peak st) balance in
  let dd := if 0 <? peak then (peak - balance) / peak else 0 in
  let maxDrawdown := math_max (maxDrawdown st) dd in
  let isInfl := (withdrawMode p =? "percentOfCurrent")%string in
  let series :=
    (series st ++
     [Snapshot.mk monthStr balance w
        (match guardrailsRate res with
         | Some g => Some (g * 100)
         | None => None
         end)
        (if isInfl then Some (inflationFactor st) else None)])%list in
  let inflationFactor :=
    if isInfl then inflationFactor st * (1 + monthlyInfl k)
    else inflationFactor st in
  Ok (mkLocals balance success totalWithdrawn highestBalance lowestBalance
        peak maxDrawdown guardrailsState currentYear yearStartBalance
        inflationFactor series).

(** [for (let i = i0; i < i0 + count; i++) { body; if (!success) break; }] *)
Fixpoint monthLoop (body : MonthlyPricePoint -> float -> Locals -> result Locals)
    (monthly : list MonthlyPricePoint) (returns : list float)
    (i count : nat) (st : Locals) : result Locals :=
  match count with
  | O => Ok st
  | S n =>
      match nth_error monthly i with
      | None => Throw TypeError
      | Some pt =>
          st' <- body pt (nth i returns nan) st;;
          if success st' then monthLoop body monthly returns (S i) n st'
          else Ok st'
      end
  end.

Definition toResult (st : Locals) : SimulationResult.t :=
  SimulationResult.mk (success st) (totalWithdrawn st) (balance st)
    (maxDrawdown st) (highestBalance st) (lowestBalance st) (series st).

Section Engine.

(** [Math.pow(x, 1/12)], left uninterpreted *)
Variable root12 : float -> float.

Definition monthlyInflationRateFromAnnualPct (annualPct : float) : float :=
  let a := (if isFinite annualPct then annualPct else 3) / 100 in
  if a <? -0.99 then -0.99
  else root12 (1 + a) - 1.

Definition consts (p : Params) (gc : GuardrailsConfig) : Consts :=
  let baseRateDecimal := withdrawValue p / 100 in
  let annualInflPct :=
    if isFinite (percentOfCurrentAnnualInflationPct p)
    then percentOfCurrentAnnualInflationPct p else 3 in
  let monthlyInfl := monthlyInflationRateFromAnnualPct annualInflPct in
  let inflationBasePeriodWithdraw :=
    if (withdrawMode p =? "percentOfCurrent")%string then
      if (withdrawFrequency p =? "monthly")%string
      then (initialBalance p * baseRateDecimal) / 12
      else initialBalance p * baseRateDecimal
    else 0 in
  mkConsts gc baseRateDecimal monthlyInfl inflationBasePeriodWithdraw.

Definition initLocals (p : Params) (gs : GuardrailsState) (yr : Z) : Locals :=
  let balance := initialBalance p in
  mkLocals balance true 0 balance balance balance 0 gs yr balance 1 [].

Definition runRetirementMonthly (p : Params) : result SimulationResult.t :=
  let startIdx := findMonthIndex (monthly p) (startMonth p) in
  _ <- throwIf (startIdx <? 0)%Z StartMonthNotFound;;
  let endIdxExclusive := (startIdx + durationYears p * 12)%Z in
  _ <- throwIf (endIdxExclusive >? Z.of_nat (length (monthly p)) - 1)%Z
               NotEnoughData;;
  let returns := buildReturns (monthly p) in
  '(guardrailsState, guardrailsConfig) <- initGuardrails p;;
  match nth_error (monthly p) (Z.to_nat startIdx) with
  | None => Throw TypeError
  | Some pt0 =>
      let st0 := initLocals p guardrailsState (year (month pt0)) in
      let k := consts p guardrailsConfig in
      st <- monthLoop (monthBody p k) (monthly p) returns
              (Z.to_nat startIdx) (Z.to_nat (endIdxExclusive - startIdx)) st0;;
      Ok (toResult st)
  end.

End Engine.

End Binary64.

(* ================================================================== *)
(** * Properties *)
(* ================================================================== *)

(* ================================================================== *)
(** ** The return series *)
(* ================================================================== *)










(* ================================================================== *)
(** ** Facts about JavaScript numbers *)
(* ================================================================== *)

Lemma Qltb_lt (x y : Q) : Qltb x y = true <-> x < y.
Proof.
  unfold Qltb. rewrite negb_true_iff.
  split; intro H.
  - apply Qnot_le_lt. intro Hle. apply Qle_bool_iff in Hle. congruence.
  - destruct (Qle_bool y x) eqn:E; auto.
    apply Qle_bool_iff in E. apply Qlt_not_le in H. contradiction.
Qed.

Lemma Qltb_ge (x y : Q) : Qltb x y = false <-> y <= x.
Proof.
  unfold Qltb. rewrite negb_false_iff. apply Qle_bool_iff.
Qed.

Lemma Qle_bool_gt (x y : Q) : Qle_bool x y = false <-> y < x.
Proof.
  rewrite <- Qltb_lt. unfold Qltb. rewrite negb_true_iff. reflexivity.
Qed.

(** [x] is a finite number *)
Definition finite (x : jsnum) : Prop := isFinite x = true.

Lemma finite_inv (x : jsnum) : finite x -> exists q, x = Fin q.
Proof. destruct x; unfold finite; simpl; try discriminate; eauto. Qed.

Lemma finite_Fin (q : Q) : finite (Fin q).
Proof. reflexivity. Qed.

Lemma finite_lit (n : Z) (d : positive) : finite (lit n d).
Proof. reflexivity. Qed.

Lemma finite_jadd x y : finite x -> finite y -> finite (jadd x y).
Proof. destruct x, y; unfold finite; simpl; auto. Qed.

Lemma finite_jsub x y : finite x -> finite y -> finite (jsub x y).
Proof. destruct x, y; unfold finite; simpl; auto. Qed.

Lemma finite_jmul x y : finite x -> finite y -> finite (jmul x y).
Proof. destruct x, y; unfold finite; simpl; auto; discriminate. Qed.

Lemma finite_math_max x y : finite x -> finite y -> finite (math_max x y).
Proof.
  destruct x, y; unfold finite; simpl; auto; try discriminate.
  destruct (Qltb _ _); auto.
Qed.

Lemma finite_math_min x y : finite x -> finite y -> finite (math_min x y).
Proof.
  destruct x, y; unfold finite; simpl; auto; try discriminate.
  destruct (Qltb _ _); auto.
Qed.

Lemma finite_clamp n lo hi : finite n -> finite lo -> finite hi -> finite (clamp n lo hi).
Proof.
  intros. unfold clamp. apply finite_math_max; auto. apply finite_math_min; auto.
Qed.

(** division by a finite number that is not zero *)
Lemma jdiv_Fin (a b : Q) : ~ b == 0 -> jdiv (Fin a) (Fin b) = Fin (a / b).
Proof.
  intro H. unfold jdiv. destruct (Qeq_bool b 0) eqn:E; auto.
  apply Qeq_bool_iff in E. contradiction.
Qed.

Lemma finite_jdiv_pos x y : finite x -> finite y -> jgt y (Fin 0) = true -> finite (jdiv x y).
Proof.
  intros Hx Hy H.
  apply finite_inv in Hx as [a ->]. apply finite_inv in Hy as [b ->].
  apply Qltb_lt in H.
  rewrite jdiv_Fin; [reflexivity|]. intro E. rewrite E in H. revert H. apply Qlt_irrefl.
Qed.

Lemma math_max_Fin (a b : Q) :
  math_max (Fin a) (Fin b) = Fin (if Qltb a b then b else a).
Proof. simpl. destruct (Qltb a b); reflexivity. Qed.

Lemma math_min_Fin (a b : Q) :
  math_min (Fin a) (Fin b) = Fin (if Qltb b a then b else a).
Proof. simpl. destruct (Qltb b a); reflexivity. Qed.

Lemma clamp_Fin_spec (n lo hi : Q) :
  exists c, clamp (Fin n) (Fin lo) (Fin hi) = Fin c
    /\ lo <= c
    /\ (lo <= hi -> c <= hi)
    /\ (lo <= n -> c <= n)
    /\ (n <= hi -> n <= c)
    /\ (lo <= hi -> hi <= n -> hi <= c)
    /\ (lo <= hi -> n <= lo -> c <= lo).
Proof.
  unfold clamp. rewrite math_min_Fin, math_max_Fin.
  eexists; split; [reflexivity|].
  destruct (Qltb n hi) eqn:E1;
    [apply Qltb_lt in E1 | apply Qltb_ge in E1];
    (destruct (Qltb lo _) eqn:E2;
     [apply Qltb_lt in E2 | apply Qltb_ge in E2]);
    repeat split; intros; lra.
Qed.


(** The facts below hold of every number, the three special values
    included; none of them computes a sum, a product or a quotient of
    finite numbers. *)















(* ================================================================== *)
(** ** One month of runRetirementMonthly *)
(* ================================================================== *)

(** names for the intermediate values of one iteration *)
Definition afterMarket (b r : jsnum) : jsnum := jmul b (jadd (Fin 1) r).

Definition yearStartAt (pt : MonthlyPricePoint) (cy : Z) (b ysb : jsnum) : jsnum :=
  if negb (year (month pt) =? cy)%Z then b else ysb.

Definition yearAt (pt : MonthlyPricePoint) (cy : Z) : Z :=
  if negb (year (month pt) =? cy)%Z then year (month pt) else cy.

Definition ytdReturn (bal ysb : jsnum) : jsnum :=
  if jgt ysb (Fin 0) then jsub (jdiv bal ysb) (Fin 1) else Fin 0.

Definition isWithdrawalMonthOf (p : Params) (pt : MonthlyPricePoint) : bool :=
  if (withdrawFrequency p =? "monthly")%string then true else (mon (month pt) =? 1)%Z.

Definition takeOut (bal wd : jsnum) : jsnum := math_min bal (math_max (Fin 0) wd).

Definition drawdownOf (pk bal : jsnum) : jsnum :=
  if jgt pk (Fin 0) then jdiv (jsub pk bal) pk else Fin 0.

Definition pctOf (g : option jsnum) : option jsnum :=
  match g with Some x => Some (jmul x (Fin 100)) | None => None end.

Definition nextInflation (p : Params) (k : Consts) (f : jsnum) : jsnum :=
  if (withdrawMode p =? "percentOfCurrent")%string
  then jmul f (jadd (Fin 1) (monthlyInfl k)) else f.

Definition rateChecked (k : Consts) : Prop :=
  finite (baseRateDecimal k) /\ jle (baseRateDecimal k) (Fin 0) = false.

(** what a successful iteration did *)
Lemma monthBody_inv p k pt r st st' :
  monthBody p k pt r st = Ok st' ->
  let bam := afterMarket (balance st) r in
  let ysb := yearStartAt pt (currentYear st) (balance st) (yearStartBalance st) in
  rateChecked k /\
  exists res gs',
    computeWithdrawal (withdrawMode p) (baseRateDecimal k) (initialBalance p)
      bam (withdrawFrequency p) (guardrailsState st) (guardrailsConfig k)
      (ytdReturn bam ysb) (isWithdrawalMonthOf p pt)
      (inflationBasePeriodWithdraw k) (inflationFactor st) = Ok (res, gs') /\
    let w := takeOut bam (withdrawal res) in
    let b1 := jsub bam w in
    let ruin := jle b1 (Fin 0) in
    let b2 := if ruin then Fin 0 else b1 in
    let pk := math_max (peak st) b2 in
    st' = mkLocals b2 (if ruin then false else success st)
            (jadd (totalWithdrawn st) w)
            (math_max (highestBalance st) b2)
            (math_min (lowestBalance st) b2)
            pk (math_max (maxDrawdown st) (drawdownOf pk b2))
            gs' (yearAt pt (currentYear st)) ysb
            (nextInflation p k (inflationFactor st))
            (series st ++
             [Snapshot.mk (month pt) b2 w (pctOf (guardrailsRate res))
                (if (withdrawMode p =? "percentOfCurrent")%string
                 then Some (inflationFactor st) else None)]).
Proof.
  unfold monthBody, rateChecked, finite, yearStartAt, yearAt, ytdReturn,
    isWithdrawalMonthOf, afterMarket, takeOut, drawdownOf, pctOf, nextInflation.
  intros H.
  destruct (negb (year (month pt) =? currentYear st)%Z);
    cbv beta iota zeta in H |- *;
    (destruct (isFinite (baseRateDecimal k)); cbn [negb orb throwIf bind] in H;
       [|discriminate]);
    (destruct (jle (baseRateDecimal k) (Fin 0)); cbn [throwIf bind] in H;
       [discriminate|]);
    (split; [split; reflexivity|]);
    (match type of H with
     | context [computeWithdrawal ?a ?b ?c ?d ?e ?f ?g ?h ?i ?j ?l] =>
         destruct (computeWithdrawal a b c d e f g h i j l) as [[res gs']|e0] eqn:Hcw
     end; cbn [bind] in H; [|discriminate]);
    exists res, gs'; (split; [reflexivity|]);
    (match type of H with
     | context [jle ?x (Fin 0)] => destruct (jle x (Fin 0)) eqn:Hruin
     end);
    injection H as <-; reflexivity.
Qed.

(** the loop keeps what each iteration started in a live state keeps *)
Lemma monthLoop_invariant {St : Type} (alive : St -> bool)
    (body : MonthlyPricePoint -> jsnum -> St -> result St)
    (monthly : list MonthlyPricePoint) (returns : list jsnum)
    (I : nat -> St -> Prop) :
  (forall i pt st st',
      nth_error monthly i = Some pt -> alive st = true ->
      I i st -> body pt (nth i returns NaN) st = Ok st' -> I (S i) st') ->
  forall count i st st',
    alive st = true -> I i st ->
    monthLoop alive body monthly returns i count st = Ok st' ->
    exists j, (i <= j <= i + count)%nat /\ I j st'
              /\ (alive st' = true -> j = (i + count)%nat).
Proof.
  intros Hstep. induction count as [|n IH]; intros i st st' Ha HI H; simpl in H.
  - injection H as <-. exists i. split; [lia|]. split; [exact HI|]. intros _; lia.
  - destruct (nth_error monthly i) as [pt|] eqn:Hpt; [|discriminate].
    destruct (body pt (nth i returns NaN) st) as [st1|e] eqn:Hb; [|discriminate].
    cbn [bind] in H.
    pose proof (Hstep _ _ _ _ Hpt Ha HI Hb) as HI1.
    destruct (alive st1) eqn:Hal.
    + destruct (IH _ _ _ Hal HI1 H) as (j & Hj & HIj & Hend).
      exists j. split; [lia|]. split; [exact HIj|].
      intro Ha'. specialize (Hend Ha'). lia.
    + injection H as <-. exists (S i). split; [lia|]. split; [exact HI1|].
      congruence.
Qed.






(* ================================================================== *)
(** ** Finite guardrails parameters *)
(* ================================================================== *)

Record FiniteConfig (gc : GuardrailsConfig) : Prop := mkFiniteConfig {
  fin_minRate : finite (minRate gc);
  fin_maxRate : finite (maxRate gc);
  fin_step : finite (step gc);
  fin_minDollarFloor : finite (minDollarFloor gc)
}.

Definition FiniteRate (gs : GuardrailsState) : Prop :=
  match currentRate gs with Some r => finite r | None => True end.

Create HintDb fin.

#[local] Hint Resolve finite_Fin finite_lit finite_jadd finite_jsub finite_jmul
  finite_math_max finite_math_min finite_clamp finite_jdiv_pos : fin.

Lemma finite_num_of (gs : GuardrailsState) :
  FiniteRate gs -> finite (num_of (currentRate gs)).
Proof.
  unfold FiniteRate. destruct (currentRate gs); simpl; auto with fin.
Qed.

#[local] Hint Resolve finite_num_of : fin.

Section Properties.

Variable root12 : Q -> Q.

(** what a returning run went through *)
Lemma runRetirementMonthly_inv p res :
  runRetirementMonthly root12 p = Ok res ->
  exists (startIdx : nat) gs gc pt0 st,
    findMonthIndex (monthly p) (startMonth p) = Z.of_nat startIdx
    /\ (Z.of_nat startIdx + durationYears p * 12
        <= Z.of_nat (length (monthly p)) - 1)%Z
    /\ initGuardrails p = Ok (gs, gc)
    /\ nth_error (monthly p) startIdx = Some pt0
    /\ monthLoop success (monthBody p (consts root12 p gc)) (monthly p)
         (buildReturns (monthly p)) startIdx (Z.to_nat (durationYears p * 12))
         (initLocals p gs (year (month pt0))) = Ok st
    /\ res = toResult st.
Proof.
  unfold runRetirementMonthly. cbv zeta. unfold throwIf.
  set (sIdx := findMonthIndex (monthly p) (startMonth p)).
  destruct (sIdx <? 0)%Z eqn:Hneg; [discriminate|]. cbn [bind].
  destruct (_ >? _)%Z eqn:Hend; [discriminate|]. cbn [bind].
  destruct (initGuardrails p) as [[gs gc]|e] eqn:Hig; [|discriminate]. cbn [bind].
  destruct (nth_error (monthly p) (Z.to_nat sIdx)) as [pt0|] eqn:Hpt; [|discriminate].
  replace (sIdx + durationYears p * 12 - sIdx)%Z with (durationYears p * 12)%Z by lia.
  destruct (monthLoop _ _ _ _ _ _ _) as [st|e] eqn:Hloop; [|discriminate]. cbn [bind].
  intros H; injection H as <-.
  exists (Z.to_nat sIdx), gs, gc, pt0, st.
  apply Z.ltb_ge in Hneg.
  rewrite Z2Nat.id by exact Hneg.
  repeat split; auto.
  rewrite Z.gtb_ltb in Hend. apply Z.ltb_ge in Hend. lia.
Qed.

End Properties.

(* ================================================================== *)
(** ** Ruin ends the series *)
(* ================================================================== *)








Section Ruin.

Variable root12 : Q -> Q.


End Ruin.

(* ================================================================== *)
(** ** Withdrawals *)
(* ================================================================== *)





Lemma last_nonempty_default {A : Type} (l : list A) (x d d' : A) :
  last (x :: l) d = last (x :: l) d'.
Proof.
  revert x; induction l as [|y t IH]; intro x; [reflexivity|].
  change (last (y :: t) d = last (y :: t) d'). apply IH.
Qed.













Section Withdrawals.

Variable root12 : Q -> Q.


End Withdrawals.

(* ================================================================== *)
(** ** Inflation-adjusted spending *)
(* ================================================================== *)





Section Inflation.

Variable root12 : Q -> Q.
Hypothesis root12_ge_1 : forall x, 1 <= x -> 1 <= root12 x.









End Inflation.

(* ================================================================== *)
(** ** Guardrails *)
(* ================================================================== *)


Lemma last_cons {A : Type} (l : list A) (d x : A) : last (d :: l) x = last l d.
Proof.
  revert d; induction l as [|a t IH]; intro d; [reflexivity|].
  change (last (a :: t) x = last (a :: t) d). apply last_nonempty_default.
Qed.



(** use every implication whose premise linear arithmetic proves *)
Ltac use_facts :=
  repeat match goal with
         | H : ?a -> ?b |- _ =>
             let X := fresh in
             assert (X : a) by lra; specialize (H X); clear X
         end;
  repeat split; lra.


Lemma initGuardrails_guardrails p gs gc :
  withdrawMode p = "guardrails"%string ->
  initGuardrails p = Ok (gs, gc) ->
  exists qs mn mx floor,
    jdiv (withdrawValue p) (Fin 100) = Fin qs
    /\ jdiv (guardrailsMinPct p) (Fin 100) = Fin mn
    /\ jdiv (guardrailsMaxPct p) (Fin 100) = Fin mx
    /\ mn <= mx
    /\ gs = mkGuardrailsState (Some (clamp (Fin qs) (Fin mn) (Fin mx)))
    /\ gc = mkGuardrailsConfig (Fin mn) (Fin mx) (lit 25 10000) floor.
Proof.
  intros Hmode. unfold initGuardrails. rewrite Hmode.
  change (("guardrails" =? "guardrails")%string) with true. cbv iota zeta.
  unfold throwIf.
  destruct (jdiv (withdrawValue p) (Fin 100)) as [qs| | |]; cbn [isFinite negb orb];
    try discriminate.
  destruct (jle (Fin qs) (Fin 0)); [discriminate|]. cbn [bind].
  destruct (jdiv (guardrailsMinPct p) (Fin 100)) as [mn| | |]; cbn [isFinite negb orb];
    try discriminate.
  destruct (jlt (Fin mn) (Fin 0)); [discriminate|]. cbn [bind].
  destruct (jdiv (guardrailsMaxPct p) (Fin 100)) as [mx| | |]; cbn [isFinite negb orb];
    try discriminate.
  destruct (jle (Fin mx) (Fin 0)); [discriminate|]. cbn [bind].
  destruct (jgt (Fin mn) (Fin mx)) eqn:E; [discriminate|]. cbn [bind].
  intros H; injection H as <- <-.
  exists qs, mn, mx. eexists. repeat split; try reflexivity.
  cbn in E. apply Qltb_ge in E. exact E.
Qed.




Section Guardrails.

Variable root12 : Q -> Q.



End Guardrails.

(* ================================================================== *)
(** ** Concrete runs *)
(* ================================================================== *)

Module Examples.

(** a stand-in for the twelfth root: its tangent at 1, exact at 1 *)
Definition root12_tangent (q : Q) : Q := 1 + (q - 1) / 12.

Lemma root12_tangent_ge_1 (x : Q) : 1 <= x -> 1 <= root12_tangent x.
Proof.
  intro H. unfold root12_tangent.
  assert (0 <= (x - 1) / 12) by (apply Qle_shift_div_l; [reflexivity | lra]).
  lra.
Qed.

(** [n] consecutive months from month [m] of year [y], all closing at [c] *)
Fixpoint monthsFrom (y m : Z) (n : nat) (c : jsnum) : list MonthlyPricePoint :=
  match n with
  | O => []
  | S k =>
      mkPoint (mkMonth y m) c
      :: (if (m =? 12)%Z then monthsFrom (y + 1) 1 k c else monthsFrom y (m + 1) k c)
  end.

Definition resultOf {A : Type} (r : result A) (d : A) : A :=
  match r with Ok a => a | Throw _ => d end.

Definition noResult : SimulationResult.t :=
  SimulationResult.mk false NaN NaN NaN NaN NaN [].

(** 26 flat months; 100 to start with, 84% a year of it paid monthly under
    the inflation-adjusted policy with no inflation: 7 a month, ruin in the
    fifteenth month *)
Definition ruinParams : Params :=
  mkParams (monthsFrom 2000 1 26 (lit 100 1)) (lit 100 1) (mkMonth 2000 1) 2
    "percentOfCurrent" (lit 84 1) "monthly" NaN NaN NaN (lit 0 1).







End Examples.








(* ================================================================== *)
(** ** Months without a withdrawal *)
(* ================================================================== *)

(** a property of every entry of a series and of what the entry before
    it recorded ([prev] before the first) *)
Fixpoint Threaded {A : Type} (f : Snapshot.t -> A) (P : A -> Snapshot.t -> Prop)
    (prev : A) (ser : list Snapshot.t) : Prop :=
  match ser with
  | [] => True
  | e :: rest => P prev e /\ Threaded f P (f e) rest
  end.

Lemma Threaded_snoc {A : Type} (f : Snapshot.t -> A) P ser : forall prev e,
  Threaded f P prev ser ->
  P (last (map f ser) prev) e ->
  Threaded f P prev (ser ++ [e]).
Proof.
  induction ser as [|a t IH]; intros prev e H He.
  - split; [exact He | exact I].
  - destruct H as [Ha Ht]. split; [exact Ha|].
    apply IH; [exact Ht|].
    cbn [map] in He. rewrite last_cons in He. exact He.
Qed.

(** outside January the recorded rate is the one recorded before *)
Definition rateKeptOutsideJanuary (prev : option jsnum) (e : Snapshot.t) : Prop :=
  mon (Snapshot.month e) <> 1%Z -> Snapshot.guardrailsRatePct e = prev.

(** the months [monthly[s]], ..., [monthly[i-1]] *)
Definition monthsBetween (monthly : list MonthlyPricePoint) (s i : nat) : list Month :=
  map month (firstn (i - s) (skipn s monthly)).

Lemma firstn_succ_nth_error {A : Type} (l : list A) : forall n x,
  nth_error l n = Some x -> firstn (S n) l = firstn n l ++ [x].
Proof.
  induction l as [|a t IH]; intros [|n] x H; simpl in *; try discriminate.
  - injection H as ->. reflexivity.
  - f_equal. apply IH. exact H.
Qed.

Lemma monthsBetween_succ monthly s i pt :
  (s <= i)%nat -> nth_error monthly i = Some pt ->
  monthsBetween monthly s (S i) = monthsBetween monthly s i ++ [month pt].
Proof.
  intros Hsi Hpt. unfold monthsBetween.
  replace (S i - s)%nat with (S (i - s)) by lia.
  rewrite (firstn_succ_nth_error _ (i - s) pt).
  - rewrite map_app. reflexivity.
  - rewrite nth_error_skipn. replace (s + (i - s))%nat with i by lia. exact Hpt.
Qed.

Lemma monthsBetween_NoDup monthly s i :
  NoDup (map month monthly) -> NoDup (monthsBetween monthly s i).
Proof.
  intro H. unfold monthsBetween.
  rewrite <- firstn_map, <- skipn_map.
  rewrite <- (firstn_skipn s (map month monthly)) in H.
  apply NoDup_app_remove_l in H.
  rewrite <- (firstn_skipn (i - s) (skipn s (map month monthly))) in H.
  apply NoDup_app_remove_r in H. exact H.
Qed.

(** when it is not a withdrawal month, computeWithdrawal returns 0 and
    the guardrails state it was given *)
Lemma computeWithdrawal_no_withdrawal mode rate init bal freq gs gc ytd base f :
  computeWithdrawal mode rate init bal freq gs gc ytd false base f
  = Ok (mkWithdrawalResult (Fin 0) (currentRate gs), gs).
Proof. reflexivity. Qed.

(** under the guardrails policy the rate reported is the rate of the
    state returned *)
Lemma computeWithdrawal_guardrails_reports
    rate init bal freq gs gc ytd iwm base f res gs' :
  computeWithdrawal "guardrails" rate init bal freq gs gc ytd iwm base f
    = Ok (res, gs') ->
  guardrailsRate res = currentRate gs'.
Proof.
  unfold computeWithdrawal. destruct iwm; cbn [negb].
  - change (("guardrails" =? "percentOfInitial")%string) with false.
    change (("guardrails" =? "percentOfCurrent")%string) with false.
    change (("guardrails" =? "guardrails")%string) with true.
    cbv iota zeta. intros H; injection H as <- <-. reflexivity.
  - intros H; injection H as <- <-. reflexivity.
Qed.

(** the invariant of the loop behind C10 *)
Definition AnnualInv (p : Params) (pct0 : option jsnum) (startIdx i : nat)
    (st : Locals) : Prop :=
  (startIdx <= i)%nat
  /\ Threaded Snapshot.guardrailsRatePct rateKeptOutsideJanuary pct0 (series st)
  /\ pctOf (currentRate (guardrailsState st))
     = last (map Snapshot.guardrailsRatePct (series st)) pct0
  /\ map Snapshot.month (series st) = monthsBetween (monthly p) startIdx i.

Lemma monthBody_AnnualInv p k pct0 startIdx i pt r st st' :
  withdrawMode p = "guardrails"%string ->
  (withdrawFrequency p =? "monthly")%string = false ->
  nth_error (monthly p) i = Some pt ->
  AnnualInv p pct0 startIdx i st ->
  monthBody p k pt r st = Ok st' ->
  AnnualInv p pct0 startIdx (S i) st'.
Proof.
  intros Hmode Hfreq Hpt (Hsi & Hthr & Hcur & Hmonths) Hb.
  apply monthBody_inv in Hb. cbv zeta in Hb.
  destruct Hb as (_ & res & gs' & Hcw & ->).
  unfold isWithdrawalMonthOf in Hcw. rewrite Hfreq, Hmode in Hcw.
  pose proof (computeWithdrawal_guardrails_reports _ _ _ _ _ _ _ _ _ _ _ _ Hcw)
    as Hrep.
  unfold AnnualInv. cbn [series guardrailsState].
  rewrite !map_app. cbn [map Snapshot.guardrailsRatePct Snapshot.month].
  rewrite last_last, Hrep, Hmonths.
  repeat split.
  - lia.
  - apply Threaded_snoc; [exact Hthr|].
    unfold rateKeptOutsideJanuary. cbn [Snapshot.month Snapshot.guardrailsRatePct].
    intro Hmon. apply Z.eqb_neq in Hmon. rewrite Hmon in Hcw.
    rewrite computeWithdrawal_no_withdrawal in Hcw. injection Hcw as <- <-.
    rewrite <- Hcur. reflexivity.
  - symmetry. apply monthsBetween_succ; assumption.
Qed.

Section NoWithdrawalMonth.

Variable root12 : Q -> Q.

(** outside January the rate is kept, for the loop of either copy *)
Lemma retirementLoop_rate_kept p gs gc yr startIdx count st :
  withdrawMode p = "guardrails"%string ->
  (withdrawFrequency p =? "monthly")%string = false ->
  monthLoop success (monthBody p (consts root12 p gc)) (monthly p)
    (buildReturns (monthly p)) startIdx count (initLocals p gs yr) = Ok st ->
  Threaded Snapshot.guardrailsRatePct rateKeptOutsideJanuary
    (pctOf (currentRate gs)) (series st)
  /\ (NoDup (map month (monthly p)) ->
      forall i j ei ej,
        nth_error (series st) i = Some ei ->
        nth_error (series st) j = Some ej ->
        mon (Snapshot.month ei) = 1%Z -> mon (Snapshot.month ej) = 1%Z ->
        year (Snapshot.month ei) = year (Snapshot.month ej) ->
        i = j).
Proof.
  intros Hmode Hfreq Hloop.
  destruct (monthLoop_invariant success
              (monthBody p (consts root12 p gc))
              (monthly p) (buildReturns (monthly p))
              (AnnualInv p (pctOf (currentRate gs)) startIdx)) with (4 := Hloop)
    as (j & _ & (_ & Hthr & _ & Hmonths) & _).
  - intros i pt s s' Hpt _ HI Hb. eapply monthBody_AnnualInv; eauto.
  - reflexivity.
  - unfold AnnualInv, initLocals, monthsBetween.
    cbn [series guardrailsState map last Threaded].
    rewrite Nat.sub_diag. repeat split; auto.
  - split; [exact Hthr|].
    intros Hnd i0 j0 ei ej Hi Hj Hmi Hmj Hy.
    pose proof (monthsBetween_NoDup (monthly p) startIdx j Hnd) as Hnd'.
    rewrite <- Hmonths in Hnd'.
    rewrite NoDup_nth_error in Hnd'. apply Hnd'.
    + rewrite length_map. apply nth_error_Some. congruence.
    + rewrite !nth_error_map, Hi, Hj. cbn [option_map]. f_equal.
      destruct (Snapshot.month ei), (Snapshot.month ej). cbn in *. congruence.
Qed.

(** C10.  When it is not a withdrawal month, computeWithdrawal returns a
    withdrawal of 0 and leaves the guardrails state as it was, reporting
    its rate.  So in a guardrails run whose withdrawals are not monthly,
    the rate recorded for a month other than January is the rate recorded
    for the month before (the starting rate, for the first month); and
    when the months of the price series are distinct, no two entries of the
    series are the January of one year: the rate changes at most once in
    a calendar year. *)
Theorem no_withdrawal_month_keeps_rate :
  (forall mode rate init bal freq gs gc ytd base f,
     computeWithdrawal mode rate init bal freq gs gc ytd false base f
     = Ok (mkWithdrawalResult (Fin 0) (currentRate gs), gs))
  /\ (forall (p : Params) (res : SimulationResult.t),
        withdrawMode p = "guardrails"%string ->
        (withdrawFrequency p =? "monthly")%string = false ->
        runRetirementMonthly root12 p = Ok res ->
        Threaded Snapshot.guardrailsRatePct rateKeptOutsideJanuary
          (Some (jmul (clamp (jdiv (withdrawValue p) (Fin 100))
                         (jdiv (guardrailsMinPct p) (Fin 100))
                         (jdiv (guardrailsMaxPct p) (Fin 100))) (Fin 100)))
          (SimulationResult.series res)
        /\ (NoDup (map month (monthly p)) ->
            forall i j ei ej,
              nth_error (SimulationResult.series res) i = Some ei ->
              nth_error (SimulationResult.series res) j = Some ej ->
              mon (Snapshot.month ei) = 1%Z -> mon (Snapshot.month ej) = 1%Z ->
              year (Snapshot.month ei) = year (Snapshot.month ej) ->
              i = j)).
Proof.
  split; [intros; apply computeWithdrawal_no_withdrawal|].
  intros p res Hmode Hfreq Hrun.
  apply runRetirementMonthly_inv in Hrun
    as (startIdx & gs & gc & pt0 & st & _ & _ & Hig & _ & Hloop & ->).
  destruct (initGuardrails_guardrails p gs gc Hmode Hig)
    as (qs & mn & mx & floor & Hqs & Hmn & Hmx & _ & -> & ->).
  rewrite Hqs, Hmn, Hmx.
  exact (retirementLoop_rate_kept p _ _ _ _ _ st Hmode Hfreq Hloop).
Qed.

End NoWithdrawalMonth.

(* ================================================================== *)
(** ** The sweep *)
(* ================================================================== *)


Lemma insertSorted_finite x l :
  finite x -> Forall finite l -> Forall finite (insertSorted x l).
Proof.
  intros Hx Hl. induction Hl as [|y t Hy Ht IH]; cbn [insertSorted].
  - constructor; [exact Hx | constructor].
  - destruct (jlt (jsub y x) (Fin 0)); constructor; auto.
Qed.

Lemma insertSorted_length x l : length (insertSorted x l) = S (length l).
Proof.
  induction l as [|y t IH]; cbn [insertSorted]; [reflexivity|].
  destruct (jlt (jsub y x) (Fin 0)); cbn [length]; [rewrite IH|]; reflexivity.
Qed.

Lemma sortNumbers_finite l : Forall finite l -> Forall finite (sortNumbers l).
Proof.
  intro H. induction H as [|x t Hx Ht IH]; cbn [sortNumbers fold_right].
  - constructor.
  - apply insertSorted_finite; assumption.
Qed.

Lemma sortNumbers_length l : length (sortNumbers l) = length l.
Proof.
  induction l as [|x t IH]; cbn [sortNumbers fold_right]; [reflexivity|].
  rewrite insertSorted_length. unfold sortNumbers in IH. rewrite IH. reflexivity.
Qed.

Lemma finite_nth (l : list jsnum) (i : nat) :
  Forall finite l -> (i < length l)%nat -> finite (nth i l NaN).
Proof.
  intros H Hi. rewrite Forall_forall in H. apply H. apply nth_In. exact Hi.
Qed.



(** the totals once the outcome [st] of the start month [pt] is recorded *)
Definition recorded (p : Params) (pt : MonthlyPricePoint) (st : Sweep.Locals)
    (acc : Sweep.Totals) : Sweep.Totals :=
  Sweep.mkTotals
    (Sweep.results acc ++
     [YearOutcome.mk (year (month pt)) (Sweep.success st)
        (initialBalance p) (Sweep.highest st) (Sweep.lowest st)
        (Sweep.balance st)])
    (Sweep.endingBalances acc ++ [Sweep.balance st])
    (math_max (Sweep.highestBalanceHit acc) (Sweep.highest st))
    (math_min (Sweep.lowestBalanceHit acc) (Sweep.lowest st)).









Section SweepYears.

Variable root12 : Q -> Q.






End SweepYears.

Section SweepProperties.

Variable root12 : Q -> Q.






End SweepProperties.

(* ================================================================== *)
(** ** When a run fails *)
(* ================================================================== *)

Lemma findIndexFrom_bound {A : Type} (f : A -> bool) (l : list A) : forall i,
  findIndexFrom f l i = (-1)%Z
  \/ (i <= findIndexFrom f l i < i + Z.of_nat (length l))%Z.
Proof.
  induction l as [|x t IH]; intro i; cbn [findIndexFrom length]; [left; reflexivity|].
  destruct (f x); [right; lia|].
  destruct (IH (i + 1)%Z) as [H|H]; [left; exact H | right; lia].
Qed.

Lemma findMonthIndex_bound monthly m :
  (findMonthIndex monthly m < Z.of_nat (length monthly))%Z.
Proof.
  unfold findMonthIndex, findIndex. cbv zeta.
  match goal with
  | |- context [findIndexFrom ?f monthly 0%Z] =>
      destruct (findIndexFrom_bound f monthly 0%Z) as [H|H]; rewrite ?H
  end.
  - cbn [Z.geb Z.compare].
    destruct (monthToIndex m); [|lia].
    match goal with
    | |- context [findIndexFrom ?f monthly 0%Z] =>
        destruct (findIndexFrom_bound f monthly 0%Z) as [H'|H']
    end; lia.
  - destruct (_ >=? 0)%Z; [lia|].
    destruct (monthToIndex m); [|lia].
    match goal with
    | |- context [findIndexFrom ?f monthly 0%Z] =>
        destruct (findIndexFrom_bound f monthly 0%Z) as [H'|H']
    end; lia.
Qed.

(** the three policy tags *)
Definition knownMode (mode : string) : bool :=
  (mode =? "percentOfInitial")%string
  || (mode =? "percentOfCurrent")%string
  || (mode =? "guardrails")%string.

(** the test of the withdraw rate: not a finite number, or not positive *)
Definition rateRejected (rate : jsnum) : bool :=
  negb (isFinite rate) || jle rate (Fin 0).

(** the four tests of the guardrails set-up of runRetirementMonthly *)
Definition guardrailsRejected (p : Params) : bool :=
  let startRate := jdiv (withdrawValue p) (Fin 100) in
  let minRate := jdiv (guardrailsMinPct p) (Fin 100) in
  let maxRate := jdiv (guardrailsMaxPct p) (Fin 100) in
  rateRejected startRate
  || (negb (isFinite minRate) || jlt minRate (Fin 0))
  || (negb (isFinite maxRate) || jle maxRate (Fin 0))
  || jgt minRate maxRate.

Lemma computeWithdrawal_total mode rate init bal freq gs gc ytd iwm base f :
  knownMode mode = true ->
  exists res gs',
    computeWithdrawal mode rate init bal freq gs gc ytd iwm base f = Ok (res, gs').
Proof.
  unfold knownMode, computeWithdrawal. intro H.
  destruct iwm; cbn [negb]; [|eauto].
  destruct (mode =? "percentOfInitial")%string; [eauto|].
  destruct (mode =? "percentOfCurrent")%string; [eauto|].
  destruct (mode =? "guardrails")%string; [eauto|discriminate].
Qed.




Lemma monthBody_total p k pt r st :
  rateRejected (baseRateDecimal k) = false ->
  knownMode (withdrawMode p) = true ->
  exists st', monthBody p k pt r st = Ok st'.
Proof.
  unfold rateRejected, monthBody. intros Hr Hm.
  destruct (negb (year (month pt) =? currentYear st)%Z);
    cbv beta iota zeta; rewrite Hr; cbn [throwIf bind];
    (match goal with
     | |- context [computeWithdrawal ?a ?b ?c ?d ?e ?f ?g ?h ?i ?j ?l] =>
         destruct (computeWithdrawal_total a b c d e f g h i j l Hm)
           as (res & gs' & ->)
     end); cbn [bind];
    (match goal with
     | |- context [jle ?x (Fin 0)] => destruct (jle x (Fin 0))
     end); eauto.
Qed.


(** a loop whose body never throws, over months that are all there,
    returns *)
Lemma monthLoop_total {St : Type} (alive : St -> bool)
    (body : MonthlyPricePoint -> jsnum -> St -> result St)
    (monthly : list MonthlyPricePoint) (returns : list jsnum) :
  (forall pt r st, exists st', body pt r st = Ok st') ->
  forall count i st,
    (i + count <= length monthly)%nat ->
    exists st', monthLoop alive body monthly returns i count st = Ok st'.
Proof.
  intros Hbody. induction count as [|n IH]; intros i st Hlen; cbn [monthLoop].
  - eauto.
  - destruct (nth_error monthly i) as [pt|] eqn:Hpt.
    2:{ apply nth_error_None in Hpt. lia. }
    destruct (Hbody pt (nth i returns NaN) st) as [st1 ->]. cbn [bind].
    destruct (alive st1); [apply IH; lia | eauto].
Qed.


Lemma initGuardrails_other_mode p :
  (withdrawMode p =? "guardrails")%string = false ->
  initGuardrails p
  = Ok (mkGuardrailsState None,
        mkGuardrailsConfig (Fin 0) (Fin 1) (lit 25 10000) (Fin 0)).
Proof. unfold initGuardrails. intros ->. reflexivity. Qed.


Lemma initGuardrails_accepts p :
  (withdrawMode p =? "guardrails")%string = true ->
  guardrailsRejected p = false ->
  exists gs gc, initGuardrails p = Ok (gs, gc).
Proof.
  unfold initGuardrails, guardrailsRejected, rateRejected, throwIf.
  intros -> H. cbv zeta in H |- *.
  destruct (negb (isFinite (jdiv (withdrawValue p) (Fin 100)))
            || jle (jdiv (withdrawValue p) (Fin 100)) (Fin 0)) eqn:E1;
    [discriminate|].
  destruct (negb (isFinite (jdiv (guardrailsMinPct p) (Fin 100)))
            || jlt (jdiv (guardrailsMinPct p) (Fin 100)) (Fin 0)) eqn:E2;
    [discriminate|].
  destruct (negb (isFinite (jdiv (guardrailsMaxPct p) (Fin 100)))
            || jle (jdiv (guardrailsMaxPct p) (Fin 100)) (Fin 0)) eqn:E3;
    [discriminate|].
  rewrite ?E1, ?E2, ?E3 in H. cbn [orb] in H. rewrite H. cbn [bind]. eauto.
Qed.

(** a configuration runRetirementMonthly accepts: a known policy, a
    positive finite rate and, under guardrails, bounds that pass its tests *)
Definition validConfig (p : Params) : Prop :=
  knownMode (withdrawMode p) = true
  /\ rateRejected (jdiv (withdrawValue p) (Fin 100)) = false
  /\ ((withdrawMode p =? "guardrails")%string = true -> guardrailsRejected p = false).

Section Failures.

Variable root12 : Q -> Q.

(** the run once the two tests of the data have passed *)
Lemma runRetirementMonthly_data_ok p :
  (0 <= findMonthIndex (monthly p) (startMonth p))%Z ->
  (findMonthIndex (monthly p) (startMonth p) + durationYears p * 12
   <= Z.of_nat (length (monthly p)) - 1)%Z ->
  exists pt0,
    nth_error (monthly p) (Z.to_nat (findMonthIndex (monthly p) (startMonth p)))
    = Some pt0
    /\ runRetirementMonthly root12 p =
       ('(gs, gc) <- initGuardrails p;;
        st <- monthLoop success (monthBody p (consts root12 p gc)) (monthly p)
                (buildReturns (monthly p))
                (Z.to_nat (findMonthIndex (monthly p) (startMonth p)))
                (Z.to_nat (durationYears p * 12))
                (initLocals p gs (year (month pt0)));;
        Ok (toResult st)).
Proof.
  intros H0 Hend. unfold runRetirementMonthly. cbv zeta.
  set (sIdx := findMonthIndex (monthly p) (startMonth p)) in *.
  pose proof (findMonthIndex_bound (monthly p) (startMonth p)) as Hb.
  fold sIdx in Hb.
  destruct (nth_error (monthly p) (Z.to_nat sIdx)) as [pt0|] eqn:Hpt.
  2:{ apply nth_error_None in Hpt. lia. }
  exists pt0. split; [reflexivity|].
  replace (sIdx <? 0)%Z with false by (symmetry; apply Z.ltb_ge; lia).
  replace (sIdx + durationYears p * 12 >? Z.of_nat (length (monthly p)) - 1)%Z
    with false by (symmetry; rewrite Z.gtb_ltb; apply Z.ltb_ge; lia).
  cbn [throwIf bind].
  replace (sIdx + durationYears p * 12 - sIdx)%Z with (durationYears p * 12)%Z by lia.
  destruct (initGuardrails p) as [[gs gc]|e]; reflexivity.
Qed.

Lemma runRetirementMonthly_start_absent p :
  (findMonthIndex (monthly p) (startMonth p) < 0)%Z ->
  runRetirementMonthly root12 p = Throw StartMonthNotFound.
Proof.
  intro H. unfold runRetirementMonthly. cbv zeta.
  replace (_ <? 0)%Z with true by (symmetry; apply Z.ltb_lt; exact H).
  reflexivity.
Qed.

Lemma runRetirementMonthly_not_enough_data p :
  (0 <= findMonthIndex (monthly p) (startMonth p))%Z ->
  (findMonthIndex (monthly p) (startMonth p) + durationYears p * 12
   > Z.of_nat (length (monthly p)) - 1)%Z ->
  runRetirementMonthly root12 p = Throw NotEnoughData.
Proof.
  intros H0 H. unfold runRetirementMonthly. cbv zeta.
  replace (_ <? 0)%Z with false by (symmetry; apply Z.ltb_ge; exact H0).
  cbn [throwIf bind].
  replace (_ >? _)%Z with true by (symmetry; rewrite Z.gtb_ltb; apply Z.ltb_lt; lia).
  reflexivity.
Qed.

(** with data for the run, runRetirementMonthly returns on every valid
    configuration *)
Lemma runRetirementMonthly_total p :
  validConfig p ->
  (0 <= findMonthIndex (monthly p) (startMonth p))%Z ->
  (findMonthIndex (monthly p) (startMonth p) + durationYears p * 12
   <= Z.of_nat (length (monthly p)) - 1)%Z ->
  exists res, runRetirementMonthly root12 p = Ok res.
Proof.
  intros (Hmode & Hrate & Hg) H0 Hend.
  destruct (runRetirementMonthly_data_ok p H0 Hend) as (pt0 & _ & ->).
  assert (Hig : exists gs gc, initGuardrails p = Ok (gs, gc)).
  { destruct (withdrawMode p =? "guardrails")%string eqn:E.
    - apply initGuardrails_accepts; auto.
    - rewrite initGuardrails_other_mode by exact E. eauto. }
  destruct Hig as (gs & gc & ->). cbn [bind].
  destruct (monthLoop_total success (monthBody p (consts root12 p gc)) (monthly p)
              (buildReturns (monthly p))) with
    (i := Z.to_nat (findMonthIndex (monthly p) (startMonth p)))
    (count := Z.to_nat (durationYears p * 12))
    (st := initLocals p gs (year (month pt0))) as [st ->].
  - intros pt r st. apply monthBody_total; assumption.
  - pose proof (findMonthIndex_bound (monthly p) (startMonth p)). lia.
  - cbn [bind]. eauto.
Qed.

(** the server copy fails on a valid configuration exactly when the
    start month is absent or the series has fewer than
    [startIdx + durationYears * 12 + 1] months *)
Lemma runRetirementMonthly_fails_iff p :
  validConfig p ->
  (exists e, runRetirementMonthly root12 p = Throw e)
  <-> ((findMonthIndex (monthly p) (startMonth p) < 0)%Z
       \/ (findMonthIndex (monthly p) (startMonth p) + durationYears p * 12
           > Z.of_nat (length (monthly p)) - 1)%Z).
Proof.
  intro Hv. split.
  - intros [e He].
    destruct (Z_lt_le_dec (findMonthIndex (monthly p) (startMonth p)) 0) as [H0|H0];
      [left; exact H0|].
    destruct (Z_le_gt_dec
                (findMonthIndex (monthly p) (startMonth p) + durationYears p * 12)
                (Z.of_nat (length (monthly p)) - 1)) as [H1|H1];
      [|right; exact H1].
    destruct (runRetirementMonthly_total p Hv H0 H1) as [res Hres]. congruence.
  - intros [H|H].
    + exists StartMonthNotFound. apply runRetirementMonthly_start_absent. exact H.
    + destruct (Z_lt_le_dec (findMonthIndex (monthly p) (startMonth p)) 0) as [H0|H0].
      * exists StartMonthNotFound. apply runRetirementMonthly_start_absent. exact H0.
      * exists NotEnoughData. apply runRetirementMonthly_not_enough_data; assumption.
Qed.

End Failures.

(* ================================================================== *)
(** ** The client copy against the server copy *)
(* ================================================================== *)

Lemma client_buildMonthlyReturns_eq monthly :
  Client.buildMonthlyReturns monthly = buildReturns monthly.
Proof. reflexivity. Qed.

(** the two threshold tests exclude each other, so testing the second
    after the first changes nothing *)
Lemma client_computeWithdrawal_eq mode init bal rate freq iwm base f gs gc ytd :
  Client.computeWithdrawal mode init bal rate freq iwm base f gs gc ytd
  = computeWithdrawal mode rate init bal freq gs gc ytd iwm base f.
Proof.
  unfold Client.computeWithdrawal, computeWithdrawal.
  destruct iwm; cbn [negb]; [|reflexivity].
  destruct (mode =? "percentOfInitial")%string; [reflexivity|].
  destruct (mode =? "percentOfCurrent")%string; [reflexivity|].
  destruct (mode =? "guardrails")%string; [|reflexivity].
  cbv zeta.
  destruct ytd as [q| | |]; cbn [isFinite]; try reflexivity.
  destruct (jgt (Fin q) (lit 8 100)) eqn:E1.
  - assert (E2 : jlt (Fin q) (lit 3 100) = false).
    { cbn in E1 |- *. apply Qltb_lt in E1. apply Qltb_ge.
      assert (3 # 100 <= 8 # 100) by (unfold Qle; simpl; lia). lra. }
    rewrite E2. reflexivity.
  - reflexivity.
Qed.

Lemma client_monthBody_eq p k pt r st :
  rateRejected (baseRateDecimal k) = false ->
  Client.monthBody p k pt r st = monthBody p k pt r st.
Proof.
  unfold Client.monthBody, monthBody, rateRejected. intro H.
  destruct (negb (year (month pt) =? currentYear st)%Z);
    cbv beta iota zeta; rewrite H; cbn [throwIf bind];
    rewrite client_computeWithdrawal_eq; reflexivity.
Qed.

Lemma client_sweepMonthBody_eq p k pt r st :
  Client.sweepMonthBody p k pt r st = Sweep.monthBody p k pt r st.
Proof.
  unfold Client.sweepMonthBody, Sweep.monthBody.
  destruct (negb (year (month pt) =? Sweep.currentYear st)%Z);
    cbv beta iota zeta; rewrite client_computeWithdrawal_eq; reflexivity.
Qed.

Lemma monthLoop_ext {St : Type} (alive : St -> bool)
    (body body' : MonthlyPricePoint -> jsnum -> St -> result St)
    (monthly : list MonthlyPricePoint) (returns : list jsnum) :
  (forall pt r st, body pt r st = body' pt r st) ->
  forall count i st,
    monthLoop alive body monthly returns i count st
    = monthLoop alive body' monthly returns i count st.
Proof.
  intro H. induction count as [|n IH]; intros i st; cbn [monthLoop]; [reflexivity|].
  destruct (nth_error monthly i) as [pt|]; [|reflexivity].
  rewrite H. destruct (body' pt (nth i returns NaN) st) as [st1|e]; [|reflexivity].
  cbn [bind]. destruct (alive st1); [apply IH | reflexivity].
Qed.

(** the test of the guardrails set-up of the client runRetirementMonthly *)
Definition clientGuardrailsRejected (p : Params) : bool :=
  let minR := jdiv (guardrailsMinPct p) (Fin 100) in
  let maxR := jdiv (guardrailsMaxPct p) (Fin 100) in
  negb (isFinite minR) || negb (isFinite maxR) || jgt minR maxR.

(** a configuration the client runRetirementMonthly accepts *)
Definition clientValidConfig (p : Params) : Prop :=
  knownMode (withdrawMode p) = true
  /\ rateRejected (jdiv (withdrawValue p) (Fin 100)) = false
  /\ ((withdrawMode p =? "guardrails")%string = true ->
      clientGuardrailsRejected p = false).

Section ClientFailures.

Variable root12 : Q -> Q.

(** the client run once its tests of the data and of the rate have
    passed: the same loop as the server's *)
Lemma client_runRetirementMonthly_data_ok p :
  (0 <= findMonthIndex (monthly p) (startMonth p))%Z ->
  (findMonthIndex (monthly p) (startMonth p) + durationYears p * 12
   <= Z.of_nat (length (monthly p)))%Z ->
  rateRejected (jdiv (withdrawValue p) (Fin 100)) = false ->
  exists pt0,
    nth_error (monthly p) (Z.to_nat (findMonthIndex (monthly p) (startMonth p)))
    = Some pt0
    /\ Client.runRetirementMonthly root12 p =
       ('(gs, gc) <- Client.initGuardrails p (jdiv (withdrawValue p) (Fin 100));;
        st <- monthLoop success (monthBody p (consts root12 p gc)) (monthly p)
                (buildReturns (monthly p))
                (Z.to_nat (findMonthIndex (monthly p) (startMonth p)))
                (Z.to_nat (durationYears p * 12))
                (initLocals p gs (year (month pt0)));;
        Ok (toResult st)).
Proof.
  intros H0 Hend Hrate. unfold Client.runRetirementMonthly. cbv zeta.
  set (sIdx := findMonthIndex (monthly p) (startMonth p)) in *.
  pose proof (findMonthIndex_bound (monthly p) (startMonth p)) as Hb.
  fold sIdx in Hb.
  destruct (nth_error (monthly p) (Z.to_nat sIdx)) as [pt0|] eqn:Hpt.
  2:{ apply nth_error_None in Hpt. lia. }
  exists pt0. split; [reflexivity|].
  replace (sIdx <? 0)%Z with false by (symmetry; apply Z.ltb_ge; lia).
  replace (sIdx + durationYears p * 12 >? Z.of_nat (length (monthly p)))%Z
    with false by (symmetry; rewrite Z.gtb_ltb; apply Z.ltb_ge; lia).
  unfold rateRejected in Hrate. rewrite Hrate.
  cbn [throwIf bind].
  replace (sIdx + durationYears p * 12 - sIdx)%Z with (durationYears p * 12)%Z by lia.
  destruct (Client.initGuardrails p _) as [[gs gc]|e]; [|reflexivity].
  cbn [bind]. rewrite client_buildMonthlyReturns_eq.
  rewrite (monthLoop_ext success (Client.monthBody p (consts root12 p gc))
             (monthBody p (consts root12 p gc))); [reflexivity|].
  intros pt r st. apply client_monthBody_eq. exact Hrate.
Qed.

Lemma client_initGuardrails_accepts p rate :
  ((withdrawMode p =? "guardrails")%string = true ->
   clientGuardrailsRejected p = false) ->
  exists gs gc, Client.initGuardrails p rate = Ok (gs, gc).
Proof.
  unfold Client.initGuardrails, clientGuardrailsRejected, throwIf. intro H.
  destruct (withdrawMode p =? "guardrails")%string; [|eauto].
  cbv zeta in H |- *. rewrite (H eq_refl). cbn [bind]. eauto.
Qed.

Lemma client_runRetirementMonthly_total p :
  clientValidConfig p ->
  (0 <= findMonthIndex (monthly p) (startMonth p))%Z ->
  (findMonthIndex (monthly p) (startMonth p) + durationYears p * 12
   <= Z.of_nat (length (monthly p)))%Z ->
  exists res, Client.runRetirementMonthly root12 p = Ok res.
Proof.
  intros (Hmode & Hrate & Hg) H0 Hend.
  destruct (client_runRetirementMonthly_data_ok p H0 Hend Hrate) as (pt0 & _ & ->).
  destruct (client_initGuardrails_accepts p (jdiv (withdrawValue p) (Fin 100)) Hg)
    as (gs & gc & ->).
  cbn [bind].
  destruct (monthLoop_total success (monthBody p (consts root12 p gc)) (monthly p)
              (buildReturns (monthly p))) with
    (i := Z.to_nat (findMonthIndex (monthly p) (startMonth p)))
    (count := Z.to_nat (durationYears p * 12))
    (st := initLocals p gs (year (month pt0))) as [st ->].
  - intros pt r st. apply monthBody_total; assumption.
  - pose proof (findMonthIndex_bound (monthly p) (startMonth p)). lia.
  - cbn [bind]. eauto.
Qed.

(** on a valid configuration the client copy fails exactly when the start
    month is absent or [startIdx + durationYears * 12] exceeds the length
    of the series *)
Lemma client_runRetirementMonthly_fails_iff p :
  clientValidConfig p ->
  (exists e, Client.runRetirementMonthly root12 p = Throw e)
  <-> ((findMonthIndex (monthly p) (startMonth p) < 0)%Z
       \/ (findMonthIndex (monthly p) (startMonth p) + durationYears p * 12
           > Z.of_nat (length (monthly p)))%Z).
Proof.
  intro Hv. split.
  - intros [e He].
    destruct (Z_lt_le_dec (findMonthIndex (monthly p) (startMonth p)) 0) as [H0|H0];
      [left; exact H0|].
    destruct (Z_le_gt_dec
                (findMonthIndex (monthly p) (startMonth p) + durationYears p * 12)
                (Z.of_nat (length (monthly p)))) as [H1|H1];
      [|right; exact H1].
    destruct (client_runRetirementMonthly_total p Hv H0 H1) as [res Hres]. congruence.
  - unfold Client.runRetirementMonthly. cbv zeta. intros [H|H].
    + exists StartMonthNotFound.
      replace (_ <? 0)%Z with true by (symmetry; apply Z.ltb_lt; exact H).
      reflexivity.
    + destruct (findMonthIndex (monthly p) (startMonth p) <? 0)%Z eqn:E;
        [exists StartMonthNotFound; reflexivity|].
      exists NotEnoughData. cbn [throwIf bind].
      replace (_ >? _)%Z with true
        by (symmetry; rewrite Z.gtb_ltb; apply Z.ltb_lt; lia).
      reflexivity.
Qed.

End ClientFailures.

(* ================================================================== *)
(** ** Where the code departs from the specification *)
(* ================================================================== *)

Module Departures.

(** twelve flat months, and a run of one year from the first of them *)
Definition exactFitParams : Params :=
  mkParams (Examples.monthsFrom 2000 1 12 (lit 100 1)) (lit 100 1) (mkMonth 2000 1) 1
    "percentOfInitial" (lit 4 1) "monthly" NaN NaN NaN NaN.

(** fourteen flat months; 100 to start with and 240% a year of it paid
    monthly: 20 a month, ruin in the fifth month *)
Definition fastRuinParams : Params :=
  mkParams (Examples.monthsFrom 2000 1 14 (lit 100 1)) (lit 100 1) (mkMonth 2000 1) 1
    "percentOfInitial" (lit 240 1) "monthly" NaN NaN NaN NaN.


(** the same months; a withdraw rate of -4% *)
Definition negativeRateParams : Params :=
  mkParams (Examples.monthsFrom 2000 1 14 (lit 100 1)) (lit 100 1) (mkMonth 2000 1) 1
    "percentOfInitial" (lit (-4) 1) "annual" NaN NaN NaN NaN.

End Departures.

Section DepartureFacts.

Variable root12 : Q -> Q.

(** C2: the server copy rejects a run that fits the series exactly.  With
    twelve months of data, a start at the first and a duration of one year,
    [startIdx + durationYears * 12] is 12, the length of the series, and
    does not exceed it; the configuration is valid; the server copy throws
    "Not enough data", the client copy returns. *)
Theorem server_rejects_exact_fit :
  let p := Departures.exactFitParams in
  findMonthIndex (monthly p) (startMonth p) = 0%Z
  /\ (0 + durationYears p * 12 = Z.of_nat (length (monthly p)))%Z
  /\ validConfig p
  /\ runRetirementMonthly root12 p = Throw NotEnoughData
  /\ exists res, Client.runRetirementMonthly root12 p = Ok res.
Proof.
  cbv zeta. split; [reflexivity|]. split; [reflexivity|].
  split; [repeat split; try reflexivity; discriminate|].
  split; [reflexivity|].
  apply client_runRetirementMonthly_total.
  - repeat split; try reflexivity; discriminate.
  - vm_compute. discriminate.
  - vm_compute. discriminate.
Qed.

(** C5: the sweep leaves the month of ruin out of the extrema.  20 a month
    out of 100 on flat prices: the balance goes 80, 60, 40, 20, 0.  The year
    outcome of the sweep (server and client copy) ends at 0 and reports a
    lowest balance above 0; runRetirementMonthly on the same input reports
    0. *)
Theorem sweep_lowest_misses_ruin :
  let p := Departures.fastRuinParams in
  (exists out y,
      Sweep.runRetirementSuccessByStartYear root12 p = Ok out
      /\ SweepResult.results out = [y]
      /\ YearOutcome.passed y = false
      /\ jeq (YearOutcome.endingBalance y) (Fin 0) = true
      /\ jeq (YearOutcome.lowestBalance y) (Fin 20) = true)
  /\ (exists out y,
         Client.runRetirementSuccessByStartYear root12 p = Ok out
         /\ SweepResult.results out = [y]
         /\ jeq (YearOutcome.endingBalance y) (Fin 0) = true
         /\ jeq (YearOutcome.lowestBalance y) (Fin 20) = true)
  /\ (exists res,
         runRetirementMonthly root12 p = Ok res
         /\ SimulationResult.success res = false
         /\ jeq (SimulationResult.lowestBalance res) (Fin 0) = true).
Proof.
  cbv zeta. split; [|split].
  - eexists. eexists. split; [vm_compute; reflexivity|].
    split; [reflexivity|]. repeat split; vm_compute; reflexivity.
  - eexists. eexists. split; [vm_compute; reflexivity|].
    split; [reflexivity|]. repeat split; vm_compute; reflexivity.
  - eexists. split; [vm_compute; reflexivity|].
    split; vm_compute; reflexivity.
Qed.

End DepartureFacts.

(* ================================================================== *)
(** ** Configuration errors *)
(* ================================================================== *)


Section ConfigurationErrors.

Variable root12 : Q -> Q.




End ConfigurationErrors.



(* ================================================================== *)
(** ** Extrema of a run *)
(* ================================================================== *)




Lemma jle_refl_finite x : finite x -> jle x x = true.
Proof.
  intro H. apply finite_inv in H as [q ->]. cbn. apply Qle_bool_iff. lra.
Qed.










Section Extrema.

Variable root12 : Q -> Q.


End Extrema.

(* ================================================================== *)
(** ** More concrete runs *)
(* ================================================================== *)

Module MoreExamples.

(** 14 flat months; guardrails from 5% between 3% and 6%, paid once a
    year *)
Definition annualGuardrailsParams : Params :=
  mkParams (Examples.monthsFrom 2000 1 14 (lit 100 1)) (lit 100 1) (mkMonth 2000 1) 1
    "guardrails" (lit 5 1) "annual" (lit 3 1) (lit 6 1) NaN NaN.

Definition annualGuardrailsResult : SimulationResult.t :=
  Examples.resultOf
    (runRetirementMonthly Examples.root12_tangent annualGuardrailsParams)
    Examples.noResult.

Lemma annualGuardrailsResult_ok :
  runRetirementMonthly Examples.root12_tangent annualGuardrailsParams
  = Ok annualGuardrailsResult.
Proof. vm_compute. reflexivity. Qed.

Lemma annualGuardrails_months_distinct :
  NoDup (map month (monthly annualGuardrailsParams)).
Proof.
  cbn. repeat constructor; cbn; intuition discriminate.
Qed.

Definition noSweep : SweepResult.t :=
  SweepResult.mk (Summary.mk 0 0 NaN None None None None) [].

Definition ruinSweep : SweepResult.t :=
  Examples.resultOf
    (Sweep.runRetirementSuccessByStartYear Examples.root12_tangent Examples.ruinParams)
    noSweep.

Lemma ruinSweep_ok :
  Sweep.runRetirementSuccessByStartYear Examples.root12_tangent Examples.ruinParams
  = Ok ruinSweep.
Proof. vm_compute. reflexivity. Qed.




(** the sweep of [Examples.ruinParams], started from a balance that is NaN *)
Definition nanBalanceParams : Params :=
  mkParams (monthly Examples.ruinParams) NaN (mkMonth 2000 1) 2
    "percentOfCurrent" (lit 84 1) "monthly" NaN NaN NaN (lit 0 1).

End MoreExamples.


(** C8 as stated fails: a sweep started from a balance that is NaN ends
    its start year with a balance that is NaN, and reports an average and
    a median ending balance that are NaN. *)
Lemma sweep_summary_can_be_NaN :
  exists out,
    Sweep.runRetirementSuccessByStartYear Examples.root12_tangent
      MoreExamples.nanBalanceParams = Ok out
    /\ Summary.totalStartYearsTested (SweepResult.summary out) = 1%nat
    /\ Summary.averageEndingBalance (SweepResult.summary out) = Some NaN
    /\ Summary.medianEndingBalance (SweepResult.summary out) = Some NaN.
Proof.
  eexists. split; [vm_compute; reflexivity|].
  repeat split; vm_compute; reflexivity.
Qed.

Lemma no_withdrawal_month_keeps_rate_witness :
  Threaded Snapshot.guardrailsRatePct rateKeptOutsideJanuary
    (Some (jmul (clamp (jdiv (lit 5 1) (Fin 100)) (jdiv (lit 3 1) (Fin 100))
                   (jdiv (lit 6 1) (Fin 100))) (Fin 100)))
    (SimulationResult.series MoreExamples.annualGuardrailsResult)
  /\ forall i j ei ej,
       nth_error (SimulationResult.series MoreExamples.annualGuardrailsResult) i = Some ei ->
       nth_error (SimulationResult.series MoreExamples.annualGuardrailsResult) j = Some ej ->
       mon (Snapshot.month ei) = 1%Z -> mon (Snapshot.month ej) = 1%Z ->
       year (Snapshot.month ei) = year (Snapshot.month ej) ->
       i = j.
Proof.
  destruct (proj2 (no_withdrawal_month_keeps_rate Examples.root12_tangent)
              MoreExamples.annualGuardrailsParams MoreExamples.annualGuardrailsResult)
    as [H1 H2].
  - reflexivity.
  - reflexivity.
  - exact MoreExamples.annualGuardrailsResult_ok.
  - split; [exact H1|]. apply H2. exact MoreExamples.annualGuardrails_months_distinct.
Defined.


Lemma client_runRetirementMonthly_fails_iff_witness :
  (exists e, Client.runRetirementMonthly Examples.root12_tangent
               Departures.exactFitParams = Throw e)
  <-> ((findMonthIndex (monthly Departures.exactFitParams)
          (startMonth Departures.exactFitParams) < 0)%Z
       \/ (findMonthIndex (monthly Departures.exactFitParams)
             (startMonth Departures.exactFitParams)
           + durationYears Departures.exactFitParams * 12
           > Z.of_nat (length (monthly Departures.exactFitParams)))%Z).
Proof.
  apply (client_runRetirementMonthly_fails_iff Examples.root12_tangent
           Departures.exactFitParams).
  repeat split; try reflexivity; discriminate.
Defined.

Lemma runRetirementMonthly_fails_iff_witness :
  (exists e, runRetirementMonthly Examples.root12_tangent
               Departures.exactFitParams = Throw e)
  <-> ((findMonthIndex (monthly Departures.exactFitParams)
          (startMonth Departures.exactFitParams) < 0)%Z
       \/ (findMonthIndex (monthly Departures.exactFitParams)
             (startMonth Departures.exactFitParams)
           + durationYears Departures.exactFitParams * 12
           > Z.of_nat (length (monthly Departures.exactFitParams)) - 1)%Z).
Proof.
  apply (runRetirementMonthly_fails_iff Examples.root12_tangent
           Departures.exactFitParams).
  repeat split; try reflexivity; discriminate.
Defined.

(* ================================================================== *)
(** ** Rounding and overflow *)
(* ================================================================== *)

(** Runs of the engine on binary64 numbers. *)
Module Binary64Examples.

Import PrimFloat.
Import Binary64.
Local Set Warnings "-inexact-float".
Local Open Scope float_scope.

(** [n] consecutive months from month [m] of year [y], all closing at [c] *)
Fixpoint monthsFrom (y m : Z) (n : nat) (c : float) : list MonthlyPricePoint :=
  match n with
  | O => []
  | S k =>
      mkPoint (mkMonth y m) c
      :: (if (m =? 12)%Z then monthsFrom (y + 1) 1 k c else monthsFrom y (m + 1) k c)
  end.

(** a stand-in for [Math.pow(x, 1/12)]; the runs below are under the
    guardrails policy, which does not read the inflation rate *)
Definition root12_unused (x : float) : float := x.

(** two closes, both finite and positive: 2^-1000 and 2^1000 *)
Definition steepPrices : list MonthlyPricePoint :=
  [mkPoint (mkMonth 2000 1) 0x1p-1000; mkPoint (mkMonth 2000 2) 0x1p1000].

(** 14 months from December 1999: a close of 100, then 110 from January
    2000 on; 100000 to start with in January 2000, for one year, under
    the guardrails policy from 5% between 0% and 10%, paid monthly *)
Definition risingParams : Params :=
  mkParams (mkPoint (mkMonth 1999 12) 100 :: monthsFrom 2000 1 13 110)
    100000 (mkMonth 2000 1) 1 "guardrails" 5 "monthly" 0 10 nan nan.

(** the same policy on closes of 100, then 300, started with 1e308 *)
Definition overflowParams : Params :=
  mkParams (mkPoint (mkMonth 1999 12) 100 :: monthsFrom 2000 1 13 300)
    1e308 (mkMonth 2000 1) 1 "guardrails" 5 "monthly" 0 10 nan nan.

(** the number 100 *)
Definition hundred : float := 100.

End Binary64Examples.

(** C9 as stated fails on the code: the guard of buildReturns tests the two
    closes, not their quotient.  Of the closes 2^-1000 and 2^1000, both
    finite and positive, the return is [2^1000 / 2^-1000 - 1], which
    overflows: the return series holds Infinity. *)
Lemma buildReturns_quotient_overflows :
  Forall (fun pt => Binary64.isFinite (Binary64.close pt) = true
                    /\ PrimFloat.ltb PrimFloat.zero (Binary64.close pt) = true)
    Binary64Examples.steepPrices
  /\ Binary64.buildReturns Binary64Examples.steepPrices
     = [PrimFloat.zero; PrimFloat.infinity]
  /\ Binary64.isFinite
       (nth 1 (Binary64.buildReturns Binary64Examples.steepPrices) PrimFloat.nan)
     = false.
Proof.
  split; [|split].
  - repeat constructor.
  - vm_compute. reflexivity.
  - vm_compute. reflexivity.
Qed.

(** C4 as stated fails on the code: the step is added in binary64.  From
    the rate 0.05 the run starts with, the first month, whose return for
    the year so far is above 8%, takes the rate to [0.05 + 0.0025], which
    is 0.052500000000000005: within the bounds, and further from 0.05
    than the step of 0.0025. *)
Lemma guardrails_rate_moves_more_than_a_step :
  exists gs0 gc pt0 st1 c0 c1 res e,
    Binary64.initGuardrails Binary64Examples.risingParams = Ok (gs0, gc)
    /\ nth_error (Binary64.monthly Binary64Examples.risingParams) 1 = Some pt0
    /\ Binary64.monthLoop
         (Binary64.monthBody Binary64Examples.risingParams
            (Binary64.consts Binary64Examples.root12_unused
               Binary64Examples.risingParams gc))
         (Binary64.monthly Binary64Examples.risingParams)
         (Binary64.buildReturns (Binary64.monthly Binary64Examples.risingParams))
         1 1
         (Binary64.initLocals Binary64Examples.risingParams gs0
            (year (Binary64.month pt0)))
       = Ok st1
    /\ Binary64.currentRate gs0 = Some c0
    /\ Binary64.currentRate (Binary64.guardrailsState st1) = Some c1
    /\ PrimFloat.leb (Binary64.minRate gc) c1 = true
    /\ PrimFloat.leb c1 (Binary64.maxRate gc) = true
    /\ PrimFloat.ltb (Binary64.step gc) (PrimFloat.abs (PrimFloat.sub c1 c0)) = true
    /\ Binary64.runRetirementMonthly Binary64Examples.root12_unused
         Binary64Examples.risingParams = Ok res
    /\ nth_error (Binary64.SimulationResult.series res) 0 = Some e
    /\ Binary64.Snapshot.guardrailsRatePct e
       = Some (PrimFloat.mul c1 Binary64Examples.hundred).
Proof.
  do 8 eexists.
  split; [vm_compute; reflexivity|].
  split; [vm_compute; reflexivity|].
  split; [vm_compute; reflexivity|].
  split; [vm_compute; reflexivity|].
  split; [vm_compute; reflexivity|].
  split; [vm_compute; reflexivity|].
  split; [vm_compute; reflexivity|].
  split; [vm_compute; reflexivity|].
  split; [vm_compute; reflexivity|].
  split; vm_compute; reflexivity.
Qed.

(** C1 as stated fails on the code: the balance can become NaN.  Started
    with 1e308 under the guardrails policy, on a close that triples, the
    balance after the market return is Infinity, the withdrawal is
    Infinity, and what is left is [Infinity - Infinity], NaN: it is not
    [<= 0], so the run goes on, and every value of the series is NaN.  (An
    initial balance that is NaN gives the same.) *)
Lemma series_value_can_be_NaN :
  (exists res,
     Binary64.runRetirementMonthly Binary64Examples.root12_unused
       Binary64Examples.overflowParams = Ok res
     /\ Binary64.isFinite (Binary64.initialBalance Binary64Examples.overflowParams)
        = true
     /\ Binary64.SimulationResult.success res = true
     /\ length (Binary64.SimulationResult.series res) = 12%nat
     /\ Forall (fun e => PrimFloat.is_nan (Binary64.Snapshot.value e) = true
                         /\ PrimFloat.leb PrimFloat.zero (Binary64.Snapshot.value e)
                            = false)
          (Binary64.SimulationResult.series res))
  /\ (exists res,
        runRetirementMonthly Examples.root12_tangent MoreExamples.nanBalanceParams
        = Ok res
        /\ Forall (fun e => Snapshot.value e = NaN
                            /\ jge (Snapshot.value e) (Fin 0) = false)
             (SimulationResult.series res)
        /\ length (SimulationResult.series res) = 24%nat).
Proof.
  split.
  - eexists. split; [vm_compute; reflexivity|].
    split; [vm_compute; reflexivity|].
    split; [vm_compute; reflexivity|].
    split; [vm_compute; reflexivity|].
    vm_compute. repeat constructor.
  - eexists. split; [vm_compute; reflexivity|].
    split; [|vm_compute; reflexivity].
    vm_compute. repeat constructor.
Qed.

(* ================================================================== *)
(** ** The client copy: the same properties *)
(* ================================================================== *)

Lemma client_initGuardrails_guardrails p rate gs gc :
  withdrawMode p = "guardrails"%string ->
  Client.initGuardrails p rate = Ok (gs, gc) ->
  exists mn mx floor,
    jdiv (guardrailsMinPct p) (Fin 100) = Fin mn
    /\ jdiv (guardrailsMaxPct p) (Fin 100) = Fin mx
    /\ mn <= mx
    /\ gs = mkGuardrailsState (Some (clamp rate (Fin mn) (Fin mx)))
    /\ gc = mkGuardrailsConfig (Fin mn) (Fin mx) (lit 25 10000) floor.
Proof.
  intros Hmode. unfold Client.initGuardrails. rewrite Hmode.
  change (("guardrails" =? "guardrails")%string) with true. cbv iota zeta.
  unfold throwIf.
  destruct (jdiv (guardrailsMinPct p) (Fin 100)) as [mn| | |]; cbn [isFinite negb orb];
    try discriminate.
  destruct (jdiv (guardrailsMaxPct p) (Fin 100)) as [mx| | |]; cbn [isFinite negb orb];
    try discriminate.
  destruct (jgt (Fin mn) (Fin mx)) eqn:E; [discriminate|]. cbn [bind].
  intros H; injection H as <- <-.
  exists mn, mx. eexists. repeat split; try reflexivity.
  cbn in E. apply Qltb_ge in E. exact E.
Qed.

(** once the client sweep has its guardrails set up, a start year is the
    loop of the server copy *)
Lemma client_runStartYear_eq root12 p returns i pt :
  Client.runStartYear root12 p returns i pt = Sweep.runStartYear root12 p returns i pt.
Proof.
  unfold Client.runStartYear, Sweep.runStartYear.
  destruct (Sweep.initGuardrails p) as [gs gc]. cbv zeta.
  apply monthLoop_ext. intros pt0 r st. apply client_sweepMonthBody_eq.
Qed.

Section ClientProperties.

Variable root12 : Q -> Q.

(** what a returning run of the client copy went through: the loop of the
    server copy, on a withdraw rate that is a positive finite number *)
Lemma client_runRetirementMonthly_inv p res :
  Client.runRetirementMonthly root12 p = Ok res ->
  exists (startIdx : nat) (qs : Q) gs gc pt0 st,
    findMonthIndex (monthly p) (startMonth p) = Z.of_nat startIdx
    /\ (Z.of_nat startIdx + durationYears p * 12
        <= Z.of_nat (length (monthly p)))%Z
    /\ jdiv (withdrawValue p) (Fin 100) = Fin qs
    /\ Client.initGuardrails p (Fin qs) = Ok (gs, gc)
    /\ nth_error (monthly p) startIdx = Some pt0
    /\ monthLoop success (monthBody p (consts root12 p gc)) (monthly p)
         (buildReturns (monthly p)) startIdx (Z.to_nat (durationYears p * 12))
         (initLocals p gs (year (month pt0))) = Ok st
    /\ res = toResult st.
Proof.
  unfold Client.runRetirementMonthly. cbv zeta. unfold throwIf.
  set (sIdx := findMonthIndex (monthly p) (startMonth p)).
  destruct (sIdx <? 0)%Z eqn:Hneg; [discriminate|]. cbn [bind].
  destruct (_ >? _)%Z eqn:Hend; [discriminate|]. cbn [bind].
  destruct (negb (isFinite (jdiv (withdrawValue p) (Fin 100)))
            || jle (jdiv (withdrawValue p) (Fin 100)) (Fin 0)) eqn:Hrate;
    [discriminate|]. cbn [bind].
  destruct (jdiv (withdrawValue p) (Fin 100)) as [qs| | |] eqn:Hq;
    try discriminate.
  destruct (Client.initGuardrails p (Fin qs)) as [[gs gc]|e] eqn:Hig; [|discriminate].
  cbn [bind].
  destruct (nth_error (monthly p) (Z.to_nat sIdx)) as [pt0|] eqn:Hpt; [|discriminate].
  replace (sIdx + durationYears p * 12 - sIdx)%Z with (durationYears p * 12)%Z by lia.
  rewrite client_buildMonthlyReturns_eq.
  rewrite (monthLoop_ext success (Client.monthBody p (consts root12 p gc))
             (monthBody p (consts root12 p gc))).
  2:{ intros pt r st. apply client_monthBody_eq.
      unfold rateRejected. cbn [consts baseRateDecimal]. rewrite Hq. exact Hrate. }
  destruct (monthLoop _ _ _ _ _ _ _) as [st|e] eqn:Hloop; [|discriminate]. cbn [bind].
  intros H; injection H as <-.
  exists (Z.to_nat sIdx), qs, gs, gc, pt0, st.
  apply Z.ltb_ge in Hneg.
  rewrite Z2Nat.id by exact Hneg.
  repeat split; auto.
  rewrite Z.gtb_ltb in Hend. apply Z.ltb_ge in Hend. lia.
Qed.





(** C10 for the client copy: outside a withdrawal month computeWithdrawal
    returns a withdrawal of 0 and the state it was given; in a guardrails
    run whose withdrawals are not monthly a month other than January
    records the rate of the month before; and when the months of the price
    series are distinct, no two entries are the January of one year. *)
Theorem client_no_withdrawal_month_keeps_rate :
  (forall mode init bal rate freq base f gs gc ytd,
     Client.computeWithdrawal mode init bal rate freq false base f gs gc ytd
     = Ok (mkWithdrawalResult (Fin 0) (currentRate gs), gs))
  /\ (forall (p : Params) (res : SimulationResult.t),
        withdrawMode p = "guardrails"%string ->
        (withdrawFrequency p =? "monthly")%string = false ->
        Client.runRetirementMonthly root12 p = Ok res ->
        Threaded Snapshot.guardrailsRatePct rateKeptOutsideJanuary
          (Some (jmul (clamp (jdiv (withdrawValue p) (Fin 100))
                         (jdiv (guardrailsMinPct p) (Fin 100))
                         (jdiv (guardrailsMaxPct p) (Fin 100))) (Fin 100)))
          (SimulationResult.series res)
        /\ (NoDup (map month (monthly p)) ->
            forall i j ei ej,
              nth_error (SimulationResult.series res) i = Some ei ->
              nth_error (SimulationResult.series res) j = Some ej ->
              mon (Snapshot.month ei) = 1%Z -> mon (Snapshot.month ej) = 1%Z ->
              year (Snapshot.month ei) = year (Snapshot.month ej) ->
              i = j)).
Proof.
  split; [reflexivity|].
  intros p res Hmode Hfreq Hrun.
  apply client_runRetirementMonthly_inv in Hrun
    as (startIdx & qs & gs & gc & pt0 & st & _ & _ & Hqs & Hig & _ & Hloop & ->).
  destruct (client_initGuardrails_guardrails p (Fin qs) gs gc Hmode Hig)
    as (mn & mx & floor & Hmn & Hmx & _ & -> & ->).
  rewrite Hqs, Hmn, Hmx.
  exact (retirementLoop_rate_kept root12 p _ _ _ _ _ st Hmode Hfreq Hloop).
Qed.



(** what a returning sweep of the client copy went through: its withdraw
    rate is a positive finite number *)
Lemma client_runRetirementSuccessByStartYear_inv p out :
  Client.runRetirementSuccessByStartYear root12 p = Ok out ->
  rateRejected (jdiv (withdrawValue p) (Fin 100)) = false
  /\ exists acc,
      Client.startLoop root12 p (buildReturns (monthly p)) 0 (length (monthly p))
        (Sweep.mkTotals [] [] NInf PInf) = Ok acc
      /\ out = Sweep.summarize acc.
Proof.
  unfold Client.runRetirementSuccessByStartYear, rateRejected. cbv zeta.
  unfold throwIf.
  destruct (negb (isFinite (jdiv (withdrawValue p) (Fin 100)))
            || jle (jdiv (withdrawValue p) (Fin 100)) (Fin 0)); [discriminate|].
  cbn [bind]. rewrite client_buildMonthlyReturns_eq.
  destruct (Client.startLoop _ _ _ _ _ _) as [acc|e]; [|discriminate].
  cbn [bind]. intros H; injection H as <-.
  split; [reflexivity|]. exists acc. split; reflexivity.
Qed.



(** C6 for the client copy: a withdraw rate that is not a positive finite
    number makes runRetirementMonthly fail once the data tests have passed,
    and the sweep at once, before any month is simulated; in
    runRetirementMonthly guardrails bounds that are not finite or are
    crossed fail in the set-up. *)
Theorem client_configuration_errors_rejected :
  (forall p,
      (0 <= findMonthIndex (monthly p) (startMonth p))%Z ->
      (findMonthIndex (monthly p) (startMonth p) + durationYears p * 12
       <= Z.of_nat (length (monthly p)))%Z ->
      rateRejected (jdiv (withdrawValue p) (Fin 100)) = true ->
      Client.runRetirementMonthly root12 p = Throw WithdrawRateNotPositive)
  /\ (forall p,
        rateRejected (jdiv (withdrawValue p) (Fin 100)) = true ->
        Client.runRetirementSuccessByStartYear root12 p
        = Throw WithdrawRateNotPositive)
  /\ (forall p,
        (0 <= findMonthIndex (monthly p) (startMonth p))%Z ->
        (findMonthIndex (monthly p) (startMonth p) + durationYears p * 12
         <= Z.of_nat (length (monthly p)))%Z ->
        rateRejected (jdiv (withdrawValue p) (Fin 100)) = false ->
        (withdrawMode p =? "guardrails")%string = true ->
        clientGuardrailsRejected p = true ->
        Client.runRetirementMonthly root12 p = Throw GuardrailsMinMaxInvalid).
Proof.
  split; [|split].
  - intros p H0 Hend Hrate. unfold Client.runRetirementMonthly. cbv zeta.
    replace (_ <? 0)%Z with false by (symmetry; apply Z.ltb_ge; lia).
    replace (_ >? _)%Z with false
      by (symmetry; rewrite Z.gtb_ltb; apply Z.ltb_ge; lia).
    unfold rateRejected in Hrate. rewrite Hrate. reflexivity.
  - intros p Hrate. unfold Client.runRetirementSuccessByStartYear. cbv zeta.
    unfold rateRejected in Hrate. rewrite Hrate. reflexivity.
  - intros p H0 Hend Hrate Hmode Hrej.
    destruct (client_runRetirementMonthly_data_ok root12 p H0 Hend Hrate)
      as (pt0 & _ & ->).
    unfold Client.initGuardrails. rewrite Hmode. cbv zeta.
    unfold clientGuardrailsRejected in Hrej. cbv zeta in Hrej. rewrite Hrej.
    reflexivity.
Qed.

End ClientProperties.

Module ClientExamples.





Definition clientAnnualGuardrailsResult : SimulationResult.t :=
  Examples.resultOf
    (Client.runRetirementMonthly Examples.root12_tangent
       MoreExamples.annualGuardrailsParams)
    Examples.noResult.

Lemma clientAnnualGuardrailsResult_ok :
  Client.runRetirementMonthly Examples.root12_tangent
    MoreExamples.annualGuardrailsParams
  = Ok clientAnnualGuardrailsResult.
Proof. vm_compute. reflexivity. Qed.

Definition clientRuinSweep : SweepResult.t :=
  Examples.resultOf
    (Client.runRetirementSuccessByStartYear Examples.root12_tangent
       Examples.ruinParams)
    MoreExamples.noSweep.

Lemma clientRuinSweep_ok :
  Client.runRetirementSuccessByStartYear Examples.root12_tangent Examples.ruinParams
  = Ok clientRuinSweep.
Proof. vm_compute. reflexivity. Qed.



End ClientExamples.





Lemma client_no_withdrawal_month_keeps_rate_witness :
  Threaded Snapshot.guardrailsRatePct rateKeptOutsideJanuary
    (Some (jmul (clamp (jdiv (lit 5 1) (Fin 100)) (jdiv (lit 3 1) (Fin 100))
                   (jdiv (lit 6 1) (Fin 100))) (Fin 100)))
    (SimulationResult.series ClientExamples.clientAnnualGuardrailsResult)
  /\ forall i j ei ej,
       nth_error (SimulationResult.series ClientExamples.clientAnnualGuardrailsResult) i
       = Some ei ->
       nth_error (SimulationResult.series ClientExamples.clientAnnualGuardrailsResult) j
       = Some ej ->
       mon (Snapshot.month ei) = 1%Z -> mon (Snapshot.month ej) = 1%Z ->
       year (Snapshot.month ei) = year (Snapshot.month ej) ->
       i = j.
Proof.
  destruct (proj2 (client_no_withdrawal_month_keeps_rate Examples.root12_tangent)
              MoreExamples.annualGuardrailsParams
              ClientExamples.clientAnnualGuardrailsResult)
    as [H1 H2].
  - reflexivity.
  - reflexivity.
  - exact ClientExamples.clientAnnualGuardrailsResult_ok.
  - split; [exact H1|]. apply H2. exact MoreExamples.annualGuardrails_months_distinct.
Defined.



Lemma client_configuration_errors_rejected_witness :
  Client.runRetirementSuccessByStartYear Examples.root12_tangent
    Departures.negativeRateParams
  = Throw WithdrawRateNotPositive.
Proof.
  apply (proj1 (proj2 (client_configuration_errors_rejected Examples.root12_tangent))).
  reflexivity.
Defined.

(* ================================================================== *)
(** * runDcaMonthly *)
(* ================================================================== *)

(** the outcome of a call that throws errors of type [E] *)
Inductive outcome (E A : Type) : Type :=
| Returned (a : A)
| Thrown (e : E).

Arguments Returned {E A} a.
Arguments Thrown {E A} e.

Module Dca.

(** the errors of runDcaMonthly; [TypeError] is what reading
    [monthly[i].month] throws when [i] is outside the array *)
Inductive error : Type :=
| StartMonthNotFound
| EndMonthNotFound
| StartAfterEnd
| TypeError.

(** the argument object of runDcaMonthly *)
Record Params : Type := mkParams {
  monthly : list MonthlyPricePoint;
  initialLumpSum : jsnum;
  monthlyContribution : jsnum;
  startMonth : Month;
  endMonth : Month
}.

(** [{ month, value }] *)
Module Point.
Record t : Type := mk {
  month : Month;
  value : jsnum
}.
End Point.

(** the variables the loop updates *)
Record Locals : Type := mkLocals {
  balance : jsnum;
  contributed : jsnum;
  series : list Point.t
}.

(** one iteration of the loop *)
Definition monthBody (monthlyContribution : jsnum)
    (pt : MonthlyPricePoint) (r : jsnum) (st : Locals) : Locals :=
  let balance := jmul (balance st) (jadd (Fin 1) r) in
  let balance := jadd balance monthlyContribution in
  let contributed := jadd (contributed st) monthlyContribution in
  mkLocals balance contributed
    (series st ++ [Point.mk (month pt) balance]).

(** [for (let i = startIdx; i <= endIdx; i++)], [count] iterations from
    [i] *)
Fixpoint monthLoop (monthlyContribution : jsnum)
    (monthly : list MonthlyPricePoint) (returns : list jsnum)
    (i count : nat) (st : Locals) : outcome error Locals :=
  match count with
  | O => Returned st
  | S n =>
      match nth_error monthly i with
      | None => Thrown TypeError
      | Some pt =>
          monthLoop monthlyContribution monthly returns (S i) n
            (monthBody monthlyContribution pt (nth i returns NaN) st)
      end
  end.

(** what the server copy returns *)
Module Result.
Record t : Type := mk {
  startMonth : Month;
  endMonth : Month;
  initialLumpSum : jsnum;
  monthlyContribution : jsnum;
  contributed : jsnum;
  endingValue : jsnum;
  series : list Point.t
}.
End Result.

(** [Number.isFinite(initialLumpSum) ? initialLumpSum : 0] *)
Definition lumpOrZero (initialLumpSum : jsnum) : jsnum :=
  if isFinite initialLumpSum then initialLumpSum else Fin 0.

(** the server copy *)
Definition runDcaMonthly (p : Params) : outcome error Result.t :=
  let startIdx := findMonthIndex (monthly p) (startMonth p) in
  let endIdx := findMonthIndex (monthly p) (endMonth p) in
  if (startIdx <? 0)%Z then Thrown StartMonthNotFound
  else if (endIdx <? 0)%Z then Thrown EndMonthNotFound
  else if (startIdx >? endIdx)%Z then Thrown StartAfterEnd
  else
    let returns := buildReturns (monthly p) in
    let st0 := mkLocals (lumpOrZero (initialLumpSum p))
                 (lumpOrZero (initialLumpSum p)) [] in
    match monthLoop (monthlyContribution p) (monthly p) returns
            (Z.to_nat startIdx) (Z.to_nat (endIdx - startIdx + 1)) st0 with
    | Thrown e => Thrown e
    | Returned st =>
        Returned (Result.mk (startMonth p) (endMonth p)
                    (lumpOrZero (initialLumpSum p)) (monthlyContribution p)
                    (contributed st) (balance st) (series st))
    end.

(** what the client copy returns *)
Module ClientResult.
Record t : Type := mk {
  contributed : jsnum;
  endingValue : jsnum;
  series : list Point.t
}.
End ClientResult.

(** one iteration of the loop of the client copy *)
Definition clientMonthBody (monthlyContribution : jsnum)
    (pt : MonthlyPricePoint) (r : jsnum) (st : Locals) : Locals :=
  let balance := jadd (jmul (balance st) (jadd (Fin 1) r)) monthlyContribution in
  mkLocals balance (jadd (contributed st) monthlyContribution)
    (series st ++ [Point.mk (month pt) balance]).

Fixpoint clientMonthLoop (monthlyContribution : jsnum)
    (monthly : list MonthlyPricePoint) (returns : list jsnum)
    (i count : nat) (st : Locals) : outcome error Locals :=
  match count with
  | O => Returned st
  | S n =>
      match nth_error monthly i with
      | None => Thrown TypeError
      | Some pt =>
          clientMonthLoop monthlyContribution monthly returns (S i) n
            (clientMonthBody monthlyContribution pt (nth i returns NaN) st)
      end
  end.

(** the client copy: [contributed] starts as the balance *)
Definition clientRunDcaMonthly (p : Params) : outcome error ClientResult.t :=
  let startIdx := findMonthIndex (monthly p) (startMonth p) in
  let endIdx := findMonthIndex (monthly p) (endMonth p) in
  if (startIdx <? 0)%Z then Thrown StartMonthNotFound
  else if (endIdx <? 0)%Z then Thrown EndMonthNotFound
  else if (startIdx >? endIdx)%Z then Thrown StartAfterEnd
  else
    let returns := Client.buildMonthlyReturns (monthly p) in
    let balance0 := lumpOrZero (initialLumpSum p) in
    let st0 := mkLocals balance0 balance0 [] in
    match clientMonthLoop (monthlyContribution p) (monthly p) returns
            (Z.to_nat startIdx) (Z.to_nat (endIdx - startIdx + 1)) st0 with
    | Thrown e => Thrown e
    | Returned st =>
        Returned (ClientResult.mk (contributed st) (balance st) (series st))
    end.

End Dca.

(* ================================================================== *)
(** ** Properties of runDcaMonthly *)
(* ================================================================== *)

(** a property the iterations keep holds when the loop ends, and the loop
    does end when its months are inside the array *)
Lemma dca_monthLoop_invariant c monthly returns (I : nat -> Dca.Locals -> Prop) :
  forall count i st,
    (i + count <= length monthly)%nat -> I i st ->
    (forall j pt st,
        (i <= j < i + count)%nat ->
        nth_error monthly j = Some pt -> I j st ->
        I (S j) (Dca.monthBody c pt (nth j returns NaN) st)) ->
    exists st', Dca.monthLoop c monthly returns i count st = Returned st'
                /\ I (i + count)%nat st'.
Proof.
  induction count as [|n IH]; intros i st Hlen HI Hstep.
  - exists st. rewrite Nat.add_0_r. split; [reflexivity | exact HI].
  - cbn [Dca.monthLoop].
    destruct (nth_error monthly i) as [pt|] eqn:Hpt.
    2:{ apply nth_error_None in Hpt. lia. }
    destruct (IH (S i) (Dca.monthBody c pt (nth i returns NaN) st))
      as (st' & Hrun & HI').
    + lia.
    + apply Hstep; [lia | assumption | assumption].
    + intros j pt' st0 Hj. apply Hstep. lia.
    + exists st'. split; [exact Hrun|].
      replace (i + S n)%nat with (S i + n)%nat by lia. exact HI'.
Qed.

(** what a returning call went through *)
Lemma runDcaMonthly_inv p res :
  Dca.runDcaMonthly p = Returned res ->
  exists (s e : nat) st,
    findMonthIndex (Dca.monthly p) (Dca.startMonth p) = Z.of_nat s
    /\ findMonthIndex (Dca.monthly p) (Dca.endMonth p) = Z.of_nat e
    /\ (s <= e < length (Dca.monthly p))%nat
    /\ Dca.monthLoop (Dca.monthlyContribution p) (Dca.monthly p)
         (buildReturns (Dca.monthly p)) s (e - s + 1)
         (Dca.mkLocals (Dca.lumpOrZero (Dca.initialLumpSum p))
            (Dca.lumpOrZero (Dca.initialLumpSum p)) []) = Returned st
    /\ res = Dca.Result.mk (Dca.startMonth p) (Dca.endMonth p)
               (Dca.lumpOrZero (Dca.initialLumpSum p)) (Dca.monthlyContribution p)
               (Dca.contributed st) (Dca.balance st) (Dca.series st).
Proof.
  unfold Dca.runDcaMonthly. cbv zeta.
  pose proof (findMonthIndex_bound (Dca.monthly p) (Dca.startMonth p)) as Hbs.
  pose proof (findMonthIndex_bound (Dca.monthly p) (Dca.endMonth p)) as Hbe.
  set (sIdx := findMonthIndex (Dca.monthly p) (Dca.startMonth p)) in *.
  set (eIdx := findMonthIndex (Dca.monthly p) (Dca.endMonth p)) in *.
  destruct (sIdx <? 0)%Z eqn:Hs; [discriminate|].
  destruct (eIdx <? 0)%Z eqn:He; [discriminate|].
  destruct (sIdx >? eIdx)%Z eqn:Hse; [discriminate|].
  apply Z.ltb_ge in Hs, He. rewrite Z.gtb_ltb in Hse. apply Z.ltb_ge in Hse.
  destruct (Dca.monthLoop _ _ _ _ _ _) as [st|err] eqn:Hloop; [|discriminate].
  intro H; injection H as <-.
  exists (Z.to_nat sIdx), (Z.to_nat eIdx), st.
  rewrite !Z2Nat.id by assumption.
  split; [reflexivity|]. split; [reflexivity|]. split; [lia|].
  split; [|reflexivity].
  replace (Z.to_nat eIdx - Z.to_nat sIdx + 1)%nat
    with (Z.to_nat (eIdx - sIdx + 1)) by lia.
  exact Hloop.
Qed.

(** Which way runDcaMonthly ends.  It tests the start month first, then
    the end month, then their order; once the three tests have passed it
    returns: the loop never reads outside the price series. *)
Theorem runDcaMonthly_outcome (p : Dca.Params) :
  let s := findMonthIndex (Dca.monthly p) (Dca.startMonth p) in
  let e := findMonthIndex (Dca.monthly p) (Dca.endMonth p) in
  ((s < 0)%Z -> Dca.runDcaMonthly p = Thrown Dca.StartMonthNotFound)
  /\ ((0 <= s)%Z -> (e < 0)%Z -> Dca.runDcaMonthly p = Thrown Dca.EndMonthNotFound)
  /\ ((0 <= e < s)%Z -> Dca.runDcaMonthly p = Thrown Dca.StartAfterEnd)
  /\ ((0 <= s <= e)%Z -> exists res, Dca.runDcaMonthly p = Returned res).
Proof.
  cbv zeta. unfold Dca.runDcaMonthly. cbv zeta.
  pose proof (findMonthIndex_bound (Dca.monthly p) (Dca.endMonth p)) as Hbe.
  set (sIdx := findMonthIndex (Dca.monthly p) (Dca.startMonth p)) in *.
  set (eIdx := findMonthIndex (Dca.monthly p) (Dca.endMonth p)) in *.
  repeat split.
  - intro H. apply Z.ltb_lt in H. rewrite H. reflexivity.
  - intros H1 H2. apply Z.ltb_ge in H1. apply Z.ltb_lt in H2.
    rewrite H1, H2. reflexivity.
  - intros [H1 H2].
    replace (sIdx <? 0)%Z with false by (symmetry; apply Z.ltb_ge; lia).
    replace (eIdx <? 0)%Z with false by (symmetry; apply Z.ltb_ge; lia).
    replace (sIdx >? eIdx)%Z with true
      by (symmetry; rewrite Z.gtb_ltb; apply Z.ltb_lt; lia).
    reflexivity.
  - intros [H1 H2].
    replace (sIdx <? 0)%Z with false by (symmetry; apply Z.ltb_ge; lia).
    replace (eIdx <? 0)%Z with false by (symmetry; apply Z.ltb_ge; lia).
    replace (sIdx >? eIdx)%Z with false
      by (symmetry; rewrite Z.gtb_ltb; apply Z.ltb_ge; lia).
    destruct (dca_monthLoop_invariant (Dca.monthlyContribution p) (Dca.monthly p)
                (buildReturns (Dca.monthly p)) (fun _ _ => True))
      with (count := Z.to_nat (eIdx - sIdx + 1)) (i := Z.to_nat sIdx)
           (st := Dca.mkLocals (Dca.lumpOrZero (Dca.initialLumpSum p))
                    (Dca.lumpOrZero (Dca.initialLumpSum p)) [])
      as (st' & -> & _); auto.
    + lia.
    + eauto.
Qed.

(** a property of every entry of a series, given the index of its month
    and the value before it (the balance the run starts with, for the
    first entry) *)
Fixpoint EachDcaMonth (P : nat -> jsnum -> Dca.Point.t -> Prop)
    (i : nat) (prev : jsnum) (ser : list Dca.Point.t) : Prop :=
  match ser with
  | [] => True
  | e :: rest => P i prev e /\ EachDcaMonth P (S i) (Dca.Point.value e) rest
  end.

(** the value of the last entry, [b0] for an empty series *)
Definition lastDcaValue (b0 : jsnum) (ser : list Dca.Point.t) : jsnum :=
  last (map Dca.Point.value ser) b0.

Lemma lastDcaValue_snoc b0 ser e :
  lastDcaValue b0 (ser ++ [e]) = Dca.Point.value e.
Proof. unfold lastDcaValue. rewrite map_app. apply last_last. Qed.

Lemma lastDcaValue_cons b0 a t :
  lastDcaValue b0 (a :: t) = lastDcaValue (Dca.Point.value a) t.
Proof.
  unfold lastDcaValue. cbn [map].
  destruct (map Dca.Point.value t) as [|j l] eqn:E; [reflexivity|].
  change (last (j :: l) b0 = last (j :: l) (Dca.Point.value a)).
  apply last_nonempty_default.
Qed.

Lemma EachDcaMonth_snoc P ser : forall i b0 e,
  EachDcaMonth P i b0 ser ->
  P (i + length ser)%nat (lastDcaValue b0 ser) e ->
  EachDcaMonth P i b0 (ser ++ [e]).
Proof.
  induction ser as [|a t IH]; intros i b0 e H He.
  - simpl in *. rewrite Nat.add_0_r in He. auto.
  - destruct H as [Ha Ht]. split; [exact Ha|].
    apply IH; [exact Ht|].
    rewrite lastDcaValue_cons in He.
    replace (S i + length t)%nat with (i + length (a :: t))%nat by (simpl; lia).
    exact He.
Qed.

(** the value of a month is the value before it grown by the return of
    the month, plus the contribution *)
Definition compounds (returns : list jsnum) (c : jsnum)
    (i : nat) (prev : jsnum) (e : Dca.Point.t) : Prop :=
  Dca.Point.value e = jadd (jmul prev (jadd (Fin 1) (nth i returns NaN))) c.

(** the invariant of the loop behind the shape of the series *)
Definition DcaSeriesInv (p : Dca.Params) (s i : nat) (st : Dca.Locals) : Prop :=
  map Dca.Point.month (Dca.series st) = monthsBetween (Dca.monthly p) s i
  /\ length (Dca.series st) = (i - s)%nat
  /\ Dca.balance st
     = lastDcaValue (Dca.lumpOrZero (Dca.initialLumpSum p)) (Dca.series st)
  /\ EachDcaMonth (compounds (buildReturns (Dca.monthly p)) (Dca.monthlyContribution p))
       s (Dca.lumpOrZero (Dca.initialLumpSum p)) (Dca.series st).

Lemma monthBody_DcaSeriesInv p s i pt st :
  (s <= i)%nat -> nth_error (Dca.monthly p) i = Some pt ->
  DcaSeriesInv p s i st ->
  DcaSeriesInv p s (S i)
    (Dca.monthBody (Dca.monthlyContribution p) pt
       (nth i (buildReturns (Dca.monthly p)) NaN) st).
Proof.
  intros Hsi Hpt (Hm & Hl & Hb & He). unfold DcaSeriesInv, Dca.monthBody.
  cbn [Dca.series Dca.balance].
  repeat split.
  - rewrite map_app, Hm. cbn [map Dca.Point.month].
    symmetry. apply monthsBetween_succ; assumption.
  - rewrite length_app, Hl. cbn [length]. lia.
  - rewrite lastDcaValue_snoc. reflexivity.
  - apply EachDcaMonth_snoc; [exact He|].
    unfold compounds. cbn [Dca.Point.value].
    rewrite Hl, <- Hb. replace (s + (i - s))%nat with i by lia. reflexivity.
Qed.

(** The series of a returning run.  It has one entry for every month from
    the start month to the end month, both included, in the order of the
    price series; each value is the value before it (the lump sum, 0 when
    it is not finite, for the first) grown by the return of its month, plus
    the contribution; [endingValue] is the value of the last entry. *)
Theorem runDcaMonthly_series (p : Dca.Params) (res : Dca.Result.t) :
  Dca.runDcaMonthly p = Returned res ->
  exists s e : nat,
    findMonthIndex (Dca.monthly p) (Dca.startMonth p) = Z.of_nat s
    /\ findMonthIndex (Dca.monthly p) (Dca.endMonth p) = Z.of_nat e
    /\ (s <= e < length (Dca.monthly p))%nat
    /\ map Dca.Point.month (Dca.Result.series res)
       = monthsBetween (Dca.monthly p) s (S e)
    /\ length (Dca.Result.series res) = (e - s + 1)%nat
    /\ EachDcaMonth
         (compounds (buildReturns (Dca.monthly p)) (Dca.monthlyContribution p))
         s (Dca.lumpOrZero (Dca.initialLumpSum p)) (Dca.Result.series res)
    /\ Dca.Result.endingValue res
       = lastDcaValue (Dca.lumpOrZero (Dca.initialLumpSum p)) (Dca.Result.series res).
Proof.
  intro Hrun.
  apply runDcaMonthly_inv in Hrun as (s & e & st & Hs & He & Hse & Hloop & ->).
  exists s, e. split; [exact Hs|]. split; [exact He|]. split; [exact Hse|].
  destruct (dca_monthLoop_invariant (Dca.monthlyContribution p) (Dca.monthly p)
              (buildReturns (Dca.monthly p))
              (fun i st => (s <= i)%nat /\ DcaSeriesInv p s i st))
    with (count := (e - s + 1)%nat) (i := s)
         (st := Dca.mkLocals (Dca.lumpOrZero (Dca.initialLumpSum p))
                  (Dca.lumpOrZero (Dca.initialLumpSum p)) [])
    as (st' & Hrun' & _ & Hm & Hl & Hb & Hc).
  - lia.
  - split; [lia|]. unfold DcaSeriesInv, monthsBetween. cbn.
    rewrite Nat.sub_diag. repeat split; reflexivity.
  - intros i pt st0 _ Hpt [Hsi HI]. split; [lia|].
    apply monthBody_DcaSeriesInv; assumption.
  - rewrite Hloop in Hrun'. injection Hrun' as <-.
    cbn [Dca.Result.series Dca.Result.endingValue].
    replace (S e) with (s + (e - s + 1))%nat by lia.
    repeat split; try assumption.
    rewrite Hl. lia.
Qed.





Lemma dca_clientMonthLoop_eq c monthly returns : forall count i st,
  Dca.clientMonthLoop c monthly returns i count st
  = Dca.monthLoop c monthly returns i count st.
Proof.
  induction count as [|n IH]; intros i st; cbn [Dca.clientMonthLoop Dca.monthLoop];
    [reflexivity|].
  destruct (nth_error monthly i); [|reflexivity]. apply IH.
Qed.

(** The two copies of runDcaMonthly agree: the client copy throws when the
    server copy does, for the same reason, and otherwise returns the
    [contributed], [endingValue] and [series] of the server copy. *)
Theorem client_runDcaMonthly_agrees (p : Dca.Params) :
  Dca.clientRunDcaMonthly p
  = match Dca.runDcaMonthly p with
    | Returned res =>
        Returned (Dca.ClientResult.mk (Dca.Result.contributed res)
                    (Dca.Result.endingValue res) (Dca.Result.series res))
    | Thrown e => Thrown e
    end.
Proof.
  unfold Dca.clientRunDcaMonthly, Dca.runDcaMonthly. cbv zeta.
  destruct (_ <? 0)%Z; [reflexivity|].
  destruct (_ <? 0)%Z; [reflexivity|].
  destruct (_ >? _)%Z; [reflexivity|].
  rewrite dca_clientMonthLoop_eq, client_buildMonthlyReturns_eq.
  destruct (Dca.monthLoop _ _ _ _ _ _); reflexivity.
Qed.

Module DcaExamples.

(** twelve months whose close rises by 10 a month from 100 *)
Definition risingMonths : list MonthlyPricePoint :=
  map (fun k => mkPoint (mkMonth 2000 (Z.of_nat k + 1))
                  (Fin (inject_Z (100 + 10 * Z.of_nat k))))
      (seq 0 12).

(** 1000 to start with and 100 a month, from March to August *)
Definition risingParams : Dca.Params :=
  Dca.mkParams risingMonths (lit 1000 1) (lit 100 1) (mkMonth 2000 3) (mkMonth 2000 8).

Definition noDcaResult : Dca.Result.t :=
  Dca.Result.mk (mkMonth 0 0) (mkMonth 0 0) NaN NaN NaN NaN [].

Definition risingResult : Dca.Result.t :=
  match Dca.runDcaMonthly risingParams with
  | Returned res => res
  | Thrown _ => noDcaResult
  end.

Lemma risingResult_ok : Dca.runDcaMonthly risingParams = Returned risingResult.
Proof. vm_compute. reflexivity. Qed.

End DcaExamples.

Lemma runDcaMonthly_series_witness :
  exists s e : nat,
    findMonthIndex DcaExamples.risingMonths (mkMonth 2000 3) = Z.of_nat s
    /\ findMonthIndex DcaExamples.risingMonths (mkMonth 2000 8) = Z.of_nat e
    /\ (s <= e < length DcaExamples.risingMonths)%nat
    /\ map Dca.Point.month (Dca.Result.series DcaExamples.risingResult)
       = monthsBetween DcaExamples.risingMonths s (S e)
    /\ length (Dca.Result.series DcaExamples.risingResult) = (e - s + 1)%nat
    /\ EachDcaMonth
         (compounds (buildReturns DcaExamples.risingMonths) (lit 100 1))
         s (Dca.lumpOrZero (lit 1000 1)) (Dca.Result.series DcaExamples.risingResult)
    /\ Dca.Result.endingValue DcaExamples.risingResult
       = lastDcaValue (Dca.lumpOrZero (lit 1000 1))
           (Dca.Result.series DcaExamples.risingResult).
Proof.
  exact (runDcaMonthly_series DcaExamples.risingParams DcaExamples.risingResult
           DcaExamples.risingResult_ok).
Defined.


(* ================================================================== *)
(** * The helpers of the engine *)
(* ================================================================== *)

(** ** monthToIndex and findMonthIndex *)

Lemma Month_eqb_eq (a b : Month) : Month_eqb a b = true <-> a = b.
Proof.
  unfold Month_eqb. rewrite andb_true_iff, !Z.eqb_eq.
  destruct a, b; cbn. split; [intros [-> ->]; reflexivity | intro H; injection H; auto].
Qed.

Lemma monthToIndex_Some (m : Month) (k : Z) :
  monthToIndex m = Some k <->
  (1 <= mon m <= 12)%Z /\ k = (year m * 12 + (mon m - 1))%Z.
Proof.
  unfold monthToIndex.
  destruct (mon m <? 1)%Z eqn:E1; destruct (mon m >? 12)%Z eqn:E2; cbn [orb];
    rewrite ?Z.gtb_ltb in E2;
    try apply Z.ltb_lt in E1; try apply Z.ltb_ge in E1;
    try apply Z.ltb_lt in E2; try apply Z.ltb_ge in E2;
    split; try discriminate; try (intros [H _]; lia).
  - intro H; injection H as <-. split; [lia | reflexivity].
  - intros [_ ->]. reflexivity.
Qed.

(** monthToIndex numbers the months in calendar order.  For two months
    given by whole-number year and month, with the month number in 1..12:
    the index of the first is below the index of the second exactly when
    the first month is earlier, and the indices are equal exactly when the
    months are the same; the month after December is the January of the
    next year. *)
Theorem monthToIndex_chronological (a b : Month) (i j : Z) :
  monthToIndex a = Some i -> monthToIndex b = Some j ->
  ((i < j)%Z <-> (year a < year b)%Z \/ (year a = year b /\ (mon a < mon b)%Z))
  /\ (i = j <-> a = b)
  /\ (j = (i + 1)%Z <->
      (year b = year a /\ mon b = (mon a + 1)%Z)
      \/ (year b = (year a + 1)%Z /\ mon a = 12%Z /\ mon b = 1%Z)).
Proof.
  intros Ha Hb.
  apply monthToIndex_Some in Ha as [Ha ->]. apply monthToIndex_Some in Hb as [Hb ->].
  split; [lia|]. split; [|lia].
  split.
  - intro H. destruct a, b; cbn in *. f_equal; lia.
  - intros ->. reflexivity.
Qed.

(** what [findIndex] returns: -1 when no element passes the test, and
    otherwise the index of the first element that does *)
Lemma findIndexFrom_spec {A : Type} (f : A -> bool) (l : list A) : forall base,
  (findIndexFrom f l base = (-1)%Z /\ forall x, In x l -> f x = false)
  \/ (exists (i : nat) (x : A),
        findIndexFrom f l base = (base + Z.of_nat i)%Z
        /\ nth_error l i = Some x /\ f x = true
        /\ forall j y, (j < i)%nat -> nth_error l j = Some y -> f y = false).
Proof.
  induction l as [|a t IH]; intro base; cbn [findIndexFrom].
  - left. split; [reflexivity|]. intros x [].
  - destruct (f a) eqn:Ha.
    + right. exists 0%nat, a. repeat split; [lia | assumption |].
      intros j y Hj. lia.
    + destruct (IH (base + 1)%Z) as [[H1 H2]|(i & x & H1 & H2 & H3 & H4)].
      * left. split; [exact H1|]. intros x [<-|Hx]; auto.
      * right. exists (S i), x. repeat split; [lia | assumption | assumption |].
        intros [|j] y Hj Hy; cbn in Hy.
        -- injection Hy as <-. exact Ha.
        -- apply (H4 j); [lia | exact Hy].
Qed.

(** the month [a] answers a request for the month [m]: it is [m], or has
    the index of [m] *)
Definition answers (a m : Month) : Prop :=
  a = m \/ exists k, monthToIndex m = Some k /\ monthToIndex a = Some k.

(** What findMonthIndex finds.  The result is -1 exactly when no entry of
    the series is the requested month or has its index; otherwise it is the
    position of an entry that is the requested month or has its index, and
    no entry before it is the requested month. *)
Theorem findMonthIndex_spec (monthly : list MonthlyPricePoint) (m : Month) :
  let idx := findMonthIndex monthly m in
  (idx = (-1)%Z <-> forall pt, In pt monthly -> ~ answers (month pt) m)
  /\ (idx <> (-1)%Z ->
      exists (i : nat) (pt : MonthlyPricePoint),
        idx = Z.of_nat i /\ nth_error monthly i = Some pt
        /\ answers (month pt) m
        /\ forall j pt', (j < i)%nat -> nth_error monthly j = Some pt' ->
             month pt' <> m).
Proof.
  cbv zeta. unfold findMonthIndex, findIndex. cbv zeta.
  destruct (findIndexFrom_spec (fun pt => Month_eqb (month pt) m) monthly 0%Z)
    as [[H1 H2]|(i & x & H1 & H2 & H3 & H4)]; rewrite H1.
  - (* no entry is the requested month *)
    change ((-1 >=? 0)%Z) with false. cbv iota.
    assert (Hne : forall pt, In pt monthly -> month pt <> m).
    { intros pt Hpt E. apply Month_eqb_eq in E. rewrite (H2 pt Hpt) in E.
      discriminate. }
    destruct (monthToIndex m) as [want|] eqn:Hw.
    + match goal with
      | |- context [findIndexFrom ?f monthly 0%Z] =>
          destruct (findIndexFrom_spec f monthly 0%Z)
            as [[K1 K2]|(i & x & K1 & K2 & K3 & K4)]; rewrite K1
      end.
      * split; [|intro H; exfalso; apply H; reflexivity].
        split; [|reflexivity]. intros _ pt Hpt [E|(k & Ek & Ea)].
        -- exact (Hne pt Hpt E).
        -- specialize (K2 pt Hpt). cbv beta in K2. rewrite Ea in K2.
           assert (k = want) by congruence. subst k.
           rewrite Z.eqb_refl in K2. discriminate.
      * cbn [Z.add]. split.
        -- split; [lia|]. intro H. exfalso.
           apply nth_error_In in K2. apply (H x K2). right.
           exists want. split; [exact Hw|].
           destruct (monthToIndex (month x)) as [have|]; [|discriminate].
           apply Z.eqb_eq in K3. congruence.
        -- intros _. exists i, x. repeat split; try assumption.
           ++ right. exists want. split; [exact Hw|].
              destruct (monthToIndex (month x)) as [have|]; [|discriminate].
              apply Z.eqb_eq in K3. congruence.
           ++ intros j pt' Hj Hpt'. apply Hne. eapply nth_error_In; eauto.
    + split; [|intro H; exfalso; apply H; reflexivity].
      split; [|reflexivity]. intros _ pt Hpt [E|(k & Ek & _)];
        [exact (Hne pt Hpt E) | congruence].
  - (* some entry is the requested month *)
    replace (0 + Z.of_nat i >=? 0)%Z with true by (symmetry; apply Z.geb_le; lia).
    cbn [Z.add]. split.
    + split; [lia|]. intro H. exfalso.
      apply Month_eqb_eq in H3. apply nth_error_In in H2.
      apply (H x H2). left. exact H3.
    + intros _. exists i, x. repeat split; try assumption.
      * left. apply Month_eqb_eq. exact H3.
      * intros j pt' Hj Hpt' E. apply Month_eqb_eq in E.
        rewrite (H4 j pt' Hj Hpt') in E. discriminate.
Qed.

(** ** clamp *)

(** clamp without NaN.  When the bounds are in order the result lies
    between them, is [n] itself when [n] lies between them, the lower
    bound when [n] is below it and the upper bound when [n] is above it;
    when the bounds are crossed the result is the lower bound whatever [n]
    is.  A NaN among the three arguments gives NaN. *)
Theorem clamp_spec (n lo hi : jsnum) :
  (isNaN n || isNaN lo || isNaN hi = true -> clamp n lo hi = NaN)
  /\ (isNaN n || isNaN lo || isNaN hi = false ->
      (jle lo hi = true ->
       jle lo (clamp n lo hi) = true /\ jle (clamp n lo hi) hi = true
       /\ (jle lo n = true -> jle n hi = true -> jeq (clamp n lo hi) n = true)
       /\ (jle n lo = true -> jeq (clamp n lo hi) lo = true)
       /\ (jle hi n = true -> jeq (clamp n lo hi) hi = true))
      /\ (jlt hi lo = true -> clamp n lo hi = lo)).
Proof.
  split.
  - destruct n, lo, hi; cbn; try discriminate; try reflexivity;
      repeat match goal with |- context [if ?c then _ else _] => destruct c end;
      reflexivity.
  - intro Hnan. split.
    + intro Hle.
      destruct n as [n| | |], lo as [lo| | |], hi as [hi| | |];
        try discriminate; unfold clamp;
        cbn [math_min math_max jlt jle jeq] in *;
        repeat match goal with
               | |- context [Qltb ?a ?b] =>
                   let E := fresh "E" in
                   destruct (Qltb a b) eqn:E;
                   [apply Qltb_lt in E | apply Qltb_ge in E];
                   cbn [math_min math_max jlt jle jeq]
               end;
        repeat match goal with
               | H : Qle_bool _ _ = true |- _ => apply Qle_bool_iff in H
               end;
        repeat split; intros;
        repeat match goal with
               | H : Qle_bool _ _ = true |- _ => apply Qle_bool_iff in H
               end;
        try discriminate; try reflexivity;
        try (apply Qle_bool_iff; lra);
        try (apply Qeq_bool_iff; lra); try lra.
    + intro Hlt.
      destruct n as [n| | |], lo as [lo| | |], hi as [hi| | |];
        try discriminate; unfold clamp;
        cbn [math_min math_max jlt jle jeq] in *;
        repeat match goal with
               | |- context [Qltb ?a ?b] =>
                   let E := fresh "E" in
                   destruct (Qltb a b) eqn:E;
                   [apply Qltb_lt in E | apply Qltb_ge in E];
                   cbn [math_min math_max jlt jle jeq]
               end;
        try apply Qltb_lt in Hlt;
        try reflexivity; try discriminate; try (exfalso; lra).
Qed.

(** ** monthlyInflationRateFromAnnualPct *)

Section InflationRate.

Variable root12 : Q -> Q.
Hypothesis root12_pos : forall x, 0 < x -> 0 < root12 x.
Hypothesis root12_ge_1 : forall x, 1 <= x -> 1 <= root12 x.

Lemma monthlyInflationRate_default (annualPct : jsnum) :
  isFinite annualPct = false ->
  monthlyInflationRateFromAnnualPct root12 annualPct
  = monthlyInflationRateFromAnnualPct root12 (Fin 3).
Proof.
  intro Hnf. unfold monthlyInflationRateFromAnnualPct.
  destruct annualPct; try discriminate; reflexivity.
Qed.

Lemma monthlyInflationRate_Fin (a : Q) :
  exists r : Q,
    monthlyInflationRateFromAnnualPct root12 (Fin a) = Fin r
    /\ -1 < r /\ (0 <= a -> 0 <= r) /\ (a < -99 -> r == - (99 # 100)).
Proof.
  unfold monthlyInflationRateFromAnnualPct. cbn [isFinite].
  assert (H100 : ~ 100 == 0) by (intro H; discriminate H).
  change (Fin 100) with (Fin (100 # 1)).
  rewrite (jdiv_Fin a 100 H100). cbv zeta.
  destruct (jlt (Fin (a / 100)) (lit (-99) 100)) eqn:E.
  - unfold jlt, lit in E. apply Qltb_lt in E.
    exists (-99 # 100). split; [reflexivity|].
    split; [reflexivity|].
    split; [|intros; reflexivity].
    intro H0. exfalso.
    assert (0 <= a / 100) by (apply Qle_shift_div_l; lra).
    assert (-99 # 100 < 0) by reflexivity. lra.
  - unfold jlt, lit in E. apply Qltb_ge in E.
    assert (H99 : -99 # 100 == - (99 # 100)) by reflexivity.
    assert (Hpos : 0 < 1 + a / 100) by lra.
    cbn [jadd pow_1_12].
    destruct (Qltb (1 + a / 100) 0) eqn:E2.
    { apply Qltb_lt in E2. lra. }
    cbn [jsub jneg jadd].
    exists (root12 (1 + a / 100) + - 1). split; [reflexivity|].
    pose proof (root12_pos _ Hpos) as Hr.
    split; [lra|].
    split.
    + intro H0.
      assert (0 <= a / 100) by (apply Qle_shift_div_l; lra).
      assert (1 <= root12 (1 + a / 100)) by (apply root12_ge_1; lra).
      lra.
    + intro Hlow. exfalso.
      assert (a / 100 < - (99 # 100)).
      { apply Qlt_shift_div_r; [reflexivity|].
        assert (- (99 # 100) * 100 == -99) by reflexivity. lra. }
      lra.
Qed.

(** The monthly inflation rate.  For every argument it is a finite number
    above -1, so that [1 + monthlyInfl] is positive; an argument that is
    not finite counts as 3; an annual rate that is not negative gives a
    monthly rate that is not negative; an annual rate below -99% gives
    -0.99. *)
Theorem monthlyInflationRate_range (annualPct : jsnum) :
  exists r : Q,
    monthlyInflationRateFromAnnualPct root12 annualPct = Fin r
    /\ -1 < r
    /\ (isFinite annualPct = false ->
        monthlyInflationRateFromAnnualPct root12 annualPct
        = monthlyInflationRateFromAnnualPct root12 (Fin 3))
    /\ (forall a, annualPct = Fin a -> 0 <= a -> 0 <= r)
    /\ (forall a, annualPct = Fin a -> a < -99 -> r == - (99 # 100)).
Proof.
  destruct (isFinite annualPct) eqn:Hf.
  - apply finite_inv in Hf as [a ->].
    destruct (monthlyInflationRate_Fin a) as (r & Hr & H1 & H2 & H3).
    exists r. split; [exact Hr|]. split; [exact H1|].
    split; [discriminate|].
    split; intros a' E; injection E as <-; assumption.
  - destruct (monthlyInflationRate_Fin 3) as (r & Hr & H1 & _).
    exists r. rewrite (monthlyInflationRate_default _ Hf).
    split; [exact Hr|]. split; [exact H1|]. split; [reflexivity|].
    split; intros a E; rewrite E in Hf; discriminate.
Qed.

End InflationRate.

(** ** computeWithdrawal under the guardrails policy *)

(** How the guardrails rate follows the year-to-date return.  In a
    withdrawal month, from a rate within ordered bounds: after a finite
    return above 0.08 the rate is the old rate plus the step, or the
    maximum rate if that is less; after a finite return below 0.03 it is
    the old rate minus the step, or the minimum rate if that is more; after
    a return from 0.03 to 0.08, or one that is not finite, the state is
    unchanged.  The rate reported is the updated one. *)
Theorem guardrails_rate_follows_return
    rate init bal freq gs gc ytd base f res gs' (mn mx s c : Q) :
  minRate gc = Fin mn -> maxRate gc = Fin mx -> step gc = Fin s -> 0 <= s ->
  currentRate gs = Some (Fin c) -> mn <= c <= mx ->
  computeWithdrawal "guardrails" rate init bal freq gs gc ytd true base f
    = Ok (res, gs') ->
  exists c',
    currentRate gs' = Some (Fin c') /\ guardrailsRate res = Some (Fin c')
    /\ (forall y, ytd = Fin y -> 8 # 100 < y ->
          c <= c' /\ ((c + s <= mx /\ c' == c + s) \/ (mx <= c + s /\ c' == mx)))
    /\ (forall y, ytd = Fin y -> y < 3 # 100 ->
          c' <= c /\ ((mn <= c - s /\ c' == c - s) \/ (c - s <= mn /\ c' == mn)))
    /\ ((isFinite ytd = false \/ exists y, ytd = Fin y /\ 3 # 100 <= y <= 8 # 100) ->
        gs' = gs).
Proof.
  intros Hmn Hmx Hstep Hs Hc Hin. unfold computeWithdrawal. cbn [negb].
  change (("guardrails" =? "percentOfInitial")%string) with false.
  change (("guardrails" =? "percentOfCurrent")%string) with false.
  change (("guardrails" =? "guardrails")%string) with true.
  cbv iota zeta. rewrite Hmn, Hmx, Hstep, Hc. cbn [num_of].
  assert (H38 : 3 # 100 < 8 # 100) by reflexivity.
  destruct ytd as [y| | |]; cbn [isFinite].
  2-4: intros H; injection H as <- <-; exists c; rewrite Hc;
       (split; [reflexivity|]); (split; [reflexivity|]);
       (split; [intros y E; discriminate E|]);
       (split; [intros y E; discriminate E|]); intros _; reflexivity.
  unfold lit. cbn [jgt jlt].
  destruct (Qltb (8 # 100) y) eqn:E1; [apply Qltb_lt in E1 | apply Qltb_ge in E1].
  - cbn [jadd].
    destruct (clamp_Fin_spec (c + s) mn mx)
      as (c' & -> & H1 & H2 & H3 & H4 & H5 & H6).
    intros H; injection H as <- <-. exists c'. cbn [currentRate guardrailsRate].
    split; [reflexivity|]. split; [reflexivity|].
    split; [|split].
    + intros y' E _. injection E as <-.
      destruct (Qlt_le_dec mx (c + s)).
      * split; [use_facts|]. right. use_facts.
      * split; [use_facts|]. left. use_facts.
    + intros y' E Hy. injection E as <-. lra.
    + intros [H|(y' & E & Hy)]; [discriminate|]. injection E as <-. lra.
  - destruct (Qltb y (3 # 100)) eqn:E2; [apply Qltb_lt in E2 | apply Qltb_ge in E2].
    + cbn [jsub jneg jadd].
      destruct (clamp_Fin_spec (c + - s) mn mx)
        as (c' & -> & H1 & H2 & H3 & H4 & H5 & H6).
      intros H; injection H as <- <-. exists c'. cbn [currentRate guardrailsRate].
      split; [reflexivity|]. split; [reflexivity|].
      split; [|split].
      * intros y' E Hy. injection E as <-. lra.
      * intros y' E _. injection E as <-.
        destruct (Qlt_le_dec (c - s) mn).
        -- split; [use_facts|]. right. use_facts.
        -- split; [use_facts|]. left. use_facts.
      * intros [H|(y' & E & Hy)]; [discriminate|]. injection E as <-. lra.
    + intros H; injection H as <- <-. exists c. rewrite Hc.
      split; [reflexivity|]. split; [reflexivity|].
      split; [|split].
      * intros y' E Hy. injection E as <-. lra.
      * intros y' E Hy. injection E as <-. lra.
      * reflexivity.
Qed.

(** The dollar floor.  In a withdrawal month under the guardrails policy
    with finite numbers, the withdrawal computeWithdrawal returns is the
    balance times the updated rate (a twelfth of it when paid monthly), or
    the floor when the floor is positive and larger: it is never below a
    positive floor, even when the floor exceeds the balance. *)
Theorem guardrails_withdrawal_floor
    rate init freq gs gc ytd base f res gs' (b fl : Q) :
  FiniteRate gs -> FiniteConfig gc -> minDollarFloor gc = Fin fl ->
  computeWithdrawal "guardrails" rate init (Fin b) freq gs gc ytd true base f
    = Ok (res, gs') ->
  exists c' w : Q,
    num_of (currentRate gs') = Fin c' /\ withdrawal res = Fin w
    /\ let amount := if (freq =? "monthly")%string then b * c' / 12 else b * c' in
       (0 < fl -> fl <= w /\ amount <= w /\ (w == fl \/ w == amount))
       /\ (fl <= 0 -> w == amount).
Proof.
  intros Hgs [Hmin Hmax Hstep _] Hfl. unfold computeWithdrawal. cbn [negb].
  change (("guardrails" =? "percentOfInitial")%string) with false.
  change (("guardrails" =? "percentOfCurrent")%string) with false.
  change (("guardrails" =? "guardrails")%string) with true.
  cbv iota zeta. rewrite Hfl.
  set (gs1 := if isFinite ytd then _ else gs).
  assert (Hgs1 : FiniteRate gs1).
  { subst gs1. destruct (isFinite ytd); auto.
    destruct (jgt ytd _); [unfold FiniteRate; cbn; auto with fin|].
    destruct (jlt ytd _); [unfold FiniteRate; cbn; auto with fin|]. auto. }
  apply finite_num_of in Hgs1. apply finite_inv in Hgs1 as [c' Hc'].
  clearbody gs1. intros H; injection H as <- <-.
  exists c'. rewrite Hc'. cbn [withdrawal jmul].
  assert (H12 : ~ 12 == 0) by (intro H; discriminate H).
  change (Fin 12) with (Fin (12 # 1)). rewrite (jdiv_Fin _ 12 H12).
  cbn [jgt jlt].
  destruct (Qltb 0 fl) eqn:E; [apply Qltb_lt in E | apply Qltb_ge in E].
  - destruct (freq =? "monthly")%string; rewrite math_max_Fin;
      eexists; (split; [reflexivity|]); (split; [reflexivity|]); cbv zeta;
      (split; [|intro; lra]); intros _;
      match goal with
      | |- context [Qltb ?a ?b] =>
          destruct (Qltb a b) eqn:E'; [apply Qltb_lt in E' | apply Qltb_ge in E']
      end; repeat split; try lra; auto with qarith.
  - destruct (freq =? "monthly")%string;
      eexists; (split; [reflexivity|]); (split; [reflexivity|]); cbv zeta;
      (split; [intro; lra|]); intros _; reflexivity.
Qed.

(* ================================================================== *)
(** ** Concrete calls *)
(* ================================================================== *)

Module HelperExamples.

Lemma root12_tangent_pos (x : Q) : 0 < x -> 0 < Examples.root12_tangent x.
Proof.
  intro H. unfold Examples.root12_tangent.
  assert (- 1 < (x - 1) / 12) by (apply Qlt_shift_div_l; [reflexivity | lra]).
  lra.
Qed.

(** a good year: 1000 in the account, a rate of 5% between 3% and 6%, a
    floor of 60, a year-to-date return of 10%, paid once a year *)
Definition goodYearCall : result (WithdrawalResult * GuardrailsState) :=
  computeWithdrawal "guardrails" (Fin 0) (Fin 0) (lit 1000 1) "annual"
    (mkGuardrailsState (Some (lit 5 100)))
    (mkGuardrailsConfig (lit 3 100) (lit 6 100) (lit 25 10000) (lit 60 1))
    (lit 10 100) true (Fin 0) (Fin 1).

Definition goodYearResult : WithdrawalResult :=
  match goodYearCall with
  | Ok (res, _) => res
  | Throw _ => mkWithdrawalResult NaN None
  end.

Definition goodYearState : GuardrailsState :=
  match goodYearCall with
  | Ok (_, gs) => gs
  | Throw _ => mkGuardrailsState None
  end.

Lemma goodYearCall_ok : goodYearCall = Ok (goodYearResult, goodYearState).
Proof. vm_compute. reflexivity. Qed.

Lemma goodYearConfig_finite :
  FiniteConfig (mkGuardrailsConfig (lit 3 100) (lit 6 100) (lit 25 10000) (lit 60 1)).
Proof. constructor; reflexivity. Qed.

End HelperExamples.

Lemma monthToIndex_chronological_witness :
  ((23999 < 24000)%Z <->
   (year (mkMonth 1999 12) < year (mkMonth 2000 1))%Z
   \/ (year (mkMonth 1999 12) = year (mkMonth 2000 1)
       /\ (mon (mkMonth 1999 12) < mon (mkMonth 2000 1))%Z))
  /\ (23999%Z = 24000%Z <-> mkMonth 1999 12 = mkMonth 2000 1)
  /\ (24000%Z = (23999 + 1)%Z <->
      (year (mkMonth 2000 1) = year (mkMonth 1999 12)
       /\ mon (mkMonth 2000 1) = (mon (mkMonth 1999 12) + 1)%Z)
      \/ (year (mkMonth 2000 1) = (year (mkMonth 1999 12) + 1)%Z
          /\ mon (mkMonth 1999 12) = 12%Z /\ mon (mkMonth 2000 1) = 1%Z)).
Proof.
  exact (monthToIndex_chronological (mkMonth 1999 12) (mkMonth 2000 1) 23999 24000
           eq_refl eq_refl).
Defined.

Lemma monthlyInflationRate_range_witness :
  exists r : Q,
    monthlyInflationRateFromAnnualPct Examples.root12_tangent (Fin 3) = Fin r
    /\ -1 < r
    /\ (isFinite (Fin 3) = false ->
        monthlyInflationRateFromAnnualPct Examples.root12_tangent (Fin 3)
        = monthlyInflationRateFromAnnualPct Examples.root12_tangent (Fin 3))
    /\ (forall a, Fin 3 = Fin a -> 0 <= a -> 0 <= r)
    /\ (forall a, Fin 3 = Fin a -> a < -99 -> r == - (99 # 100)).
Proof.
  exact (monthlyInflationRate_range Examples.root12_tangent
           HelperExamples.root12_tangent_pos Examples.root12_tangent_ge_1 (Fin 3)).
Defined.

Lemma guardrails_rate_follows_return_witness :
  exists c',
    currentRate HelperExamples.goodYearState = Some (Fin c')
    /\ guardrailsRate HelperExamples.goodYearResult = Some (Fin c')
    /\ (forall y, lit 10 100 = Fin y -> 8 # 100 < y ->
          5 # 100 <= c'
          /\ (((5 # 100) + (25 # 10000) <= 6 # 100 /\ c' == (5 # 100) + (25 # 10000))
              \/ (6 # 100 <= (5 # 100) + (25 # 10000) /\ c' == 6 # 100)))
    /\ (forall y, lit 10 100 = Fin y -> y < 3 # 100 ->
          c' <= 5 # 100
          /\ ((3 # 100 <= (5 # 100) - (25 # 10000) /\ c' == (5 # 100) - (25 # 10000))
              \/ ((5 # 100) - (25 # 10000) <= 3 # 100 /\ c' == 3 # 100)))
    /\ ((isFinite (lit 10 100) = false
         \/ exists y, lit 10 100 = Fin y /\ 3 # 100 <= y <= 8 # 100) ->
        HelperExamples.goodYearState = mkGuardrailsState (Some (lit 5 100))).
Proof.
  apply (guardrails_rate_follows_return (Fin 0) (Fin 0) (lit 1000 1) "annual"
           (mkGuardrailsState (Some (lit 5 100)))
           (mkGuardrailsConfig (lit 3 100) (lit 6 100) (lit 25 10000) (lit 60 1))
           (lit 10 100) (Fin 0) (Fin 1)
           HelperExamples.goodYearResult HelperExamples.goodYearState
           (3 # 100) (6 # 100) (25 # 10000) (5 # 100)).
  - reflexivity.
  - reflexivity.
  - reflexivity.
  - discriminate.
  - reflexivity.
  - split; discriminate.
  - exact HelperExamples.goodYearCall_ok.
Defined.

Lemma guardrails_withdrawal_floor_witness :
  exists c' w : Q,
    num_of (currentRate HelperExamples.goodYearState) = Fin c'
    /\ withdrawal HelperExamples.goodYearResult = Fin w
    /\ let amount :=
         if ("annual" =? "monthly")%string then (1000 # 1) * c' / 12
         else (1000 # 1) * c' in
       (0 < 60 # 1 -> 60 # 1 <= w /\ amount <= w /\ (w == 60 # 1 \/ w == amount))
       /\ (60 # 1 <= 0 -> w == amount).
Proof.
  apply (guardrails_withdrawal_floor (Fin 0) (Fin 0) "annual"
           (mkGuardrailsState (Some (lit 5 100)))
           (mkGuardrailsConfig (lit 3 100) (lit 6 100) (lit 25 10000) (lit 60 1))
           (lit 10 100) (Fin 0) (Fin 1)
           HelperExamples.goodYearResult HelperExamples.goodYearState
           (1000 # 1) (60 # 1)).
  - reflexivity.
  - exact HelperExamples.goodYearConfig_finite.
  - reflexivity.
  - exact HelperExamples.goodYearCall_ok.
Defined.

(* ================================================================== *)
(** ** The start years of the two copies of the sweep *)
(* ================================================================== *)

Section SweepCopies.

Variable root12 : Q -> Q.

(** past the last start month whose run fits the series, the loop of the
    client sweep records nothing *)
Lemma client_startLoop_past_end p returns : forall count i acc acc',
  (Z.of_nat i + durationYears p * 12 > Z.of_nat (length (monthly p)))%Z ->
  Client.startLoop root12 p returns i count acc = Ok acc' -> acc' = acc.
Proof.
  induction count as [|n IH]; intros i acc acc' Hi H; cbn [Client.startLoop] in H.
  - injection H as <-. reflexivity.
  - destruct (nth_error (monthly p) i) as [pt|]; [|discriminate].
    cbv zeta in H.
    destruct (negb (mon (month pt) =? 1)%Z).
    + apply (IH (S i)); [lia | exact H].
    + replace (Z.of_nat i + durationYears p * 12 >? Z.of_nat (length (monthly p)))%Z
        with true in H by (symmetry; rewrite Z.gtb_ltb; apply Z.ltb_lt; lia).
      injection H as <-. reflexivity.
Qed.

(** the loops of the two copies over the start months: the client copy
    records what the server copy records, and at most one start year more *)
Lemma startLoop_copies p : forall count i acc accC,
  Client.startLoop root12 p (buildReturns (monthly p)) i count acc = Ok accC ->
  exists accS,
    Sweep.startLoop root12 p (buildReturns (monthly p)) i count acc = Ok accS
    /\ (accC = accS
        \/ exists j pt st,
             nth_error (monthly p) j = Some pt
             /\ (Z.of_nat j + durationYears p * 12
                 = Z.of_nat (length (monthly p)))%Z
             /\ Sweep.runStartYear root12 p (buildReturns (monthly p)) j pt = Ok st
             /\ accC = recorded p pt st accS).
Proof.
  induction count as [|n IH]; intros i acc accC H;
    cbn [Client.startLoop Sweep.startLoop] in *.
  - injection H as <-. exists acc. split; [reflexivity | left; reflexivity].
  - destruct (nth_error (monthly p) i) as [pt|] eqn:Hpt; [|discriminate].
    cbv zeta in *.
    destruct (negb (mon (month pt) =? 1)%Z); [apply IH; exact H|].
    destruct (Z.of_nat i + durationYears p * 12 >? Z.of_nat (length (monthly p)))%Z
      eqn:E1.
    + (* the run does not fit: both stop *)
      injection H as <-.
      rewrite Z.gtb_ltb in E1. apply Z.ltb_lt in E1.
      replace (Z.of_nat i + durationYears p * 12
               >? Z.of_nat (length (monthly p)) - 1)%Z
        with true by (symmetry; rewrite Z.gtb_ltb; apply Z.ltb_lt; lia).
      exists acc. split; [reflexivity | left; reflexivity].
    + rewrite Z.gtb_ltb in E1. apply Z.ltb_ge in E1.
      rewrite client_runStartYear_eq in H.
      destruct (Sweep.runStartYear root12 p (buildReturns (monthly p)) i pt)
        as [st|e] eqn:Hrun; [|discriminate].
      cbn [bind] in H.
      destruct (Z.of_nat i + durationYears p * 12
                >? Z.of_nat (length (monthly p)) - 1)%Z eqn:E2.
      * (* the run fits exactly: the server copy stops, the client copy
           records it and nothing after it *)
        rewrite Z.gtb_ltb in E2. apply Z.ltb_lt in E2.
        apply client_startLoop_past_end in H; [|lia].
        exists acc. split; [reflexivity|]. right.
        exists i, pt, st. repeat split; auto. lia.
      * cbn [bind]. apply IH. exact H.
Qed.

(** The client sweep tests the start years of the server sweep, and at
    most one more.  When the client copy of the sweep returns, so does the
    server copy; the results of the client copy are those of the server
    copy, followed by at most one result: that of the start month whose
    run ends exactly with the price series, which the server copy leaves
    out. *)
Theorem client_sweep_extends_server_sweep (p : Params) (outC : SweepResult.t) :
  Client.runRetirementSuccessByStartYear root12 p = Ok outC ->
  exists (outS : SweepResult.t) (extra : list YearOutcome.t),
    Sweep.runRetirementSuccessByStartYear root12 p = Ok outS
    /\ SweepResult.results outC = SweepResult.results outS ++ extra
    /\ (length extra <= 1)%nat
    /\ (forall y, In y extra ->
          exists j pt,
            nth_error (monthly p) j = Some pt
            /\ YearOutcome.startYear y = year (month pt)
            /\ (Z.of_nat j + durationYears p * 12
                = Z.of_nat (length (monthly p)))%Z).
Proof.
  intro Hrun.
  apply client_runRetirementSuccessByStartYear_inv in Hrun as (_ & accC & Hloop & ->).
  apply startLoop_copies in Hloop as (accS & HS & Hrel).
  unfold Sweep.runRetirementSuccessByStartYear. cbv zeta. rewrite HS. cbn [bind].
  eexists. destruct Hrel as [->|(j & pt & st & Hpt & Hj & Hst & ->)].
  - exists []. split; [reflexivity|]. rewrite app_nil_r.
    split; [reflexivity|]. split; [cbn; lia|]. intros y [].
  - eexists [_]. split; [reflexivity|].
    split; [reflexivity|]. split; [cbn; lia|].
    intros y [<-|[]]. exists j, pt. cbn [YearOutcome.startYear].
    repeat split; auto.
Qed.

End SweepCopies.

(* ================================================================== *)
(** * The request validation of the server ([index.js]) *)
(* ================================================================== *)

Module Route.

Section Values.

(** arrays and objects *)
Variable other : Type.
(** [Number(s)] on a string, [Number(o)] on an array or an object *)
Variable numberOfString : string -> jsnum.
Variable numberOfOther : other -> jsnum.

(** a value of the parsed request body *)
Inductive value : Type :=
| Undefined
| Null
| Bool (b : bool)
| Num (x : jsnum)
| Str (s : string)
| Other (o : other).

(** [Number(val)] *)
Definition Number (val : value) : jsnum :=
  match val with
  | Undefined => NaN
  | Null => Fin 0
  | Bool b => if b then Fin 1 else Fin 0
  | Num x => x
  | Str s => numberOfString s
  | Other o => numberOfOther o
  end.

(** [val === undefined || val === null || val === ""] *)
Definition blank (val : value) : bool :=
  match val with
  | Undefined | Null => true
  | Str s => (s =? "")%string
  | _ => false
  end.

(** toNumber(val, fallback = null) *)
Definition toNumber (val : value) (fallback : option jsnum) : option jsnum :=
  let n := Number val in
  if isFinite n then Some n else fallback.

(** [!x] on a number or [null] *)
Definition falsy (x : option jsnum) : bool :=
  match x with
  | None => true
  | Some n => isNaN n || jeq n (Fin 0)
  end.

(** the errors of the two validators *)
Inductive error : Type :=
| GuardrailsStartNotPositive
| GuardrailsMinNegative
| GuardrailsMaxNotPositive
| GuardrailsMinAboveMax
| GuardrailsStartOutside
| GuardrailsFloorNegative
| InflationOutOfRange.

(** what validateGuardrailsInputs returns *)
Record Guardrails : Type := mkGuardrails {
  startPct : jsnum;
  minPct : jsnum;
  maxPct : jsnum;
  minDollar : jsnum
}.

Definition validateGuardrailsInputs
    (withdrawValue guardrailsMinPct guardrailsMaxPct guardrailsMinDollar : value)
  : outcome error Guardrails :=
  let startPct := toNumber withdrawValue None in
  let minPct := toNumber guardrailsMinPct None in
  let maxPct := toNumber guardrailsMaxPct None in
  let minDollar :=
    if blank guardrailsMinDollar then None else toNumber guardrailsMinDollar None in
  match startPct with
  | None => Thrown GuardrailsStartNotPositive
  | Some startPct =>
      if falsy (Some startPct) || jle startPct (Fin 0)
      then Thrown GuardrailsStartNotPositive
      else
        match minPct with
        | None => Thrown GuardrailsMinNegative
        | Some minPct =>
            if jlt minPct (Fin 0) then Thrown GuardrailsMinNegative
            else
              match maxPct with
              | None => Thrown GuardrailsMaxNotPositive
              | Some maxPct =>
                  if jle maxPct (Fin 0) then Thrown GuardrailsMaxNotPositive
                  else if jgt minPct maxPct then Thrown GuardrailsMinAboveMax
                  else if jlt startPct minPct || jgt startPct maxPct
                  then Thrown GuardrailsStartOutside
                  else
                    match minDollar with
                    | Some d =>
                        if negb (isFinite d) || jlt d (Fin 0)
                        then Thrown GuardrailsFloorNegative
                        else Returned (mkGuardrails startPct minPct maxPct d)
                    | None =>
                        Returned (mkGuardrails startPct minPct maxPct (Fin 0))
                    end
              end
        end
  end.

Definition validateInflationAdjustedOptions
    (percentOfCurrentAnnualInflationPct percentOfCurrentAnnualIncreasePct : value)
  : outcome error jsnum :=
  let raw :=
    if negb (blank percentOfCurrentAnnualInflationPct)
    then percentOfCurrentAnnualInflationPct
    else percentOfCurrentAnnualIncreasePct in
  let inf := if blank raw then Some (Fin 3) else toNumber raw None in
  match inf with
  | None => Thrown InflationOutOfRange
  | Some inf =>
      if negb (isFinite inf) || jlt inf (Fin (-50)) || jgt inf (Fin 100)
      then Thrown InflationOutOfRange
      else Returned inf
  end.

End Values.

Arguments Undefined {other}.
Arguments Null {other}.
Arguments Bool {other} b.
Arguments Num {other} x.
Arguments Str {other} s.
Arguments Number {other} numberOfString numberOfOther val.
Arguments blank {other} val.
Arguments toNumber {other} numberOfString numberOfOther val fallback.
Arguments validateGuardrailsInputs {other} numberOfString numberOfOther
  withdrawValue guardrailsMinPct guardrailsMaxPct guardrailsMinDollar.
Arguments validateInflationAdjustedOptions {other} numberOfString numberOfOther
  percentOfCurrentAnnualInflationPct percentOfCurrentAnnualIncreasePct.

End Route.

(* ================================================================== *)
(** ** What the validators let through *)
(* ================================================================== *)

Section RouteProperties.

Variable other : Type.
Variable numberOfString : string -> jsnum.
Variable numberOfOther : other -> jsnum.

Lemma toNumber_Some (val : Route.value other) (x : jsnum) :
  Route.toNumber numberOfString numberOfOther val None = Some x ->
  Route.Number numberOfString numberOfOther val = x /\ exists q, x = Fin q.
Proof.
  unfold Route.toNumber.
  destruct (isFinite (Route.Number _ _ val)) eqn:E; [|discriminate].
  intro H; injection H as <-. split; [reflexivity|].
  apply finite_inv. exact E.
Qed.

(** what an accepting call of validateGuardrailsInputs went through *)
Lemma validateGuardrailsInputs_inv
    (rawStart rawMin rawMax rawFloor : Route.value other) (g : Route.Guardrails) :
  Route.validateGuardrailsInputs numberOfString numberOfOther
    rawStart rawMin rawMax rawFloor = Returned g ->
  exists s mn mx fl : Q,
    Route.Number numberOfString numberOfOther rawStart = Fin s
    /\ Route.Number numberOfString numberOfOther rawMin = Fin mn
    /\ Route.Number numberOfString numberOfOther rawMax = Fin mx
    /\ g = Route.mkGuardrails (Fin s) (Fin mn) (Fin mx) (Fin fl)
    /\ 0 < s /\ 0 <= mn /\ mn <= s /\ s <= mx /\ 0 <= fl
    /\ Fin fl
       = (if Route.blank rawFloor then Fin 0
          else if isFinite (Route.Number numberOfString numberOfOther rawFloor)
               then Route.Number numberOfString numberOfOther rawFloor
               else Fin 0).
Proof.
  unfold Route.validateGuardrailsInputs. cbv zeta.
  destruct (Route.toNumber _ _ rawStart None) as [s|] eqn:Es; [|discriminate].
  apply toNumber_Some in Es as [Es [qs ->]].
  cbn [Route.falsy isNaN jeq jle orb].
  destruct (Qeq_bool qs 0 || Qle_bool qs 0) eqn:E1; [discriminate|].
  apply orb_false_elim in E1 as [_ E1]. apply Qle_bool_gt in E1.
  destruct (Route.toNumber _ _ rawMin None) as [mn|] eqn:Emn; [|discriminate].
  apply toNumber_Some in Emn as [Emn [qmn ->]].
  cbn [jlt]. destruct (Qltb qmn 0) eqn:E2; [discriminate|]. apply Qltb_ge in E2.
  destruct (Route.toNumber _ _ rawMax None) as [mx|] eqn:Emx; [|discriminate].
  apply toNumber_Some in Emx as [Emx [qmx ->]].
  cbn [jle jgt jlt].
  destruct (Qle_bool qmx 0) eqn:E3; [discriminate|].
  destruct (Qltb qmx qmn) eqn:E4; [discriminate|]. apply Qltb_ge in E4.
  destruct (Qltb qs qmn) eqn:E5; [discriminate|]. apply Qltb_ge in E5.
  destruct (Qltb qmx qs) eqn:E6; [discriminate|]. apply Qltb_ge in E6.
  cbn [orb].
  destruct (Route.blank rawFloor).
  - intro H; injection H as <-.
    exists qs, qmn, qmx, 0. repeat split; auto; lra.
  - unfold Route.toNumber.
    destruct (isFinite (Route.Number _ _ rawFloor)) eqn:Ef.
    + apply finite_inv in Ef as [d Ed]. rewrite Ed. cbn [isFinite negb orb jlt].
      destruct (Qltb d 0) eqn:E7; [discriminate|]. apply Qltb_ge in E7.
      intro H; injection H as <-.
      exists qs, qmn, qmx, d. repeat split; auto.
    + intro H; injection H as <-.
      exists qs, qmn, qmx, 0. repeat split; auto; lra.
Qed.


(** The dollar floor through the validator.  The floor returned is 0 when
    the field is blank or is not a finite number, and the number otherwise;
    the validator throws its floor error only for a finite negative number:
    a floor that is not a number is not rejected. *)
Theorem validateGuardrailsInputs_floor
    (rawStart rawMin rawMax rawFloor : Route.value other) :
  (forall g,
     Route.validateGuardrailsInputs numberOfString numberOfOther
       rawStart rawMin rawMax rawFloor = Returned g ->
     Route.minDollar g
     = if Route.blank rawFloor then Fin 0
       else if isFinite (Route.Number numberOfString numberOfOther rawFloor)
            then Route.Number numberOfString numberOfOther rawFloor
            else Fin 0)
  /\ (Route.validateGuardrailsInputs numberOfString numberOfOther
        rawStart rawMin rawMax rawFloor
      = Thrown Route.GuardrailsFloorNegative ->
      Route.blank rawFloor = false
      /\ exists d, Route.Number numberOfString numberOfOther rawFloor = Fin d
                   /\ d < 0).
Proof.
  split.
  - intros g Hv. apply validateGuardrailsInputs_inv in Hv
      as (s & mn & mx & fl & _ & _ & _ & -> & _ & _ & _ & _ & _ & Hfl).
    exact Hfl.
  - unfold Route.validateGuardrailsInputs. cbv zeta.
    destruct (Route.toNumber _ _ rawStart None) as [s|]; [|discriminate].
    destruct (_ || _); [discriminate|].
    destruct (Route.toNumber _ _ rawMin None) as [mn|]; [|discriminate].
    destruct (jlt mn (Fin 0)); [discriminate|].
    destruct (Route.toNumber _ _ rawMax None) as [mx|]; [|discriminate].
    destruct (jle mx (Fin 0)); [discriminate|].
    destruct (jgt mn mx); [discriminate|].
    destruct (_ || _); [discriminate|].
    destruct (Route.blank rawFloor); [discriminate|].
    unfold Route.toNumber.
    destruct (isFinite (Route.Number _ _ rawFloor)) eqn:Ef; [|discriminate].
    apply finite_inv in Ef as [d Ed]. rewrite Ed. cbn [isFinite negb orb jlt].
    destruct (Qltb d 0) eqn:E; [|discriminate]. apply Qltb_lt in E.
    intros _. split; [reflexivity|]. exists d. split; [reflexivity | exact E].
Qed.

(** What validateInflationAdjustedOptions lets through.  The assumption
    returned is a finite number from -50 to 100: the first field when it is
    not blank, else the second, else 3.  With it the engine uses neither
    its own default nor its floor of -0.99: the monthly rate is the twelfth
    root of [1 + assumption/100], less 1. *)
Theorem validated_inflation_option
    (first second : Route.value other) (inf : jsnum) :
  Route.validateInflationAdjustedOptions numberOfString numberOfOther first second
  = Returned inf ->
  exists q : Q,
    inf = Fin q /\ -50 <= q <= 100
    /\ (Route.blank first = false ->
        Route.Number numberOfString numberOfOther first = Fin q)
    /\ (Route.blank first = true -> Route.blank second = false ->
        Route.Number numberOfString numberOfOther second = Fin q)
    /\ (Route.blank first = true -> Route.blank second = true -> inf = Fin 3)
    /\ (forall (root12 : Q -> Q) (p : Params) (gc : GuardrailsConfig),
          percentOfCurrentAnnualInflationPct p = inf ->
          monthlyInfl (consts root12 p gc) = Fin (root12 (1 + q / 100) - 1)).
Proof.
  unfold Route.validateInflationAdjustedOptions. cbv zeta.
  set (raw := if negb (Route.blank first) then first else second).
  assert (Hraw : (Route.blank first = false -> raw = first)
                 /\ (Route.blank first = true -> raw = second)).
  { subst raw. destruct (Route.blank first); split; intro; try discriminate;
      reflexivity. }
  destruct Hraw as [Hr1 Hr2].
  assert (Hinf : forall x,
             (if Route.blank raw then Some (Fin 3)
              else Route.toNumber numberOfString numberOfOther raw None) = Some x ->
             (Route.blank raw = true /\ x = Fin 3)
             \/ (Route.blank raw = false
                 /\ Route.Number numberOfString numberOfOther raw = x)).
  { intros x. destruct (Route.blank raw).
    - intro H; injection H as <-. left. split; reflexivity.
    - intro H. apply toNumber_Some in H as [H _]. right. split; [reflexivity|exact H]. }
  destruct (if Route.blank raw then _ else _) as [x|]; [|discriminate].
  specialize (Hinf x eq_refl).
  destruct x as [q| | |]; cbn [isFinite negb orb]; try discriminate.
  cbn [jlt jgt].
  destruct (Qltb q (-50)) eqn:E1; [discriminate|]. apply Qltb_ge in E1.
  destruct (Qltb 100 q) eqn:E2; [discriminate|]. apply Qltb_ge in E2.
  cbn [orb]. intro H; injection H as <-.
  exists q. split; [reflexivity|]. split; [split; assumption|].
  split; [|split; [|split]].
  - intro Hb. rewrite (Hr1 Hb) in Hinf.
    destruct Hinf as [[H _]|[_ H]]; [congruence|exact H].
  - intros Hb1 Hb2. rewrite (Hr2 Hb1) in Hinf.
    destruct Hinf as [[H _]|[_ H]]; [congruence|exact H].
  - intros Hb1 Hb2. rewrite (Hr2 Hb1) in Hinf.
    destruct Hinf as [[_ H]|[H _]]; [exact H|congruence].
  - intros root12 p gc Hp. cbn [consts monthlyInfl]. rewrite Hp. cbn [isFinite].
    unfold monthlyInflationRateFromAnnualPct. cbn [isFinite].
    assert (H100 : ~ 100 == 0) by (intro H; discriminate H).
    change (Fin 100) with (Fin (100 # 1)). rewrite (jdiv_Fin q 100 H100). cbv zeta.
    assert (Hq : - (1 # 2) <= q / 100).
    { apply Qle_shift_div_l; [reflexivity|].
      assert (- (1 # 2) * 100 == -50) by reflexivity. lra. }
    assert (H99 : -99 # 100 < - (1 # 2)) by reflexivity.
    unfold lit. cbn [jlt].
    replace (Qltb (q / 100) (-99 # 100)) with false
      by (symmetry; apply Qltb_ge; lra).
    cbn [jadd pow_1_12].
    replace (Qltb (1 + q / 100) 0) with false by (symmetry; apply Qltb_ge; lra).
    reflexivity.
Qed.

End RouteProperties.

(* ================================================================== *)
(** * The inflation calculators of the server ([index.js]) *)
(* ================================================================== *)

Module Inflation.

(** The inflation dataset.  [byYear] is the [Map] from a year to its row,
    of which the calculators read [avgRatePct] only; the years of the
    dataset are whole numbers (the loader keeps [Math.floor(n)] or four
    digits). *)
Record Dataset : Type := mkDataset {
  byYear : Z -> option jsnum;
  firstYear : Z;
  lastYear : Z
}.

Inductive error : Type :=
| MetaLooksWrong
| StartYearNotNumber
| DurationNotPositive
| AmountNotPositive
| RangeOutside
| DurationTooLarge
| MissingYear (y : Z)
| NonPositiveFactor (y : Z).

(** [Math.floor] *)
Definition math_floor (x : jsnum) : jsnum :=
  match x with
  | Fin q => Fin (inject_Z (Qfloor q))
  | _ => x
  end.

(** the whole number a finite result of [Math.floor] is *)
Definition intOf (x : jsnum) : Z :=
  match x with
  | Fin q => Qfloor q
  | _ => 0%Z
  end.

(** assertInflationMeta; with whole-number years its first test
    ([Number.isFinite]) always passes *)
Definition assertInflationMeta (inflation : Dataset) : outcome error unit :=
  let f := firstYear inflation in
  let l := lastYear inflation in
  if ((f <? 1800) || (l <? 1800) || (l <? f))%Z then Thrown MetaLooksWrong
  else Returned tt.

(** an entry of the series of runInflationWindow *)
Module Entry.
Record t : Type := mk {
  year : Z;
  avgInflationPct : jsnum;
  cumulativeFactor : jsnum;
  futureEquivalent : jsnum;
  realValueInStartDollars : jsnum
}.
End Entry.

Module Window.
Record t : Type := mk {
  amount : jsnum;
  startYear : Z;
  endYear : Z;
  durationYears : Z;
  cumulativeInflationFactor : jsnum;
  futureEquivalentSameBuyingPower : jsnum;
  purchasingPowerInStartDollars : jsnum;
  series : list Entry.t
}.
End Window.

(** [for (let y = ...; y <= eY; y++)] of runInflationWindow, [count] years
    from [y] *)
Fixpoint windowLoop (inflation : Dataset) (amount : jsnum)
    (y : Z) (count : nat) (factor : jsnum) (series : list Entry.t)
  : outcome error (jsnum * list Entry.t) :=
  match count with
  | O => Returned (factor, series)
  | S n =>
      match byYear inflation y with
      | None => Thrown (MissingYear y)
      | Some avgRatePct =>
          let r := jdiv avgRatePct (Fin 100) in
          let mult := jadd (Fin 1) r in
          if jle mult (Fin 0) then Thrown (NonPositiveFactor y)
          else
            let factor := jmul factor mult in
            let futureEquivalent := jmul amount factor in
            let realValueInStartDollars := jdiv amount factor in
            windowLoop inflation amount (y + 1)%Z n factor
              (series ++ [Entry.mk y avgRatePct factor futureEquivalent
                            realValueInStartDollars])
      end
  end.

(** runInflationWindow; [amount], [startYear] and [durationYears] are
    numbers or [null], as toNumber returns them *)
Definition runInflationWindow (inflation : Dataset)
    (amount startYear durationYears : option jsnum) : outcome error Window.t :=
  match assertInflationMeta inflation with
  | Thrown e => Thrown e
  | Returned _ =>
      let sY := math_floor (num_of startYear) in
      let years := math_floor (num_of durationYears) in
      if negb (isFinite sY) then Thrown StartYearNotNumber
      else if negb (isFinite years) || jle years (Fin 0)
      then Thrown DurationNotPositive
      else
        match amount with
        | None => Thrown AmountNotPositive
        | Some amount =>
            if negb (isFinite amount) || jle amount (Fin 0)
            then Thrown AmountNotPositive
            else
              let sY := intOf sY in
              let years := intOf years in
              let eY := (sY + years - 1)%Z in
              if ((sY <? firstYear inflation) || (eY >? lastYear inflation))%Z
              then Thrown RangeOutside
              else
                match windowLoop inflation amount sY (Z.to_nat (eY - sY + 1))
                        (Fin 1) [] with
                | Thrown e => Thrown e
                | Returned (factor, series) =>
                    Returned (Window.mk amount sY eY years factor
                                (jmul amount factor) (jdiv amount factor) series)
                end
        end
  end.

(** a result of runInflationSweep *)
Module SweepEntry.
Record t : Type := mk {
  startYear : Z;
  endYear : Z;
  startAmount : jsnum;
  endAmount : jsnum;
  realValueInStartDollars : jsnum;
  cumulativeFactor : jsnum;
  avgInflationPct : jsnum
}.
End SweepEntry.

Module SweepSummary.
Record t : Type := mk {
  startYearsTested : nat;
  firstStartYear : Z;
  lastStartYear : Z
}.
End SweepSummary.

Module Sweep.
Record t : Type := mk {
  amount : jsnum;
  durationYears : Z;
  summary : SweepSummary.t;
  results : list SweepEntry.t
}.
End Sweep.

(** the loop over the years of one start year of runInflationSweep *)
Fixpoint sweepYearLoop (inflation : Dataset)
    (y : Z) (count : nat) (factor sumInfl : jsnum) : outcome error (jsnum * jsnum) :=
  match count with
  | O => Returned (factor, sumInfl)
  | S n =>
      match byYear inflation y with
      | None => Thrown (MissingYear y)
      | Some avgRatePct =>
          let r := jdiv avgRatePct (Fin 100) in
          let mult := jadd (Fin 1) r in
          if jle mult (Fin 0) then Thrown (NonPositiveFactor y)
          else sweepYearLoop inflation (y + 1)%Z n
                 (jmul factor mult) (jadd sumInfl avgRatePct)
      end
  end.

(** the loop over the start years, [count] of them from [startYear] *)
Fixpoint sweepLoop (inflation : Dataset) (amount : jsnum) (years : Z)
    (startYear : Z) (count : nat) (results : list SweepEntry.t)
  : outcome error (list SweepEntry.t) :=
  match count with
  | O => Returned results
  | S n =>
      let endYear := (startYear + years - 1)%Z in
      match sweepYearLoop inflation startYear
              (Z.to_nat (endYear - startYear + 1)) (Fin 1) (Fin 0) with
      | Thrown e => Thrown e
      | Returned (factor, sumInfl) =>
          sweepLoop inflation amount years (startYear + 1)%Z n
            (results ++ [SweepEntry.mk startYear endYear amount
                           (jmul amount factor) (jdiv amount factor) factor
                           (jdiv sumInfl (Fin (inject_Z years)))])
      end
  end.

Definition runInflationSweep (inflation : Dataset)
    (amount durationYears : option jsnum) : outcome error Sweep.t :=
  match assertInflationMeta inflation with
  | Thrown e => Thrown e
  | Returned _ =>
      let years := math_floor (num_of durationYears) in
      if negb (isFinite years) || jle years (Fin 0)
      then Thrown DurationNotPositive
      else
        match amount with
        | None => Thrown AmountNotPositive
        | Some amount =>
            if negb (isFinite amount) || jle amount (Fin 0)
            then Thrown AmountNotPositive
            else
              let years := intOf years in
              let first := firstYear inflation in
              let last := lastYear inflation in
              let maxStartYear := (last - years + 1)%Z in
              if (maxStartYear <? first)%Z then Thrown DurationTooLarge
              else
                match sweepLoop inflation amount years first
                        (Z.to_nat (maxStartYear - first + 1)) [] with
                | Thrown e => Thrown e
                | Returned results =>
                    Returned (Sweep.mk amount years
                                (SweepSummary.mk (length results) first maxStartYear)
                                results)
                end
        end
  end.

End Inflation.

(* ================================================================== *)
(** ** Properties of the inflation calculators *)
(* ================================================================== *)

(** the years [y], [y + 1], ..., [n] of them *)
Fixpoint yearsFrom (y : Z) (n : nat) : list Z :=
  match n with
  | O => []
  | S k => y :: yearsFrom (y + 1)%Z k
  end.

Lemma yearsFrom_length y n : length (yearsFrom y n) = n.
Proof.
  revert y; induction n as [|k IH]; intro y; cbn; [reflexivity|]. f_equal. apply IH.
Qed.








Lemma math_floor_finite (x : jsnum) :
  isFinite (Inflation.math_floor x) = true ->
  Inflation.math_floor x = Fin (inject_Z (Inflation.intOf (Inflation.math_floor x))).
Proof.
  destruct x as [q| | |]; cbn [Inflation.math_floor Inflation.intOf isFinite];
    try discriminate.
  intros _. rewrite Qfloor_Z. reflexivity.
Qed.

Lemma jle_inject_Z_0 (z : Z) : jle (Fin (inject_Z z)) (Fin 0) = false -> (0 < z)%Z.
Proof.
  cbn [jle]. intro H. apply Qle_bool_gt in H.
  change 0 with (inject_Z 0) in H. rewrite <- Zlt_Qlt in H. exact H.
Qed.

(** what a returning call of runInflationWindow went through *)
Lemma runInflationWindow_inv d amount startYear durationYears w :
  Inflation.runInflationWindow d amount startYear durationYears = Returned w ->
  exists (amt : Q) (sY years : Z) f ser,
    (1800 <= Inflation.firstYear d <= Inflation.lastYear d)%Z
    /\ amount = Some (Fin amt) /\ 0 < amt
    /\ Inflation.math_floor (num_of startYear) = Fin (inject_Z sY)
    /\ Inflation.math_floor (num_of durationYears) = Fin (inject_Z years)
    /\ (0 < years)%Z
    /\ (Inflation.firstYear d <= sY)%Z
    /\ (sY + years - 1 <= Inflation.lastYear d)%Z
    /\ Inflation.windowLoop d (Fin amt) sY (Z.to_nat years) (Fin 1) []
       = Returned (f, ser)
    /\ w = Inflation.Window.mk (Fin amt) sY (sY + years - 1) years f
             (jmul (Fin amt) f) (jdiv (Fin amt) f) ser.
Proof.
  unfold Inflation.runInflationWindow, Inflation.assertInflationMeta. cbv zeta.
  destruct (_ || _ || _)%bool eqn:Hmeta; [discriminate|].
  apply orb_false_elim in Hmeta as [Hmeta H3].
  apply orb_false_elim in Hmeta as [H1 H2].
  apply Z.ltb_ge in H1, H2, H3.
  destruct (isFinite (Inflation.math_floor (num_of startYear))) eqn:Hs;
    cbn [negb]; [|discriminate].
  destruct (isFinite (Inflation.math_floor (num_of durationYears))) eqn:Hy;
    cbn [negb orb]; [|discriminate].
  apply math_floor_finite in Hs, Hy.
  set (sY := Inflation.intOf (Inflation.math_floor (num_of startYear))) in *.
  set (years := Inflation.intOf (Inflation.math_floor (num_of durationYears))) in *.
  rewrite Hy.
  destruct (jle (Fin (inject_Z years)) (Fin 0)) eqn:Hpos; [discriminate|].
  apply jle_inject_Z_0 in Hpos.
  destruct amount as [[amt| | |]|]; cbn [isFinite negb orb]; try discriminate.
  cbn [jle]. destruct (Qle_bool amt 0) eqn:Ha; [discriminate|].
  apply Qle_bool_gt in Ha.
  destruct (sY <? Inflation.firstYear d)%Z eqn:Hlo; [discriminate|].
  destruct (sY + years - 1 >? Inflation.lastYear d)%Z eqn:Hhi; [discriminate|].
  cbn [orb]. apply Z.ltb_ge in Hlo. rewrite Z.gtb_ltb in Hhi. apply Z.ltb_ge in Hhi.
  replace (sY + years - 1 - sY + 1)%Z with years by lia.
  destruct (Inflation.windowLoop _ _ _ _ _ _) as [[f ser]|e] eqn:Hloop;
    [|discriminate].
  intro H; injection H as <-.
  exists amt, sY, years, f, ser. repeat split; auto; lia.
Qed.



(** the loop of runInflationWindow returns exactly when every one of its
    years is in the dataset with a positive multiplier *)
Lemma windowLoop_returns_iff d amount : forall count y f ser,
  (exists res, Inflation.windowLoop d amount y count f ser = Returned res)
  <-> (forall z, (y <= z < y + Z.of_nat count)%Z ->
         exists r, Inflation.byYear d z = Some r
                   /\ jle (jadd (Fin 1) (jdiv r (Fin 100))) (Fin 0) = false).
Proof.
  induction count as [|n IH]; intros y f ser; cbn [Inflation.windowLoop].
  - split; [intros _ z Hz; lia | intros _; eauto].
  - destruct (Inflation.byYear d y) as [r|] eqn:Hr.
    + cbv zeta.
      destruct (jle (jadd (Fin 1) (jdiv r (Fin 100))) (Fin 0)) eqn:Em.
      * split; [intros [res H]; discriminate|].
        intro H. destruct (H y ltac:(lia)) as (r' & Hr' & Hm).
        assert (r' = r) by congruence. subst r'. congruence.
      * rewrite IH. split.
        -- intros H z Hz. destruct (Z.eq_dec z y) as [->|Hne].
           ++ exists r. split; assumption.
           ++ apply H. lia.
        -- intros H z Hz. apply H. lia.
    + split; [intros [res H]; discriminate|].
      intro H. destruct (H y ltac:(lia)) as (r' & Hr' & _). congruence.
Qed.

(** When runInflationWindow returns.  It returns exactly when the bounds
    of the dataset are in order and not before 1800, the amount is a
    positive finite number, the floors of the start year and of the
    duration are finite, the duration is at least a year, the window lies
    inside the dataset, and every year of the window has a rate whose
    multiplier [1 + rate/100] is not at most 0. *)
Theorem runInflationWindow_returns_iff
    (d : Inflation.Dataset) (amount startYear durationYears : option jsnum) :
  (exists w, Inflation.runInflationWindow d amount startYear durationYears
             = Returned w)
  <-> exists (amt : Q) (sY years : Z),
        (1800 <= Inflation.firstYear d <= Inflation.lastYear d)%Z
        /\ amount = Some (Fin amt) /\ 0 < amt
        /\ Inflation.math_floor (num_of startYear) = Fin (inject_Z sY)
        /\ Inflation.math_floor (num_of durationYears) = Fin (inject_Z years)
        /\ (0 < years)%Z
        /\ (Inflation.firstYear d <= sY)%Z
        /\ (sY + years - 1 <= Inflation.lastYear d)%Z
        /\ forall y, (sY <= y <= sY + years - 1)%Z ->
             exists r, Inflation.byYear d y = Some r
                       /\ jle (jadd (Fin 1) (jdiv r (Fin 100))) (Fin 0) = false.
Proof.
  split.
  - intros [w Hrun].
    apply runInflationWindow_inv in Hrun
      as (amt & sY & years & f & ser & Hmeta & -> & Hamt & Hs & Hd & Hy & Hlo & Hhi
          & Hloop & ->).
    exists amt, sY, years. repeat (split; [first [assumption | reflexivity | lia]|]).
    intros y Hyr.
    apply (proj1 (windowLoop_returns_iff d (Fin amt) (Z.to_nat years) sY (Fin 1) [])).
    + eauto.
    + lia.
  - intros (amt & sY & years & Hmeta & -> & Hamt & Hs & Hd & Hy & Hlo & Hhi & Hall).
    unfold Inflation.runInflationWindow, Inflation.assertInflationMeta. cbv zeta.
    replace (Inflation.firstYear d <? 1800)%Z with false
      by (symmetry; apply Z.ltb_ge; lia).
    replace (Inflation.lastYear d <? 1800)%Z with false
      by (symmetry; apply Z.ltb_ge; lia).
    replace (Inflation.lastYear d <? Inflation.firstYear d)%Z with false
      by (symmetry; apply Z.ltb_ge; lia).
    cbn [orb]. rewrite Hs, Hd.
    cbn [isFinite negb orb jle Inflation.intOf]. rewrite !Qfloor_Z.
    replace (Qle_bool (inject_Z years) 0) with false.
    2:{ symmetry. apply Qle_bool_gt. change 0 with (inject_Z 0).
        rewrite <- Zlt_Qlt. exact Hy. }
    replace (Qle_bool amt 0) with false by (symmetry; apply Qle_bool_gt; exact Hamt).
    replace (sY <? Inflation.firstYear d)%Z with false
      by (symmetry; apply Z.ltb_ge; lia).
    replace (sY + years - 1 >? Inflation.lastYear d)%Z with false
      by (symmetry; rewrite Z.gtb_ltb; apply Z.ltb_ge; lia).
    cbn [orb].
    destruct (proj2 (windowLoop_returns_iff d (Fin amt)
                       (Z.to_nat (sY + years - 1 - sY + 1)) sY (Fin 1) []))
      as [[f ser] ->].
    + intros z Hz. apply Hall. lia.
    + eauto.
Qed.

(** the loop over the years of one start year of the sweep computes the
    factor of the loop of runInflationWindow, and the sum of its rates *)
Lemma sweepYearLoop_window d amount : forall count y f s f' s' ser,
  Inflation.sweepYearLoop d y count f s = Returned (f', s') ->
  exists entries,
    Inflation.windowLoop d amount y count f ser = Returned (f', ser ++ entries)
    /\ s' = fold_left jadd (map Inflation.Entry.avgInflationPct entries) s.
Proof.
  induction count as [|n IH]; intros y f s f' s' ser H;
    cbn [Inflation.sweepYearLoop Inflation.windowLoop] in *.
  - injection H as <- <-. exists []. rewrite app_nil_r. split; reflexivity.
  - destruct (Inflation.byYear d y) as [r|]; [|discriminate].
    cbv zeta in *.
    destruct (jle (jadd (Fin 1) (jdiv r (Fin 100))) (Fin 0)); [discriminate|].
    apply (IH _ _ _ _ _
             (ser ++ [Inflation.Entry.mk y r
                        (jmul f (jadd (Fin 1) (jdiv r (Fin 100))))
                        (jmul amount (jmul f (jadd (Fin 1) (jdiv r (Fin 100)))))
                        (jdiv amount (jmul f (jadd (Fin 1) (jdiv r (Fin 100)))))]))
      in H.
    destruct H as (entries & Hw & ->).
    eexists (_ :: entries). rewrite Hw, <- app_assoc. split; reflexivity.
Qed.

(** what a returning loop over the start years recorded *)
Lemma sweepLoop_spec d amount years : forall count sy res res',
  Inflation.sweepLoop d amount years sy count res = Returned res' ->
  exists entries,
    res' = res ++ entries /\ length entries = count
    /\ forall i e, nth_error entries i = Some e ->
         Inflation.SweepEntry.startYear e = (sy + Z.of_nat i)%Z
         /\ exists f s,
              Inflation.sweepYearLoop d (Inflation.SweepEntry.startYear e)
                (Z.to_nat years) (Fin 1) (Fin 0) = Returned (f, s)
              /\ e = Inflation.SweepEntry.mk (Inflation.SweepEntry.startYear e)
                       (Inflation.SweepEntry.startYear e + years - 1)%Z amount
                       (jmul amount f) (jdiv amount f) f
                       (jdiv s (Fin (inject_Z years))).
Proof.
  induction count as [|n IH]; intros sy res res' H; cbn [Inflation.sweepLoop] in H.
  - injection H as <-. exists []. rewrite app_nil_r.
    split; [reflexivity|]. split; [reflexivity|].
    intros [|i] e He; discriminate.
  - cbv zeta in H.
    replace (sy + years - 1 - sy + 1)%Z with years in H by lia.
    destruct (Inflation.sweepYearLoop d sy (Z.to_nat years) (Fin 1) (Fin 0))
      as [[f s]|err] eqn:Hy; [|discriminate].
    apply IH in H. destruct H as (entries & -> & Hlen & Hall).
    eexists (_ :: entries). rewrite <- app_assoc. split; [reflexivity|].
    split; [cbn [length]; rewrite Hlen; reflexivity|].
    intros [|i] e He; cbn [nth_error] in He.
    + injection He as <-. cbn [Inflation.SweepEntry.startYear].
      split; [lia|]. exists f, s. split; [exact Hy | reflexivity].
    + destruct (Hall i e He) as [Hs Hrest]. split; [lia | exact Hrest].
Qed.

(** The sweep is the window, start year by start year.  A returning sweep
    has one result for every start year from the first year of the dataset
    to the last one whose window fits, in order; for each of them
    runInflationWindow returns, on the same amount and duration, with the
    same end year, cumulative factor, future equivalent and purchasing
    power, and the average rate of the result is the sum of the rates of
    the series of that window over the duration. *)
Theorem runInflationSweep_entries_are_windows
    (d : Inflation.Dataset) (amount durationYears : option jsnum)
    (out : Inflation.Sweep.t) :
  Inflation.runInflationSweep d amount durationYears = Returned out ->
  let years := Inflation.Sweep.durationYears out in
  Inflation.SweepSummary.startYearsTested (Inflation.Sweep.summary out)
  = length (Inflation.Sweep.results out)
  /\ Z.of_nat (length (Inflation.Sweep.results out))
     = (Inflation.lastYear d - years - Inflation.firstYear d + 2)%Z
  /\ forall i e,
       nth_error (Inflation.Sweep.results out) i = Some e ->
       Inflation.SweepEntry.startYear e = (Inflation.firstYear d + Z.of_nat i)%Z
       /\ exists w,
            Inflation.runInflationWindow d amount
              (Some (Fin (inject_Z (Inflation.SweepEntry.startYear e))))
              durationYears = Returned w
            /\ Inflation.Window.amount w = Inflation.SweepEntry.startAmount e
            /\ Inflation.Window.durationYears w = years
            /\ Inflation.Window.endYear w = Inflation.SweepEntry.endYear e
            /\ Inflation.Window.cumulativeInflationFactor w
               = Inflation.SweepEntry.cumulativeFactor e
            /\ Inflation.Window.futureEquivalentSameBuyingPower w
               = Inflation.SweepEntry.endAmount e
            /\ Inflation.Window.purchasingPowerInStartDollars w
               = Inflation.SweepEntry.realValueInStartDollars e
            /\ Inflation.SweepEntry.avgInflationPct e
               = jdiv (fold_left jadd
                         (map Inflation.Entry.avgInflationPct
                            (Inflation.Window.series w)) (Fin 0))
                   (Fin (inject_Z years)).
Proof.
  unfold Inflation.runInflationSweep. cbv zeta.
  destruct (Inflation.assertInflationMeta d) as [[]|err] eqn:Hmeta; [|discriminate].
  destruct (isFinite (Inflation.math_floor (num_of durationYears))) eqn:Hy;
    cbn [negb orb]; [|discriminate].
  pose proof (math_floor_finite _ Hy) as Hfl.
  set (years := Inflation.intOf (Inflation.math_floor (num_of durationYears))) in *.
  rewrite Hfl.
  destruct (jle (Fin (inject_Z years)) (Fin 0)) eqn:Hpos; [discriminate|].
  pose proof (jle_inject_Z_0 _ Hpos) as Hpos'.
  destruct amount as [[amt| | |]|]; cbn [isFinite negb orb]; try discriminate.
  destruct (jle (Fin amt) (Fin 0)) eqn:Ha; [discriminate|].
  destruct (Inflation.lastYear d - years + 1 <? Inflation.firstYear d)%Z eqn:Hmax;
    [discriminate|].
  apply Z.ltb_ge in Hmax.
  destruct (Inflation.sweepLoop _ _ _ _ _ _) as [results|err] eqn:Hloop;
    [|discriminate].
  intro H; injection H as <-.
  cbn [Inflation.Sweep.durationYears Inflation.Sweep.summary Inflation.Sweep.results
         Inflation.SweepSummary.startYearsTested].
  apply sweepLoop_spec in Hloop. destruct Hloop as (entries & -> & Hlen & Hall).
  cbn [app]. split; [reflexivity|]. split; [rewrite Hlen; lia|].
  intros i e He.
  assert (Hi : (i < length entries)%nat) by (apply nth_error_Some; congruence).
  destruct (Hall i e He) as (Hs & f & s & Hyl & Hentry).
  split; [exact Hs|].
  destruct (sweepYearLoop_window d (Fin amt) _ _ _ _ _ _ [] Hyl)
    as (ser & Hw & Hsum).
  cbn [app] in Hw.
  eexists. split.
  - unfold Inflation.runInflationWindow. rewrite Hmeta. cbv zeta.
    cbn [num_of Inflation.math_floor isFinite negb]. rewrite Hfl.
    cbn [isFinite negb orb]. rewrite Hpos, Ha. cbn [Inflation.intOf].
    rewrite !Qfloor_Z. fold years.
    replace (Inflation.SweepEntry.startYear e <? Inflation.firstYear d)%Z
      with false by (symmetry; apply Z.ltb_ge; lia).
    replace (Inflation.SweepEntry.startYear e + years - 1 >? Inflation.lastYear d)%Z
      with false by (symmetry; rewrite Z.gtb_ltb; apply Z.ltb_ge; lia).
    cbn [orb].
    replace (Inflation.SweepEntry.startYear e + years - 1
             - Inflation.SweepEntry.startYear e + 1)%Z with years by lia.
    rewrite Hw. reflexivity.
  - cbn [Inflation.Window.amount Inflation.Window.durationYears
           Inflation.Window.endYear Inflation.Window.cumulativeInflationFactor
           Inflation.Window.futureEquivalentSameBuyingPower
           Inflation.Window.purchasingPowerInStartDollars Inflation.Window.series].
    rewrite Hentry.
    cbn [Inflation.SweepEntry.startAmount Inflation.SweepEntry.endYear
           Inflation.SweepEntry.cumulativeFactor Inflation.SweepEntry.endAmount
           Inflation.SweepEntry.realValueInStartDollars
           Inflation.SweepEntry.avgInflationPct Inflation.SweepEntry.startYear].
    rewrite Hsum. repeat split; reflexivity.
Qed.

(* ================================================================== *)
(** * median *)
(* ================================================================== *)

(** the number of entries of [l] that pass the test [f] *)
Definition countIf (f : jsnum -> bool) (l : list jsnum) : nat :=
  length (filter f l).

Lemma countIf_app f l1 l2 : countIf f (l1 ++ l2) = (countIf f l1 + countIf f l2)%nat.
Proof. unfold countIf. rewrite filter_app, length_app. reflexivity. Qed.

Lemma countIf_le_length f l : (countIf f l <= length l)%nat.
Proof. apply filter_length_le. Qed.

Lemma countIf_all f l : Forall (fun x => f x = true) l -> countIf f l = length l.
Proof.
  unfold countIf. induction 1 as [|x t Hx Ht IH]; cbn [filter length]; [reflexivity|].
  rewrite Hx. cbn [length]. rewrite IH. reflexivity.
Qed.

Lemma countIf_none f l : Forall (fun x => f x = false) l -> countIf f l = 0%nat.
Proof.
  unfold countIf. induction 1 as [|x t Hx Ht IH]; cbn [filter length]; [reflexivity|].
  rewrite Hx. exact IH.
Qed.

Lemma countIf_mono f g l :
  Forall (fun x => f x = true -> g x = true) l -> (countIf f l <= countIf g l)%nat.
Proof.
  unfold countIf. induction 1 as [|x t Hx Ht IH]; cbn [filter length]; [lia|].
  destruct (f x) eqn:Ef.
  - rewrite (Hx eq_refl). cbn [length]. lia.
  - destruct (g x); cbn [length]; lia.
Qed.

Lemma countIf_Permutation f l l' :
  Permutation l l' -> countIf f l = countIf f l'.
Proof.
  unfold countIf. induction 1 as [|x l l' H IH|x y l|l l' l'' H1 IH1 H2 IH2];
    cbn [filter].
  - reflexivity.
  - destruct (f x); cbn [length]; rewrite IH; reflexivity.
  - destruct (f x), (f y); reflexivity.
  - congruence.
Qed.

(** the sort gives a permutation of its input *)
Lemma insertSorted_Permutation x l : Permutation (x :: l) (insertSorted x l).
Proof.
  induction l as [|y t IH]; cbn [insertSorted]; [reflexivity|].
  destruct (jlt (jsub y x) (Fin 0)); [|reflexivity].
  rewrite perm_swap. apply perm_skip. exact IH.
Qed.

Lemma sortNumbers_Permutation l : Permutation l (sortNumbers l).
Proof.
  induction l as [|x t IH]; cbn [sortNumbers fold_right]; [reflexivity|].
  rewrite <- insertSorted_Permutation. apply perm_skip. exact IH.
Qed.

(** [a <= b] on the numbers of a list *)
Definition jleb (a b : jsnum) : Prop := jle a b = true.

Lemma jlt_jsub_Fin (y x : Q) : jlt (jsub (Fin y) (Fin x)) (Fin 0) = Qltb y x.
Proof.
  cbn [jsub jneg jadd jlt]. unfold Qltb. f_equal.
  destruct (Qle_bool x y) eqn:E1.
  - apply Qle_bool_iff in E1. apply Qle_bool_iff. lra.
  - destruct (Qle_bool 0 (y + - x)) eqn:E2; [|reflexivity].
    apply Qle_bool_iff in E2. assert (H : x <= y) by lra.
    apply Qle_bool_iff in H. congruence.
Qed.

(** on finite numbers the sort gives an ascending list *)
Lemma insertSorted_sorted x l :
  finite x -> Forall finite l ->
  StronglySorted jleb l -> StronglySorted jleb (insertSorted x l).
Proof.
  intros Hx Hl Hs. apply finite_inv in Hx as [qx ->].
  induction Hs as [|y t Hst IH Hy]; cbn [insertSorted].
  - constructor; constructor.
  - inversion Hl as [|? ? Hfy Hft]; subst.
    apply finite_inv in Hfy as [qy ->].
    rewrite jlt_jsub_Fin.
    destruct (Qltb qy qx) eqn:E; [apply Qltb_lt in E | apply Qltb_ge in E].
    + constructor; [apply IH; exact Hft|].
      apply (Permutation_Forall (insertSorted_Permutation (Fin qx) t)).
      constructor; [|exact Hy].
      unfold jleb. cbn [jle]. apply Qle_bool_iff. lra.
    + constructor; [constructor; assumption|].
      constructor.
      * unfold jleb. cbn [jle]. apply Qle_bool_iff. exact E.
      * rewrite Forall_forall in Hy, Hft |- *. intros z Hz.
        specialize (Hy z Hz). specialize (Hft z Hz).
        apply finite_inv in Hft as [qz ->].
        unfold jleb in *. cbn [jle] in *. apply Qle_bool_iff in Hy.
        apply Qle_bool_iff. lra.
Qed.

Lemma sortNumbers_sorted l :
  Forall finite l -> StronglySorted jleb (sortNumbers l).
Proof.
  induction 1 as [|x t Hx Ht IH]; cbn [sortNumbers fold_right]; [constructor|].
  apply insertSorted_sorted; [exact Hx | apply sortNumbers_finite; exact Ht | exact IH].
Qed.

(** in an ascending list of finite numbers an earlier entry is at most a
    later one *)
Lemma sorted_nth_le (s : list jsnum) :
  Forall finite s -> StronglySorted jleb s ->
  forall i j, (i <= j < length s)%nat -> jle (nth i s NaN) (nth j s NaN) = true.
Proof.
  intros Hf Hs. induction Hs as [|x t Hst IH Hx]; intros i j Hij; cbn [length] in Hij.
  - lia.
  - inversion Hf as [|? ? Hfx Hft]; subst.
    destruct i as [|i], j as [|j]; cbn [nth]; try lia.
    + apply jle_refl_finite. exact Hfx.
    + rewrite Forall_forall in Hx. apply Hx. apply nth_In. lia.
    + apply IH; [exact Hft | lia].
Qed.

(** at least [k + 1] entries are at most the entry at [k], at most [k] are
    below it, and at least [length s - k] are at least it *)
Lemma sorted_counts (s : list jsnum) (k : nat) :
  Forall finite s -> StronglySorted jleb s -> (k < length s)%nat ->
  (k + 1 <= countIf (fun v => jle v (nth k s NaN)) s)%nat
  /\ (countIf (fun v => jlt v (nth k s NaN)) s <= k)%nat
  /\ (length s - k <= countIf (fun v => jle (nth k s NaN) v) s)%nat.
Proof.
  intros Hf Hs Hk.
  pose proof (sorted_nth_le s Hf Hs) as Hle.
  assert (Hfk : finite (nth k s NaN)) by (apply finite_nth; assumption).
  apply finite_inv in Hfk as [qk Hqk].
  remember (nth k s NaN) as m eqn:Hm.
  repeat split.
  - replace (countIf (fun v => jle v m) s)
      with (countIf (fun v => jle v m) (firstn (k + 1) s ++ skipn (k + 1) s))
      by (rewrite firstn_skipn; reflexivity).
    rewrite countIf_app, (countIf_all _ (firstn (k + 1) s)).
    + rewrite length_firstn. lia.
    + apply Forall_forall. intros x Hx.
      apply (In_nth _ _ NaN) in Hx as (i & Hi & <-).
      rewrite length_firstn in Hi.
      rewrite nth_firstn. replace (i <? k + 1)%nat with true
        by (symmetry; apply Nat.ltb_lt; lia).
      rewrite Hm. apply Hle. lia.
  - replace (countIf (fun v => jlt v m) s)
      with (countIf (fun v => jlt v m) (firstn k s ++ skipn k s))
      by (rewrite firstn_skipn; reflexivity).
    rewrite countIf_app, (countIf_none _ (skipn k s)).
    + pose proof (countIf_le_length (fun v => jlt v m) (firstn k s)) as H.
      rewrite length_firstn in H. lia.
    + apply Forall_forall. intros x Hx.
      apply (In_nth _ _ NaN) in Hx as (i & Hi & <-).
      rewrite length_skipn in Hi. rewrite nth_skipn.
      assert (H : jle (nth k s NaN) (nth (k + i) s NaN) = true) by (apply Hle; lia).
      assert (Hfi : finite (nth (k + i) s NaN)) by (apply finite_nth; [assumption|lia]).
      apply finite_inv in Hfi as [qi Hqi]. rewrite <- Hm, Hqk, Hqi in *.
      cbn [jle jlt] in *. apply Qle_bool_iff in H. apply Qltb_ge. exact H.
  - replace (countIf (fun v => jle m v) s)
      with (countIf (fun v => jle m v) (firstn k s ++ skipn k s))
      by (rewrite firstn_skipn; reflexivity).
    rewrite countIf_app, (countIf_all _ (skipn k s)).
    + rewrite length_skipn. lia.
    + apply Forall_forall. intros x Hx.
      apply (In_nth _ _ NaN) in Hx as (i & Hi & <-).
      rewrite length_skipn in Hi. rewrite nth_skipn.
      rewrite Hm. apply Hle. lia.
Qed.

(** two ascending lists of the same finite numbers have equal entries at
    every position *)
Lemma sorted_Permutation_nth (s s' : list jsnum) (k : nat) :
  Forall finite s -> StronglySorted jleb s -> StronglySorted jleb s' ->
  Permutation s s' -> (k < length s)%nat ->
  jeq (nth k s NaN) (nth k s' NaN) = true.
Proof.
  intros Hf Hs Hs' Hp Hk.
  assert (Hf' : Forall finite s') by (apply (Permutation_Forall Hp); exact Hf).
  assert (Hk' : (k < length s')%nat) by (rewrite <- (Permutation_length Hp); exact Hk).
  destruct (sorted_counts s k Hf Hs Hk) as (Ha1 & Ha2 & _).
  destruct (sorted_counts s' k Hf' Hs' Hk') as (Hb1 & Hb2 & _).
  assert (Hfa : finite (nth k s NaN)) by (apply finite_nth; assumption).
  assert (Hfb : finite (nth k s' NaN)) by (apply finite_nth; assumption).
  apply finite_inv in Hfa as [a Ea]. apply finite_inv in Hfb as [b Eb].
  rewrite Ea, Eb in *. cbn [jeq]. apply Qeq_bool_iff.
  destruct (Q_dec a b) as [[Hlt|Hgt]|Heq]; [| |exact Heq]; exfalso.
  - (* a < b: the k+1 entries at most a are all below b *)
    assert (H : (countIf (fun v => jle v (Fin a)) s
                 <= countIf (fun v => jlt v (Fin b)) s)%nat).
    { apply countIf_mono. rewrite Forall_forall in Hf |- *. intros x Hx.
      specialize (Hf x Hx). apply finite_inv in Hf as [q ->]. cbn [jle jlt].
      intro H. apply Qle_bool_iff in H. apply Qltb_lt. lra. }
    rewrite (countIf_Permutation (fun v => jlt v (Fin b)) s s' Hp) in H. lia.
  - assert (H : (countIf (fun v => jle v (Fin b)) s'
                 <= countIf (fun v => jlt v (Fin a)) s')%nat).
    { apply countIf_mono. rewrite Forall_forall in Hf' |- *. intros x Hx.
      specialize (Hf' x Hx). apply finite_inv in Hf' as [q ->]. cbn [jle jlt].
      intro H. apply Qle_bool_iff in H. apply Qltb_lt. lra. }
    rewrite <- (countIf_Permutation (fun v => jlt v (Fin a)) s s' Hp) in H. lia.
Qed.

(** the median once the list is sorted *)
Definition middleOf (sorted : list jsnum) : jsnum :=
  let mid := (length sorted / 2)%nat in
  if (length sorted mod 2 =? 1)%nat then nth mid sorted NaN
  else jdiv (jadd (nth (mid - 1) sorted NaN) (nth mid sorted NaN)) (Fin 2).

Lemma median_middleOf (values : list jsnum) :
  values <> [] -> median values = Some (middleOf (sortNumbers values)).
Proof.
  intro H. unfold median, middleOf. destruct values as [|v t]; [congruence|].
  cbv zeta. destruct (_ =? 1)%nat; reflexivity.
Qed.



Lemma jdiv_2 (q : Q) : jdiv (Fin q) (Fin 2) = Fin (q / 2).
Proof. apply (jdiv_Fin q 2). intro H; discriminate H. Qed.


(** The median does not depend on the order of the values: two lists of
    finite values that are permutations of each other have the same
    median. *)
Theorem median_order_independent (values values' : list jsnum) :
  Permutation values values' -> Forall finite values -> values <> [] ->
  exists m m' : jsnum,
    median values = Some m /\ median values' = Some m' /\ jeq m m' = true.
Proof.
  intros Hp Hf Hne.
  assert (Hne' : values' <> []).
  { intros ->. apply Permutation_sym, Permutation_nil in Hp. contradiction. }
  assert (Hf' : Forall finite values') by (apply (Permutation_Forall Hp); exact Hf).
  rewrite (median_middleOf values Hne), (median_middleOf values' Hne').
  eexists. eexists. split; [reflexivity|]. split; [reflexivity|].
  assert (Hps : Permutation (sortNumbers values) (sortNumbers values')).
  { rewrite <- (sortNumbers_Permutation values), <- (sortNumbers_Permutation values').
    exact Hp. }
  pose proof (sortNumbers_sorted values Hf) as Hs.
  pose proof (sortNumbers_sorted values' Hf') as Hs'.
  pose proof (sortNumbers_finite values Hf) as Hfs.
  pose proof (sortNumbers_finite values' Hf') as Hfs'.
  pose proof (Permutation_length Hps) as Hlen.
  set (s := sortNumbers values) in *. set (s' := sortNumbers values') in *.
  assert (Hn : (0 < length s)%nat).
  { subst s. rewrite sortNumbers_length. destruct values; [congruence | cbn; lia]. }
  unfold middleOf. cbv zeta. rewrite <- Hlen.
  assert (Hmid : (length s / 2 < length s)%nat) by (apply Nat.div_lt; lia).
  destruct (length s mod 2 =? 1)%nat.
  - apply sorted_Permutation_nth; assumption.
  - pose proof (sorted_Permutation_nth s s' (length s / 2 - 1) Hfs Hs Hs' Hps
                  ltac:(lia)) as H1.
    pose proof (sorted_Permutation_nth s s' (length s / 2) Hfs Hs Hs' Hps Hmid) as H2.
    assert (Ha : finite (nth (length s / 2 - 1) s NaN))
      by (apply finite_nth; [assumption|lia]).
    assert (Hb : finite (nth (length s / 2) s NaN))
      by (apply finite_nth; [assumption|lia]).
    assert (Ha' : finite (nth (length s / 2 - 1) s' NaN))
      by (apply finite_nth; [assumption|lia]).
    assert (Hb' : finite (nth (length s / 2) s' NaN))
      by (apply finite_nth; [assumption|lia]).
    apply finite_inv in Ha as [a Ea], Hb as [b Eb], Ha' as [a' Ea'], Hb' as [b' Eb'].
    rewrite Ea, Eb, Ea', Eb' in *. cbn [jadd]. rewrite !jdiv_2.
    cbn [jeq] in *. apply Qeq_bool_iff in H1, H2. apply Qeq_bool_iff.
    rewrite H1, H2. reflexivity.
Qed.

(* ================================================================== *)
(** * The monthly series of the data loader ([lib/dataloader.js]) *)
(* ================================================================== *)

Module DataLoader.

(** a row of the daily data, once its date is normalized to
    ["YYYY-MM-DD"] and its close is a finite number *)
Record Row : Type := mkRow {
  date : string;
  open : option jsnum;
  close : jsnum
}.

(** a value of the [Map] from a month key to the last daily row seen *)
Module Last.
Record t : Type := mk {
  month : string;
  lastDailyDate : string;
  close : jsnum
}.
End Last.

(** an entry of [monthly] *)
Module Monthly.
Record t : Type := mk {
  month : string;
  monthStart : string;
  lastDailyDate : string;
  close : jsnum
}.
End Monthly.

Module Meta.
Record t : Type := mk {
  dailyCount : nat;
  monthlyCount : nat;
  firstDailyDate : option string;
  lastDailyDate : option string;
  firstMonth : option string;
  lastMonth : option string
}.
End Meta.

(** monthKeyFromDate: [yyyyMMdd.slice(0, 7)] *)
Definition monthKeyFromDate (yyyyMMdd : string) : string := substring 0 7 yyyyMMdd.

(** [Array.prototype.sort] with a comparator, which is stable; [before y x]
    says that the comparator puts [y] before [x].  By insertion: [x] goes
    after every leading [y] that comes before it. *)
Fixpoint insertBy {A : Type} (before : A -> A -> bool) (x : A) (l : list A) : list A :=
  match l with
  | [] => [x]
  | y :: t => if before y x then y :: insertBy before x t else x :: l
  end.

Definition sortBy {A : Type} (before : A -> A -> bool) (l : list A) : list A :=
  fold_right (insertBy before) [] l.

(** [Map.prototype.get] and [Map.prototype.set] on a map kept as the list
    of its entries in insertion order *)
Fixpoint mapGet {V : Type} (k : string) (m : list (string * V)) : option V :=
  match m with
  | [] => None
  | (k', v) :: t => if (k' =? k)%string then Some v else mapGet k t
  end.

Fixpoint mapSet {V : Type} (k : string) (v : V) (m : list (string * V))
  : list (string * V) :=
  match m with
  | [] => [(k, v)]
  | (k', v') :: t =>
      if (k' =? k)%string then (k, v) :: t else (k', v') :: mapSet k v t
  end.

(** the loop that keeps the last daily row of each month *)
Fixpoint lastOfMonths (rows : list Row) (monthlyMap : list (string * Last.t))
  : list (string * Last.t) :=
  match rows with
  | [] => monthlyMap
  | r :: rest =>
      let mk := monthKeyFromDate (date r) in
      let prev := mapGet mk monthlyMap in
      lastOfMonths rest
        (match prev with
         | Some prev =>
             if (Last.lastDailyDate prev <? date r)%string
             then mapSet mk (Last.mk mk (date r) (close r)) monthlyMap
             else monthlyMap
         | None => mapSet mk (Last.mk mk (date r) (close r)) monthlyMap
         end)
  end.

(** [s || null] on a string or [undefined] *)
Definition orNull (s : option string) : option string :=
  match s with
  | Some s => if (s =? "")%string then None else Some s
  | None => None
  end.

(** loadDailyCsvAndBuildMonthly, from the rows it has read *)
Definition buildMonthly (rows : list Row) : list Row * list Monthly.t * Meta.t :=
  let rows := sortBy (fun a b => (date a <? date b)%string) rows in
  let monthlyMap := lastOfMonths rows [] in
  let monthly :=
    map (fun m => Monthly.mk (Last.month m) (Last.month m ++ "-01")
                    (Last.lastDailyDate m) (Last.close m))
        (sortBy (fun a b => (Last.month a <? Last.month b)%string)
           (map snd monthlyMap)) in
  let meta :=
    Meta.mk (length rows) (length monthly)
      (orNull (option_map date (nth_error rows 0)))
      (orNull (option_map date (nth_error rows (length rows - 1))))
      (orNull (option_map Monthly.month (nth_error monthly 0)))
      (orNull (option_map Monthly.month (nth_error monthly (length monthly - 1)))) in
  (rows, monthly, meta).

End DataLoader.

(* ================================================================== *)
(** ** Properties of the monthly series *)
(* ================================================================== *)

(** the order of strings *)
Lemma string_ltb_trans (a b c : string) :
  (a <? b)%string = true -> (b <? c)%string = true -> (a <? c)%string = true.
Proof.
  unfold String.ltb. intros H1 H2.
  destruct (String.compare a b) eqn:E1; try discriminate.
  destruct (String.compare b c) eqn:E2; try discriminate.
  apply OrderedTypeEx.String_as_OT.cmp_lt in E1, E2.
  pose proof (OrderedTypeEx.String_as_OT.lt_trans _ _ _ E1 E2) as H.
  apply OrderedTypeEx.String_as_OT.cmp_lt in H.
  unfold OrderedTypeEx.String_as_OT.cmp in H. rewrite H. reflexivity.
Qed.

Lemma string_ltb_irrefl (a : string) : (a <? a)%string = false.
Proof.
  unfold String.ltb. pose proof (String.compare_antisym a a) as H.
  destruct (String.compare a a); try reflexivity; discriminate.
Qed.

Lemma string_ltb_total (a b : string) :
  a <> b -> (a <? b)%string = false -> (b <? a)%string = true.
Proof.
  unfold String.ltb. intros Hne H. rewrite (String.compare_antisym b a).
  destruct (String.compare a b) eqn:E; try discriminate.
  - apply String.compare_eq_iff in E. contradiction.
  - reflexivity.
Qed.

Lemma string_ltb_le_trans (a b c : string) :
  (a <? b)%string = true -> (a <? c)%string = false -> (b <? c)%string = false.
Proof.
  intros H1 H2. destruct (b <? c)%string eqn:E; [|reflexivity].
  rewrite (string_ltb_trans a b c H1 E) in H2. discriminate.
Qed.

(** the sort keeps the entries *)
Lemma insertBy_In {A : Type} (before : A -> A -> bool) (x : A) (l : list A) (y : A) :
  In y (DataLoader.insertBy before x l) <-> y = x \/ In y l.
Proof.
  induction l as [|a t IH]; cbn [DataLoader.insertBy In]; [intuition|].
  destruct (before a x); cbn [In]; [rewrite IH|]; intuition.
Qed.

Lemma insertBy_length {A : Type} (before : A -> A -> bool) (x : A) (l : list A) :
  length (DataLoader.insertBy before x l) = S (length l).
Proof.
  induction l as [|a t IH]; cbn [DataLoader.insertBy length]; [reflexivity|].
  destruct (before a x); cbn [length]; [rewrite IH|]; reflexivity.
Qed.

Lemma sortBy_In {A : Type} (before : A -> A -> bool) (l : list A) (y : A) :
  In y (DataLoader.sortBy before l) <-> In y l.
Proof.
  induction l as [|a t IH]; cbn [DataLoader.sortBy fold_right In]; [reflexivity|].
  rewrite insertBy_In. fold (DataLoader.sortBy before t). rewrite IH. intuition.
Qed.

Lemma sortBy_length {A : Type} (before : A -> A -> bool) (l : list A) :
  length (DataLoader.sortBy before l) = length l.
Proof.
  induction l as [|a t IH]; cbn [DataLoader.sortBy fold_right length]; [reflexivity|].
  rewrite insertBy_length. fold (DataLoader.sortBy before t). rewrite IH. reflexivity.
Qed.

(** a list whose keys ascend strictly *)
Fixpoint ascending {A : Type} (key : A -> string) (l : list A) : Prop :=
  match l with
  | [] => True
  | x :: t => (forall y, In y t -> (key x <? key y)%string = true) /\ ascending key t
  end.

Lemma insertBy_ascending {A : Type} (key : A -> string) (x : A) (l : list A) :
  ascending key l -> (forall y, In y l -> key y <> key x) ->
  ascending key (DataLoader.insertBy (fun a b => (key a <? key b)%string) x l).
Proof.
  induction l as [|a t IH]; intros Hs Hne; cbn [DataLoader.insertBy].
  - split; [intros y []| exact I].
  - destruct Hs as [Ha Ht].
    destruct (key a <? key x)%string eqn:E.
    + split.
      * intros y Hy. apply insertBy_In in Hy as [->|Hy]; [exact E | apply Ha; exact Hy].
      * apply IH; [exact Ht|]. intros y Hy. apply Hne. right. exact Hy.
    + assert (Hxa : (key x <? key a)%string = true).
      { apply string_ltb_total; [|exact E]. apply Hne. left. reflexivity. }
      split; [|split; assumption].
      intros y [<-|Hy]; [exact Hxa|].
      apply (string_ltb_trans _ (key a)); [exact Hxa | apply Ha; exact Hy].
Qed.

Lemma sortBy_ascending {A : Type} (key : A -> string) (l : list A) :
  NoDup (map key l) ->
  ascending key (DataLoader.sortBy (fun a b => (key a <? key b)%string) l).
Proof.
  induction l as [|a t IH]; intro Hnd; cbn [DataLoader.sortBy fold_right]; [exact I|].
  inversion Hnd as [|? ? Hna Hnt]; subst.
  apply insertBy_ascending; [apply IH; exact Hnt|].
  intros y Hy E. apply sortBy_In in Hy. apply Hna. rewrite <- E.
  apply in_map. exact Hy.
Qed.

Lemma ascending_nth {A : Type} (key : A -> string) (l : list A) :
  ascending key l ->
  forall i j a b, (i < j)%nat -> nth_error l i = Some a -> nth_error l j = Some b ->
    (key a <? key b)%string = true.
Proof.
  induction l as [|x t IH]; intros Hs i j a b Hij Ha Hb.
  - destruct i; discriminate.
  - destruct Hs as [Hx Ht]. destruct j as [|j]; [lia|]. cbn [nth_error] in Hb.
    destruct i as [|i]; cbn [nth_error] in Ha.
    + injection Ha as <-. apply Hx. eapply nth_error_In; eauto.
    + apply (IH Ht i j); [lia | assumption | assumption].
Qed.

Lemma ascending_map {A B : Type} (f : A -> B) (key : B -> string) (l : list A) :
  ascending (fun a => key (f a)) l -> ascending key (map f l).
Proof.
  induction l as [|x t IH]; cbn [map ascending]; [auto|].
  intros [Hx Ht]. split; [|apply IH; exact Ht].
  intros y Hy. apply in_map_iff in Hy as (a & <- & Ha). apply Hx. exact Ha.
Qed.

(** the map operations *)
Lemma mapGet_Some {V : Type} (k : string) (m : list (string * V)) (v : V) :
  DataLoader.mapGet k m = Some v -> In (k, v) m.
Proof.
  induction m as [|[k' v'] t IH]; cbn [DataLoader.mapGet]; [discriminate|].
  destruct (k' =? k)%string eqn:E.
  - apply String.eqb_eq in E. intro H; injection H as <-. left. congruence.
  - intro H. right. apply IH. exact H.
Qed.

Lemma mapGet_None {V : Type} (k : string) (m : list (string * V)) :
  DataLoader.mapGet k m = None -> ~ In k (map fst m).
Proof.
  induction m as [|[k' v'] t IH]; cbn [DataLoader.mapGet map fst In]; [tauto|].
  destruct (k' =? k)%string eqn:E; [discriminate|].
  apply String.eqb_neq in E. intros H [H1|H1]; [contradiction|].
  exact (IH H H1).
Qed.

Lemma mapSet_keys {V : Type} (k : string) (v : V) (m : list (string * V)) :
  map fst (DataLoader.mapSet k v m)
  = if in_dec string_dec k (map fst m) then map fst m else map fst m ++ [k].
Proof.
  induction m as [|[k' v'] t IH]; cbn [DataLoader.mapSet map fst]; [reflexivity|].
  destruct (k' =? k)%string eqn:E.
  - apply String.eqb_eq in E. subst k'. cbn [map fst].
    destruct (in_dec string_dec k (k :: map fst t)) as [_|H]; [reflexivity|].
    exfalso. apply H. left. reflexivity.
  - apply String.eqb_neq in E. cbn [map fst]. rewrite IH.
    destruct (in_dec string_dec k (map fst t)) as [H|H];
      destruct (in_dec string_dec k (k' :: map fst t)) as [H'|H'];
      try reflexivity.
    + exfalso. apply H'. right. exact H.
    + exfalso. destruct H' as [H'|H']; [contradiction|]. exact (H H').
Qed.

Lemma mapSet_NoDup {V : Type} (k : string) (v : V) (m : list (string * V)) :
  NoDup (map fst m) -> NoDup (map fst (DataLoader.mapSet k v m)).
Proof.
  intro H. rewrite mapSet_keys.
  destruct (in_dec string_dec k (map fst m)) as [Hin|Hin]; [exact H|].
  apply NoDup_app; [exact H | repeat constructor; intros [] | ].
  intros x Hx [<-|[]]. contradiction.
Qed.

Lemma mapSet_In {V : Type} (k : string) (v : V) (m : list (string * V)) k' v' :
  NoDup (map fst m) ->
  In (k', v') (DataLoader.mapSet k v m) ->
  (k' = k /\ v' = v) \/ (k' <> k /\ In (k', v') m).
Proof.
  induction m as [|[k0 v0] t IH]; cbn [DataLoader.mapSet In map fst]; intro Hnd.
  - intros [H|[]]. injection H as <- <-. left. split; reflexivity.
  - inversion Hnd as [|? ? Hn Ht]; subst.
    destruct (k0 =? k)%string eqn:E.
    + apply String.eqb_eq in E. subst k0. intros [H|H].
      * injection H as <- <-. left. split; reflexivity.
      * right. split; [|right; exact H].
        intros ->. apply Hn. change k with (fst (k, v')). apply in_map. exact H.
    + apply String.eqb_neq in E. intros [H|H].
      * injection H as <- <-. right. split; [exact E | left; reflexivity].
      * destruct (IH Ht H) as [H1|[H1 H2]]; [left; exact H1|].
        right. split; [exact H1 | right; exact H2].
Qed.

Lemma mapSet_In_new {V : Type} (k : string) (v : V) (m : list (string * V)) :
  In (k, v) (DataLoader.mapSet k v m).
Proof.
  induction m as [|[k0 v0] t IH]; cbn [DataLoader.mapSet]; [left; reflexivity|].
  destruct (k0 =? k)%string; [left; reflexivity | right; exact IH].
Qed.

Lemma mapSet_In_other {V : Type} (k : string) (v : V) (m : list (string * V)) k' v' :
  k' <> k -> In (k', v') m -> In (k', v') (DataLoader.mapSet k v m).
Proof.
  intros Hne. induction m as [|[k0 v0] t IH]; cbn [DataLoader.mapSet In]; [tauto|].
  destruct (k0 =? k)%string eqn:E.
  - apply String.eqb_eq in E. subst k0. intros [H|H]; [congruence | right; exact H].
  - intros [H|H]; [left; exact H | right; apply IH; exact H].
Qed.

Lemma NoDup_fst_In {V : Type} (m : list (string * V)) k v v' :
  NoDup (map fst m) -> In (k, v) m -> In (k, v') m -> v = v'.
Proof.
  induction m as [|[k0 v0] t IH]; intros Hnd H1 H2; [destruct H1|].
  cbn [map fst] in Hnd. inversion Hnd as [|? ? Hn Ht]; subst.
  destruct H1 as [H1|H1], H2 as [H2|H2].
  - congruence.
  - injection H1 as <- <-. exfalso. apply Hn.
    change k0 with (fst (k0, v')). apply in_map. exact H2.
  - injection H2 as <- <-. exfalso. apply Hn.
    change k0 with (fst (k0, v)). apply in_map. exact H1.
  - eapply IH; eauto.
Qed.

(** the value kept for a month is a row of that month, with no row of
    the month dated after it *)
Definition lastRowOf (rows : list DataLoader.Row) (k : string)
    (v : DataLoader.Last.t) : Prop :=
  DataLoader.Last.month v = k
  /\ exists r,
       In r rows /\ DataLoader.monthKeyFromDate (DataLoader.date r) = k
       /\ DataLoader.date r = DataLoader.Last.lastDailyDate v
       /\ DataLoader.close r = DataLoader.Last.close v
       /\ forall r', In r' rows ->
            DataLoader.monthKeyFromDate (DataLoader.date r') = k ->
            (DataLoader.date r <? DataLoader.date r')%string = false.

(** the invariant of the loop over the rows: [seen] are the rows read *)
Definition MonthsInv (seen : list DataLoader.Row)
    (m : list (string * DataLoader.Last.t)) : Prop :=
  NoDup (map fst m)
  /\ (forall k v, In (k, v) m -> lastRowOf seen k v)
  /\ (forall r, In r seen ->
        In (DataLoader.monthKeyFromDate (DataLoader.date r)) (map fst m)).

Lemma lastRowOf_more seen r k v :
  lastRowOf seen k v ->
  DataLoader.monthKeyFromDate (DataLoader.date r) <> k ->
  lastRowOf (seen ++ [r]) k v.
Proof.
  intros (Hm & r0 & Hin & Hk & Hd & Hc & Hmax) Hne. split; [exact Hm|].
  exists r0. repeat split; auto.
  - apply in_or_app. left. exact Hin.
  - intros r' Hr' Hk'. apply in_app_or in Hr' as [Hr'|[<-|[]]]; [auto|].
    contradiction.
Qed.

Lemma lastOfMonths_step seen r m :
  MonthsInv seen m ->
  MonthsInv (seen ++ [r])
    (match DataLoader.mapGet (DataLoader.monthKeyFromDate (DataLoader.date r)) m with
     | Some prev =>
         if (DataLoader.Last.lastDailyDate prev <? DataLoader.date r)%string
         then DataLoader.mapSet (DataLoader.monthKeyFromDate (DataLoader.date r))
                (DataLoader.Last.mk (DataLoader.monthKeyFromDate (DataLoader.date r))
                   (DataLoader.date r) (DataLoader.close r)) m
         else m
     | None =>
         DataLoader.mapSet (DataLoader.monthKeyFromDate (DataLoader.date r))
           (DataLoader.Last.mk (DataLoader.monthKeyFromDate (DataLoader.date r))
              (DataLoader.date r) (DataLoader.close r)) m
     end).
Proof.
  intros (Hnd & Hlast & Hseen).
  set (mk := DataLoader.monthKeyFromDate (DataLoader.date r)).
  set (new := DataLoader.Last.mk mk (DataLoader.date r) (DataLoader.close r)).
  assert (Hset : (forall r', In r' seen ->
                    DataLoader.monthKeyFromDate (DataLoader.date r') = mk ->
                    (DataLoader.date r <? DataLoader.date r')%string = false) ->
                 MonthsInv (seen ++ [r]) (DataLoader.mapSet mk new m)).
  { intro Hmax. split; [apply mapSet_NoDup; exact Hnd|]. split.
    - intros k v Hin. apply (mapSet_In _ _ _ _ _ Hnd) in Hin as [[-> ->]|[Hne Hin]].
      + split; [reflexivity|]. exists r. repeat split; auto.
        * apply in_or_app. right. left. reflexivity.
        * intros r' Hr' Hk'. apply in_app_or in Hr' as [Hr'|[<-|[]]]; [auto|].
          apply string_ltb_irrefl.
      + apply lastRowOf_more; [apply Hlast; exact Hin|]. fold mk. congruence.
    - intros r' Hr'. rewrite mapSet_keys.
      apply in_app_or in Hr' as [Hr'|[<-|[]]].
      + destruct (in_dec string_dec mk (map fst m)); [auto|].
        apply in_or_app. left. auto.
      + fold mk. destruct (in_dec string_dec mk (map fst m)) as [H|H]; [exact H|].
        apply in_or_app. right. left. reflexivity. }
  destruct (DataLoader.mapGet mk m) as [prev|] eqn:Hget.
  - apply mapGet_Some in Hget.
    destruct (Hlast mk prev Hget) as (Hpm & r0 & Hr0 & Hk0 & Hd0 & Hc0 & Hmax0).
    destruct (DataLoader.Last.lastDailyDate prev <? DataLoader.date r)%string eqn:E.
    + apply Hset. intros r' Hr' Hk'.
      rewrite <- Hd0 in E.
      apply (string_ltb_le_trans (DataLoader.date r0)); [exact E|].
      apply Hmax0; assumption.
    + split; [exact Hnd|]. split.
      * intros k v Hin. destruct (string_dec mk k) as [<-|Hne].
        -- assert (v = prev) by (eapply NoDup_fst_In; eauto). subst v.
           split; [exact Hpm|]. exists r0. repeat split; auto.
           ++ apply in_or_app. left. exact Hr0.
           ++ intros r' Hr' Hk'. apply in_app_or in Hr' as [Hr'|[<-|[]]]; [auto|].
              rewrite Hd0. exact E.
        -- apply lastRowOf_more; [apply Hlast; exact Hin | exact Hne].
      * intros r' Hr'. apply in_app_or in Hr' as [Hr'|[<-|[]]]; [auto|].
        fold mk. change mk with (fst (mk, prev)). apply in_map. exact Hget.
  - apply Hset. intros r' Hr' Hk'. exfalso.
    apply mapGet_None in Hget. apply Hget. rewrite <- Hk'. apply Hseen. exact Hr'.
Qed.

Lemma lastOfMonths_inv : forall rows seen m,
  MonthsInv seen m -> MonthsInv (seen ++ rows) (DataLoader.lastOfMonths rows m).
Proof.
  induction rows as [|r rest IH]; intros seen m H; cbn [DataLoader.lastOfMonths].
  - rewrite app_nil_r. exact H.
  - cbv zeta. replace (seen ++ r :: rest) with ((seen ++ [r]) ++ rest)
      by (rewrite <- app_assoc; reflexivity).
    apply IH. apply lastOfMonths_step. exact H.
Qed.

(** The monthly series of the data loader.  Its months ascend strictly,
    so that no month occurs twice; a month is in the series exactly when
    some daily row is of that month; and each entry carries the date and
    the close of a daily row of its month that no row of the month is
    dated after: the last daily close of the month.  The daily rows
    returned are the rows read, and the two counts of the meta data are the
    lengths of the two series. *)
Theorem buildMonthly_last_close_of_each_month (rows : list DataLoader.Row) :
  let '(daily, monthly, meta) := DataLoader.buildMonthly rows in
  (forall r, In r daily <-> In r rows)
  /\ length daily = length rows
  /\ DataLoader.Meta.dailyCount meta = length rows
  /\ DataLoader.Meta.monthlyCount meta = length monthly
  /\ (forall i j a b,
        (i < j)%nat -> nth_error monthly i = Some a -> nth_error monthly j = Some b ->
        (DataLoader.Monthly.month a <? DataLoader.Monthly.month b)%string = true)
  /\ (forall k,
        In k (map DataLoader.Monthly.month monthly)
        <-> exists r, In r rows
                      /\ DataLoader.monthKeyFromDate (DataLoader.date r) = k)
  /\ (forall e, In e monthly ->
        DataLoader.Monthly.monthStart e = (DataLoader.Monthly.month e ++ "-01")%string
        /\ exists r,
             In r rows
             /\ DataLoader.monthKeyFromDate (DataLoader.date r)
                = DataLoader.Monthly.month e
             /\ DataLoader.date r = DataLoader.Monthly.lastDailyDate e
             /\ DataLoader.close r = DataLoader.Monthly.close e
             /\ forall r', In r' rows ->
                  DataLoader.monthKeyFromDate (DataLoader.date r')
                  = DataLoader.Monthly.month e ->
                  (DataLoader.date r <? DataLoader.date r')%string = false).
Proof.
  unfold DataLoader.buildMonthly. cbv zeta.
  set (daily := DataLoader.sortBy _ rows).
  assert (Hin : forall r, In r daily <-> In r rows) by (intro r; apply sortBy_In).
  pose proof (lastOfMonths_inv daily [] []) as Hinv. cbn [app] in Hinv.
  destruct Hinv as (Hnd & Hlast & Hseen).
  { split; [constructor|]. split; [intros k v []| intros r []]. }
  set (m := DataLoader.lastOfMonths daily []) in *.
  set (sorted := DataLoader.sortBy _ (map snd m)).
  assert (Hkeys : map DataLoader.Last.month (map snd m) = map fst m).
  { rewrite map_map. apply map_ext_in. intros [k v] Hkv. cbn [fst snd].
    apply (Hlast k v Hkv). }
  assert (Hsorted : forall v, In v sorted <-> In (DataLoader.Last.month v, v) m).
  { intro v. unfold sorted. rewrite sortBy_In, in_map_iff. split.
    - intros ([k v'] & <- & Hkv). cbn [snd].
      destruct (Hlast k v' Hkv) as [-> _]. exact Hkv.
    - intro H. exists (DataLoader.Last.month v, v). split; [reflexivity | exact H]. }
  cbn [DataLoader.Meta.dailyCount DataLoader.Meta.monthlyCount].
  split; [exact Hin|].
  split; [apply sortBy_length|].
  split; [apply sortBy_length|].
  split; [reflexivity|].
  split; [|split].
  - apply (ascending_nth DataLoader.Monthly.month).
    apply ascending_map. cbn [DataLoader.Monthly.month].
    apply (sortBy_ascending DataLoader.Last.month). rewrite Hkeys. exact Hnd.
  - intro k. rewrite map_map. cbn [DataLoader.Monthly.month]. split.
    + intro H. apply in_map_iff in H as (v & <- & Hv). apply Hsorted in Hv.
      destruct (Hlast _ _ Hv) as (_ & r & Hr & Hk & _).
      exists r. split; [apply Hin; exact Hr | exact Hk].
    + intros (r & Hr & <-). apply Hin in Hr. apply Hseen in Hr.
      apply in_map_iff in Hr as ([k v] & Hk & Hkv). cbn [fst] in Hk. subst k.
      destruct (Hlast _ _ Hkv) as [Hm _].
      apply in_map_iff. exists v. split; [exact Hm|].
      apply Hsorted. rewrite Hm. exact Hkv.
  - intros e He. apply in_map_iff in He as (v & <- & Hv).
    cbn [DataLoader.Monthly.monthStart DataLoader.Monthly.month
           DataLoader.Monthly.lastDailyDate DataLoader.Monthly.close].
    split; [reflexivity|].
    apply Hsorted in Hv.
    destruct (Hlast _ _ Hv) as (_ & r & Hr & Hk & Hd & Hc & Hmax).
    exists r. repeat split; auto.
    + apply Hin. exact Hr.
    + intros r' Hr' Hk'. apply Hmax; [apply Hin; exact Hr' | exact Hk'].
Qed.

Module MoreHelperExamples.

Lemma threeValues_Permutation :
  Permutation [lit 3 1; lit 1 1; lit 2 1] [lit 1 1; lit 2 1; lit 3 1].
Proof.
  apply (perm_trans (l' := [lit 1 1; lit 3 1; lit 2 1])).
  - apply perm_swap.
  - apply perm_skip. apply perm_swap.
Qed.

(** no arrays or objects in the request, and no string is a number *)
Definition noString (s : string) : jsnum := NaN.
Definition noOther (o : Empty_set) : jsnum := match o with end.


(** 3% a year from 1990 to 1995 *)
Definition flatInflation : Inflation.Dataset :=
  Inflation.mkDataset
    (fun y => if ((1990 <=? y) && (y <=? 1995))%Z then Some (lit 3 1) else None)
    1990 1995.





Definition noInflationSweep : Inflation.Sweep.t :=
  Inflation.Sweep.mk NaN 0 (Inflation.SweepSummary.mk 0 0 0) [].

Definition flatSweep : Inflation.Sweep.t :=
  match Inflation.runInflationSweep flatInflation
          (Some (lit 100 1)) (Some (lit 5 1)) with
  | Returned out => out
  | Thrown _ => noInflationSweep
  end.

Lemma flatSweep_ok :
  Inflation.runInflationSweep flatInflation (Some (lit 100 1)) (Some (lit 5 1))
  = Returned flatSweep.
Proof. vm_compute. reflexivity. Qed.

Definition exactFitSweep : SweepResult.t :=
  Examples.resultOf
    (Client.runRetirementSuccessByStartYear Examples.root12_tangent
       Departures.exactFitParams)
    MoreExamples.noSweep.

Lemma exactFitSweep_ok :
  Client.runRetirementSuccessByStartYear Examples.root12_tangent
    Departures.exactFitParams
  = Ok exactFitSweep.
Proof. vm_compute. reflexivity. Qed.

End MoreHelperExamples.

Lemma median_order_independent_witness :
  exists m m' : jsnum,
    median [lit 3 1; lit 1 1; lit 2 1] = Some m
    /\ median [lit 1 1; lit 2 1; lit 3 1] = Some m'
    /\ jeq m m' = true.
Proof.
  apply (median_order_independent [lit 3 1; lit 1 1; lit 2 1]
           [lit 1 1; lit 2 1; lit 3 1]).
  - exact MoreHelperExamples.threeValues_Permutation.
  - repeat constructor.
  - discriminate.
Defined.


Lemma validated_inflation_option_witness :
  exists q : Q,
    lit 2 1 = Fin q /\ -50 <= q <= 100
    /\ (Route.blank (Route.Str (other := Empty_set) "") = false ->
        Route.Number MoreHelperExamples.noString MoreHelperExamples.noOther
          (Route.Str "") = Fin q)
    /\ (Route.blank (Route.Str (other := Empty_set) "") = true ->
        Route.blank (Route.Num (other := Empty_set) (lit 2 1)) = false ->
        Route.Number MoreHelperExamples.noString MoreHelperExamples.noOther
          (Route.Num (lit 2 1)) = Fin q)
    /\ (Route.blank (Route.Str (other := Empty_set) "") = true ->
        Route.blank (Route.Num (other := Empty_set) (lit 2 1)) = true ->
        lit 2 1 = Fin 3)
    /\ (forall (root12 : Q -> Q) (p : Params) (gc : GuardrailsConfig),
          percentOfCurrentAnnualInflationPct p = lit 2 1 ->
          monthlyInfl (consts root12 p gc) = Fin (root12 (1 + q / 100) - 1)).
Proof.
  apply (validated_inflation_option Empty_set
           MoreHelperExamples.noString MoreHelperExamples.noOther
           (Route.Str "") (Route.Num (lit 2 1)) (lit 2 1)).
  reflexivity.
Defined.


Lemma runInflationSweep_entries_are_windows_witness :
  Z.of_nat (length (Inflation.Sweep.results MoreHelperExamples.flatSweep))
  = (Inflation.lastYear MoreHelperExamples.flatInflation
     - Inflation.Sweep.durationYears MoreHelperExamples.flatSweep
     - Inflation.firstYear MoreHelperExamples.flatInflation + 2)%Z.
Proof.
  exact (proj1 (proj2 (runInflationSweep_entries_are_windows
                         MoreHelperExamples.flatInflation
                         (Some (lit 100 1)) (Some (lit 5 1))
                         MoreHelperExamples.flatSweep
                         MoreHelperExamples.flatSweep_ok))).
Defined.

Lemma client_sweep_extends_server_sweep_witness :
  exists (outS : SweepResult.t) (extra : list YearOutcome.t),
    Sweep.runRetirementSuccessByStartYear Examples.root12_tangent
      Departures.exactFitParams = Ok outS
    /\ SweepResult.results MoreHelperExamples.exactFitSweep
       = SweepResult.results outS ++ extra
    /\ (length extra <= 1)%nat
    /\ (forall y, In y extra ->
          exists j pt,
            nth_error (monthly Departures.exactFitParams) j = Some pt
            /\ YearOutcome.startYear y = year (month pt)
            /\ (Z.of_nat j + durationYears Departures.exactFitParams * 12
                = Z.of_nat (length (monthly Departures.exactFitParams)))%Z).
Proof.
  exact (client_sweep_extends_server_sweep Examples.root12_tangent
           Departures.exactFitParams MoreHelperExamples.exactFitSweep
           MoreHelperExamples.exactFitSweep_ok).
Defined.
